(** * EarningsRadar: the scraping and aggregation pipeline

    A shallow embedding of [src/earnings_scraper.py] and [src/news_scraper.py],
    of the parts of the dashboard [src/app.py] that shape the tables, and of
    the ticker helpers of [src/utils.py].

    Conventions of the model:
    - a calendar date ([datetime.date]) is a [Z] day number, day 0 being
      1970-01-01 (proleptic Gregorian, as Python's [date]);
    - a [datetime] is its wall-clock time in seconds since 1970-01-01 00:00
      together with its UTC offset in seconds when it is tz-aware
      ([None] for a naive datetime);
    - the network is an environment: each page is the list of elements the
      BeautifulSoup lookups of the adapter return ([None] when the request or
      the lookup of the container raises or finds nothing), and the article
      extractor (newspaper3k) is a function [string -> option (text * summary)];
    - [datetime.now()] is one fixed value for the duration of one call;
    - [time.sleep] and logging are not modelled. *)

From Stdlib Require Import String Ascii ZArith List Bool Lia.
From Stdlib Require Import Sorting.Sorted Sorting.Permutation.
Import ListNotations.
Open Scope string_scope.
Open Scope list_scope.
Open Scope Z_scope.

(** ** Characters and strings *)

Definition is_space (c : ascii) : bool :=
  let n := nat_of_ascii c in
  ((9 <=? n) && (n <=? 13))%nat || ((28 <=? n) && (n <=? 32))%nat.

Definition lower_char (c : ascii) : ascii :=
  let n := nat_of_ascii c in
  if ((65 <=? n) && (n <=? 90))%nat then ascii_of_nat (n + 32) else c.

Definition lower (s : string) : string :=
  string_of_list_ascii (map lower_char (list_ascii_of_string s)).

(** Python's [str.upper()] on the ASCII range. *)
Definition upper (s : string) : string :=
  string_of_list_ascii
    (map (fun c => let n := nat_of_ascii c in
                   if ((97 <=? n) && (n <=? 122))%nat then ascii_of_nat (n - 32) else c)
         (list_ascii_of_string s)).

Fixpoint lstrip_l (l : list ascii) : list ascii :=
  match l with
  | c :: r => if is_space c then lstrip_l r else l
  | [] => []
  end.

(** Python's [str.strip()] on the ASCII range: the non-ASCII whitespace
    Python also strips ([\x85], [\xa0], Unicode spaces) is outside the model. *)
Definition strip (s : string) : string :=
  string_of_list_ascii (rev (lstrip_l (rev (lstrip_l (list_ascii_of_string s))))).

Definition is_empty (s : string) : bool :=
  match s with EmptyString => true | _ => false end.

(** Python's [sub in s]. *)
Fixpoint contains (sub s : string) : bool :=
  prefix sub s || match s with EmptyString => false | String _ r => contains sub r end.

Definition digit_val (c : ascii) : option Z :=
  let n := nat_of_ascii c in
  if ((48 <=? n) && (n <=? 57))%nat then Some (Z.of_nat n - 48) else None.

(** ** Calendar arithmetic (Python's proleptic Gregorian [date]) *)

Definition is_leap (y : Z) : bool :=
  (y mod 4 =? 0) && (negb (y mod 100 =? 0) || (y mod 400 =? 0)).

Definition days_in_month (y m : Z) : Z :=
  if m =? 2 then (if is_leap y then 29 else 28)
  else if (m =? 4) || (m =? 6) || (m =? 9) || (m =? 11) then 30 else 31.

Definition days_from_civil (y m d : Z) : Z :=
  let y' := if m <=? 2 then y - 1 else y in
  let era := y' / 400 in
  let yoe := y' - era * 400 in
  let doy := (153 * (if m >? 2 then m - 3 else m + 9) + 2) / 5 + d - 1 in
  let doe := yoe * 365 + yoe / 4 - yoe / 100 + doy in
  era * 146097 + doe - 719468.

Definition year_of_days (z : Z) : Z :=
  let z' := z + 719468 in
  let era := z' / 146097 in
  let doe := z' - era * 146097 in
  let yoe := (doe - doe / 1460 + doe / 36524 - doe / 146096) / 365 in
  let y := yoe + era * 400 in
  let doy := doe - (365 * yoe + yoe / 4 - yoe / 100) in
  let mp := (5 * doy + 2) / 153 in
  let m := if mp <? 10 then mp + 3 else mp - 9 in
  if m <=? 2 then y + 1 else y.

Definition secs_per_day : Z := 86400.

(** [datetime.min]: 0001-01-01 00:00. *)
Definition min_wall : Z := days_from_civil 1 1 1 * secs_per_day.

(** A Python [datetime]: naive when [dt_off] is [None]. *)
Record datetime := mk_datetime { dt_wall : Z; dt_off : option Z }.

Definition naive (w : Z) : datetime := mk_datetime w None.

(** ** [time.strptime]: the regular expression [_strptime] builds *)

Inductive directive :=
| DY | Dy | Dm | Dd | Db | DB | Da | DA | DH | DM | DS | DZ | Dz
| DSpace | DLit (c : ascii).

Definition directive_of (c : ascii) : directive :=
  match c with
  | "Y"%char => DY | "y"%char => Dy | "m"%char => Dm | "d"%char => Dd
  | "b"%char => Db | "B"%char => DB | "a"%char => Da | "A"%char => DA
  | "H"%char => DH | "M"%char => DM | "S"%char => DS | "Z"%char => DZ
  | "z"%char => Dz | _ => DLit c
  end.

(** Format text to directives; whitespace becomes [\s+]. *)
Fixpoint compile_fmt (s : string) : list directive :=
  match s with
  | EmptyString => []
  | String "%"%char (String c r) => directive_of c :: compile_fmt r
  | String c r => (if is_space c then DSpace else DLit c) :: compile_fmt r
  end.

Record tm := mk_tm {
  tm_year : Z; tm_mon : Z; tm_day : Z;
  tm_hour : Z; tm_min : Z; tm_sec : Z; tm_off : option Z }.

(** [_strptime]'s defaults: 1900-01-01 00:00:00, no UTC offset. *)
Definition tm0 : tm := mk_tm 1900 1 1 0 0 0 None.

Definition set_year t v := mk_tm v (tm_mon t) (tm_day t) (tm_hour t) (tm_min t) (tm_sec t) (tm_off t).
Definition set_mon t v := mk_tm (tm_year t) v (tm_day t) (tm_hour t) (tm_min t) (tm_sec t) (tm_off t).
Definition set_day t v := mk_tm (tm_year t) (tm_mon t) v (tm_hour t) (tm_min t) (tm_sec t) (tm_off t).
Definition set_hour t v := mk_tm (tm_year t) (tm_mon t) (tm_day t) v (tm_min t) (tm_sec t) (tm_off t).
Definition set_min t v := mk_tm (tm_year t) (tm_mon t) (tm_day t) (tm_hour t) v (tm_sec t) (tm_off t).
Definition set_sec t v := mk_tm (tm_year t) (tm_mon t) (tm_day t) (tm_hour t) (tm_min t) v (tm_off t).
Definition set_off t v := mk_tm (tm_year t) (tm_mon t) (tm_day t) (tm_hour t) (tm_min t) (tm_sec t) v.

Definition month_abbr : list string :=
  ["jan"; "feb"; "mar"; "apr"; "may"; "jun"; "jul"; "aug"; "sep"; "oct"; "nov"; "dec"].
Definition month_full : list string :=
  ["january"; "february"; "march"; "april"; "may"; "june"; "july"; "august";
   "september"; "october"; "november"; "december"].
Definition wday_abbr : list string := ["mon"; "tue"; "wed"; "thu"; "fri"; "sat"; "sun"].
Definition wday_full : list string :=
  ["monday"; "tuesday"; "wednesday"; "thursday"; "friday"; "saturday"; "sunday"].

(** Case-insensitive prefix ([re.IGNORECASE]). *)
Fixpoint take_ci (p : list ascii) (l : list ascii) : option (list ascii) :=
  match p, l with
  | [], _ => Some l
  | a :: p', b :: l' => if Ascii.eqb (lower_char a) (lower_char b) then take_ci p' l' else None
  | _ :: _, [] => None
  end.

(** The alternatives of a name table that match at the head of [l], each
    with its 1-based index. *)
Fixpoint name_cands (names : list string) (i : Z) (l : list ascii) : list (Z * list ascii) :=
  match names with
  | [] => []
  | n :: ns =>
      match take_ci (list_ascii_of_string n) l with
      | Some r => (i, r) :: name_cands ns (i + 1) l
      | None => name_cands ns (i + 1) l
      end
  end.

Definition two_digits (l : list ascii) : option (Z * Z * list ascii) :=
  match l with
  | a :: b :: r =>
      match digit_val a, digit_val b with Some x, Some y => Some (x, y, r) | _, _ => None end
  | _ => None
  end.

Definition one_digit (l : list ascii) : option (Z * list ascii) :=
  match l with a :: r => option_map (fun x => (x, r)) (digit_val a) | [] => None end.

(** Alternatives [ok2 | \d] in regex order: the two-digit alternatives the
    predicate admits first, then a single digit in [[lo-9]]. *)
Definition num_cands (ok2 : Z -> Z -> bool) (lo : Z) (l : list ascii) : list (Z * list ascii) :=
  (match two_digits l with Some (x, y, r) => if ok2 x y then [(10 * x + y, r)] else [] | None => [] end)
  ++ (match one_digit l with Some (x, r) => if lo <=? x then [(x, r)] else [] | None => [] end).

Definition year4_cands (l : list ascii) : list (Z * list ascii) :=
  match l with
  | a :: b :: c :: d :: r =>
      match digit_val a, digit_val b, digit_val c, digit_val d with
      | Some w, Some x, Some y, Some z => [(1000 * w + 100 * x + 10 * y + z, r)]
      | _, _, _, _ => []
      end
  | _ => []
  end.

(** [\s+], greedy: the longest run first. *)
Fixpoint space_cands (l : list ascii) : list (list ascii) :=
  match l with
  | c :: r => if is_space c then space_cands r ++ [r] else []
  | [] => []
  end.

(** [[+-]\d\d:?[0-5]\d] or a case-sensitive [Z]; the offset in seconds. *)
Definition off_cands (l : list ascii) : list (Z * list ascii) :=
  let sgn c := if Ascii.eqb c "+"%char then Some 1 else if Ascii.eqb c "-"%char then Some (-1) else None in
  match l with
  | "Z"%char :: r => [(0, r)]
  | c :: r =>
      match sgn c, two_digits r with
      | Some s, Some (h1, h2, r1) =>
          let r1' := match r1 with ":"%char :: r2 => r2 | _ => r1 end in
          match two_digits r1' with
          | Some (m1, m2, r3) =>
              if m1 <=? 5 then [(s * ((10 * h1 + h2) * 3600 + (10 * m1 + m2) * 60), r3)] else []
          | None => []
          end
      | _, _ => []
      end
  | [] => []
  end.

(** One directive at the head of the input: its alternatives in the order the
    regular expression tries them. *)
Definition step (d : directive) (l : list ascii) (t : tm) : list (tm * list ascii) :=
  let upd (f : tm -> Z -> tm) (c : list (Z * list ascii)) := map (fun '(v, r) => (f t v, r)) c in
  match d with
  | DY => upd set_year (year4_cands l)
  | Dy => upd set_year
            (map (fun '(v, r) => (if v <=? 68 then v + 2000 else v + 1900, r))
                 (match two_digits l with Some (x, y, r) => [(10 * x + y, r)] | None => [] end))
  | Dm => upd set_mon (num_cands (fun x y => ((x =? 1) && (y <=? 2)) || ((x =? 0) && (1 <=? y))) 1 l)
  | Dd => upd set_day
            (num_cands (fun x y => ((x =? 3) && (y <=? 1)) || (x =? 1) || (x =? 2) || ((x =? 0) && (1 <=? y))) 1 l
             ++ match l with
                | " "%char :: r => match one_digit r with Some (x, r') => if 1 <=? x then [(x, r')] else [] | None => [] end
                | _ => []
                end)
  | DH => upd set_hour (num_cands (fun x y => ((x =? 2) && (y <=? 3)) || (x <=? 1)) 0 l)
  | DM => upd set_min (num_cands (fun x _ => x <=? 5) 0 l)
  | DS => upd set_sec (num_cands (fun x y => (x <=? 5) || ((x =? 6) && (y <=? 1))) 0 l)
  | Db => upd set_mon (name_cands month_abbr 1 l)
  | DB => upd set_mon (name_cands month_full 1 l)
  | Da => map (fun '(_, r) => (t, r)) (name_cands wday_abbr 1 l)
  | DA => map (fun '(_, r) => (t, r)) (name_cands wday_full 1 l)
  | DZ => map (fun '(_, r) => (t, r)) (name_cands ["utc"; "gmt"] 1 l)
  | Dz => map (fun '(v, r) => (set_off t (Some v), r)) (off_cands l)
  | DSpace => map (fun r => (t, r)) (space_cands l)
  | DLit c => match l with
              | c' :: r => if Ascii.eqb (lower_char c) (lower_char c') then [(t, r)] else []
              | [] => []
              end
  end.

Fixpoint first_some {A B} (f : A -> option B) (l : list A) : option B :=
  match l with
  | [] => None
  | x :: r => match f x with Some b => Some b | None => first_some f r end
  end.

(** [re.match] of the whole format, with backtracking, and the check that no
    data remains. *)
Fixpoint match_fmt (ds : list directive) (l : list ascii) (t : tm) {struct ds} : option tm :=
  match ds with
  | [] => match l with [] => Some t | _ => None end
  | d :: ds' => first_some (fun '(t', r) => match_fmt ds' r t') (step d l t)
  end.

(** The range checks of the [datetime] constructor. *)
Definition tm_valid (t : tm) : bool :=
  (1 <=? tm_year t) && (tm_year t <=? 9999) && (1 <=? tm_mon t) && (tm_mon t <=? 12)
  && (1 <=? tm_day t) && (tm_day t <=? days_in_month (tm_year t) (tm_mon t))
  && (tm_hour t <=? 23) && (tm_min t <=? 59) && (tm_sec t <=? 59).

(** [datetime.strptime(s, fmt)]: [None] where Python raises [ValueError]. *)
Definition strptime (s fmt : string) : option tm :=
  match match_fmt (compile_fmt fmt) (list_ascii_of_string s) tm0 with
  | Some t => if tm_valid t then Some t else None
  | None => None
  end.

Definition date_of_tm (t : tm) : Z := days_from_civil (tm_year t) (tm_mon t) (tm_day t).

Definition datetime_of_tm (t : tm) : datetime :=
  mk_datetime (date_of_tm t * secs_per_day + tm_hour t * 3600 + tm_min t * 60 + tm_sec t) (tm_off t).

(** The first format of the list that parses [s]. *)
Fixpoint try_formats (s : string) (fmts : list string) : option tm :=
  match fmts with
  | [] => None
  | f :: fs => match strptime s f with Some t => Some t | None => try_formats s fs end
  end.

(** ** Date Normalizer *)

(** [re.search(r'(\d+)', s).group(1)] as a number; [None] where [re.search]
    finds nothing (and [.group] raises [AttributeError]). *)
Fixpoint read_digits (acc : Z) (l : list ascii) : Z :=
  match l with
  | c :: r => match digit_val c with Some v => read_digits (10 * acc + v) r | None => acc end
  | [] => acc
  end.

Fixpoint search_digits_l (l : list ascii) : option Z :=
  match l with
  | c :: r => match digit_val c with Some _ => Some (read_digits 0 l) | None => search_digits_l r end
  | [] => None
  end.

(** [re.search(r'(\d+)', s).group(1)] on ASCII digits ([\d] also matches
    the other Unicode decimal digits). *)
Definition search_digits (s : string) : option Z := search_digits_l (list_ascii_of_string s).

(** [NewsScraper._parse_news_date]'s formats. *)
Definition news_formats : list string :=
  ["%Y-%m-%d %H:%M:%S"; "%Y-%m-%d"; "%m/%d/%Y %H:%M:%S"; "%m/%d/%Y";
   "%b %d, %Y %H:%M:%S"; "%B %d, %Y %H:%M:%S"; "%b %d, %Y"; "%B %d, %Y";
   "%a, %d %b %Y %H:%M:%S %Z"; "%a, %d %b %Y %H:%M:%S %z"].

(** [datetime.now() - timedelta(...)] for "<n> hour(s) ago" and the like.
    When the number is missing ([AttributeError]) or the result falls before
    [datetime.min] ([OverflowError]) the exception is caught by the enclosing
    [except] and the function ends in [return datetime.now()]. *)
Definition relative_ago (now : Z) (unit : Z) (s : string) : option datetime :=
  match search_digits s with
  | None => Some (naive now)
  | Some n =>
      let w := now - n * unit in
      if w <? min_wall then Some (naive now) else Some (naive w)
  end.

(** [NewsScraper._parse_news_date]; the result type mirrors the source's
    [Optional[datetime]] annotation. *)
Definition parse_news_date (now : Z) (date_str : string) : option datetime :=
  if is_empty date_str then Some (naive now)
  else
    let s := strip date_str in
    match try_formats s news_formats with
    | Some t => Some (datetime_of_tm t)
    | None =>
        let low := lower s in
        if contains "hour" low then relative_ago now 3600 s
        else if contains "day" low then relative_ago now secs_per_day s
        else if contains "minute" low then relative_ago now 60 s
        else Some (naive now)
    end.

(** [EarningsScraper._parse_date]'s formats. *)
Definition earnings_formats : list string :=
  ["%Y-%m-%d"; "%m/%d/%Y"; "%m/%d/%y"; "%b %d, %Y"; "%B %d, %Y"; "%d %b %Y"; "%d %B %Y"].

(** [EarningsScraper._parse_date]: a date, or [None]. *)
Definition parse_date (today : Z) (date_str : string) : option Z :=
  let s := strip date_str in
  match try_formats s earnings_formats with
  | Some t => Some (date_of_tm t)
  | None =>
      let low := lower s in
      if contains "today" low then Some today
      else if contains "tomorrow" low then Some (today + 1)
      else if contains "yesterday" low then Some (today - 1)
      else None
  end.

Definition is_digit (c : ascii) : bool :=
  match digit_val c with Some _ => true | None => false end.

Definition ordinal_suffix (a b : ascii) : bool :=
  match a, b with
  | "s"%char, "t"%char | "n"%char, "d"%char | "r"%char, "d"%char | "t"%char, "h"%char => true
  | _, _ => false
  end.

(** [re.sub(r'(\d+)(st|nd|rd|th)', r'\1', s)]: [after_digit] tells whether the
    previous character ends a run of digits not yet consumed by a match. *)
Fixpoint strip_ordinals_l (after_digit : bool) (l : list ascii) : list ascii :=
  match l with
  | [] => []
  | a :: r =>
      match r with
      | b :: r' =>
          if after_digit && ordinal_suffix a b then strip_ordinals_l false r'
          else a :: strip_ordinals_l (is_digit a) r
      | [] => [a]
      end
  end.

Definition strip_ordinals (s : string) : string :=
  string_of_list_ascii (strip_ordinals_l false (list_ascii_of_string s)).

Definition finviz_formats : list string := ["%A, %B %d"; "%B %d"; "%m/%d/%Y"; "%Y-%m-%d"].

(** The loop of [_parse_finviz_date]: a parsed year of 1900 is replaced by the
    current year, and a [ValueError] of [replace] moves on to the next format. *)
Fixpoint finviz_try (cy : Z) (s : string) (fmts : list string) : option Z :=
  match fmts with
  | [] => None
  | f :: fs =>
      match strptime s f with
      | Some t =>
          if tm_year t =? 1900 then
            let t' := set_year t cy in
            if tm_valid t' then Some (date_of_tm t') else finviz_try cy s fs
          else Some (date_of_tm t)
      | None => finviz_try cy s fs
      end
  end.

(** [EarningsScraper._parse_finviz_date]: falls back to today. *)
Definition parse_finviz_date (today : Z) (date_str : string) : Z :=
  let s := strip_ordinals (strip date_str) in
  match finviz_try (year_of_days today) s finviz_formats with
  | Some d => d
  | None => today
  end.

(** ** Earnings data and adapters *)

(** A [<td>]: its [get_text(strip=True)], its first [<a>] (text and [title]
    attribute, [''] when absent) and whether it carries a [colspan]. *)
Record link := mk_link { link_text : string; link_title : string }.
Record cell := mk_cell { cell_text : string; cell_link : option link; cell_colspan : bool }.
Definition row := list cell.

(** One row of the earnings DataFrame. *)
Record earning := mk_earning {
  e_ticker : string; e_company : string; e_date : Z; e_time : string; e_source : string }.

(** What the four calendar pages yield: the rows of the table found
    ([find_all('tr')]), or the tables' rows; [None] when the request fails or
    the table is not found. *)
Record earn_env := mk_earn_env {
  today : Z;
  finviz_page : option (list row);
  investing_page : option (list row);
  yahoo_page : option (list (list row));
  marketwatch_page : option (list (list row)) }.

Definition finviz_row (today days_ahead d : Z) (cells : row) : option earning :=
  match cells with
  | c0 :: c1 :: c2 :: _ =>
      match cell_link c1 with
      | Some a =>
          let ticker := link_text a in
          if negb (is_empty ticker) && (d - today <=? days_ahead)
          then Some (mk_earning ticker (cell_text c2) d (cell_text c0) "Finviz")
          else None
      | None => None
      end
  | _ => None
  end.

(** The row loop of [_scrape_finviz_earnings]; [current] is [current_date]. *)
Fixpoint finviz_rows (today days_ahead : Z) (current : option Z) (rows : list row) : list earning :=
  match rows with
  | [] => []
  | cells :: rest =>
      match cells with
      | [c] =>
          if cell_colspan c
          then finviz_rows today days_ahead (Some (parse_finviz_date today (cell_text c))) rest
          else finviz_rows today days_ahead current rest
      | _ =>
          match current with
          | Some d =>
              match finviz_row today days_ahead d cells with
              | Some e => e :: finviz_rows today days_ahead current rest
              | None => finviz_rows today days_ahead current rest
              end
          | None => finviz_rows today days_ahead current rest
          end
      end
  end.

Definition scrape_finviz_earnings (env : earn_env) (days_ahead : Z) : list earning :=
  match finviz_page env with
  | Some rows => finviz_rows (today env) days_ahead None rows
  | None => []
  end.

Definition yahoo_row (today days_ahead : Z) (cells : row) : option earning :=
  match cells with
  | c0 :: c1 :: c2 :: _ :: _ =>
      match cell_link c0 with
      | Some a =>
          let ticker := link_text a in
          if negb (is_empty ticker) && (today - today <=? days_ahead)
          then Some (mk_earning ticker (cell_text c1) today (cell_text c2) "Yahoo Finance")
          else None
      | None => None
      end
  | _ => None
  end.

(** [rows[1:]] of every table. The [OverflowError] of
    [today + timedelta(days=days_ahead)] past year 9999, after which the
    adapter returns [[]], is not modelled. *)
Definition scrape_yahoo_finance_api (env : earn_env) (days_ahead : Z) : list earning :=
  match yahoo_page env with
  | Some tables =>
      flat_map (fun rows => flat_map (fun r => match yahoo_row (today env) days_ahead r with
                                               | Some e => [e] | None => [] end) (tl rows)) tables
  | None => []
  end.

Fixpoint after_last_paren_l (cur : list ascii) (l : list ascii) : list ascii :=
  match l with
  | [] => cur
  | c :: r => if Ascii.eqb c "("%char then after_last_paren_l [] r else after_last_paren_l (cur ++ [c]) r
  end.

(** [title.split('(')[-1].replace(')', '') if '(' in title else ''] *)
Definition ticker_of_title (title : string) : string :=
  if contains "(" title then
    string_of_list_ascii
      (filter (fun c => negb (Ascii.eqb c ")"%char)) (after_last_paren_l [] (list_ascii_of_string title)))
  else "".

Definition investing_row (today : Z) (cells : row) : option earning :=
  match cells with
  | c0 :: c1 :: c2 :: _ :: _ =>
      match cell_link c1 with
      | Some a =>
          let company := link_text a in
          let t0 := ticker_of_title (link_title a) in
          let ticker :=
            if is_empty t0 then
              (if negb (is_empty (cell_text c0)) && (String.length (cell_text c0) <=? 5)%nat
               then cell_text c0 else t0)
            else t0 in
          if negb (is_empty ticker) && negb (is_empty company)
          then Some (mk_earning ticker company today (cell_text c2) "Investing.com")
          else None
      | None => None
      end
  | _ => None
  end.

Definition scrape_investing_earnings (env : earn_env) (days_ahead : Z) : list earning :=
  match investing_page env with
  | Some rows => flat_map (fun r => match investing_row (today env) r with
                                    | Some e => [e] | None => [] end) (tl rows)
  | None => []
  end.

Definition marketwatch_row (today : Z) (cells : row) : option earning :=
  match cells with
  | c0 :: c1 :: c2 :: _ =>
      let ticker := match cell_link c0 with Some a => link_text a | None => cell_text c0 end in
      let company := cell_text c1 in
      if negb (is_empty ticker) && negb (is_empty company)
      then Some (mk_earning ticker company today (cell_text c2) "MarketWatch")
      else None
  | _ => None
  end.

Definition scrape_marketwatch_earnings (env : earn_env) (days_ahead : Z) : list earning :=
  match marketwatch_page env with
  | Some tables =>
      flat_map (fun rows => flat_map (fun r => match marketwatch_row (today env) r with
                                               | Some e => [e] | None => [] end) (tl rows)) tables
  | None => []
  end.

(** ** pandas: [drop_duplicates(keep='first')] and [sort_values] *)

Section Pandas.
Context {A K : Type} (keq : K -> K -> bool) (key : A -> K).

(** [drop_duplicates(subset=key, keep='first')]: [seen] holds the keys
    already kept. *)
Fixpoint drop_dups_from (seen : list K) (l : list A) : list A :=
  match l with
  | [] => []
  | x :: r =>
      if existsb (keq (key x)) seen then drop_dups_from seen r
      else x :: drop_dups_from (key x :: seen) r
  end.

Definition drop_duplicates (l : list A) : list A := drop_dups_from [] l.
End Pandas.

Section Sort.
Context {A : Type} (le : A -> A -> bool).

Fixpoint insert (x : A) (l : list A) : list A :=
  match l with
  | [] => [x]
  | y :: r => if le x y then x :: l else y :: insert x r
  end.

(** [sort_values]: pandas orders rows of equal key by its quicksort; the
    model orders them stably. *)
Fixpoint sort_values (l : list A) : list A :=
  match l with
  | [] => []
  | x :: r => insert x (sort_values r)
  end.
End Sort.

(** ** Earnings Aggregator *)

(** A Python call that returns a value or raises. *)
Inductive exc (A : Type) : Type := Ok (a : A) | Raise.
Arguments Ok {A} a.
Arguments Raise {A}.

Definition earn_key (e : earning) : string * Z := (e_ticker e, e_date e).

Definition earn_key_eqb (k1 k2 : string * Z) : bool :=
  String.eqb (fst k1) (fst k2) && Z.eqb (snd k1) (snd k2).

Definition earn_date_le (x y : earning) : bool := e_date x <=? e_date y.

(** The loop of [get_earnings_calendar] over its [sources]: a source that
    raises is skipped. *)
Fixpoint gather_earnings (sources : list (Z -> exc (list earning))) (days_ahead : Z) : list earning :=
  match sources with
  | [] => []
  | f :: fs =>
      match f days_ahead with
      | Ok es => es ++ gather_earnings fs days_ahead
      | Raise => gather_earnings fs days_ahead
      end
  end.

(** [get_earnings_calendar] over a list of sources: an empty DataFrame when
    nothing was scraped, else the rows deduplicated on [(ticker, date)] and
    sorted by date. *)
Definition collect_earnings (sources : list (Z -> exc (list earning))) (days_ahead : Z) : list earning :=
  match gather_earnings sources days_ahead with
  | [] => []
  | all_earnings =>
      sort_values earn_date_le (drop_duplicates earn_key_eqb earn_key all_earnings)
  end.

(** The registered sources, in the order of the [sources] list. *)
Definition earnings_sources (env : earn_env) : list (Z -> exc (list earning)) :=
  [fun d => Ok (scrape_finviz_earnings env d);
   fun d => Ok (scrape_investing_earnings env d);
   fun d => Ok (scrape_yahoo_finance_api env d);
   fun d => Ok (scrape_marketwatch_earnings env d)].

(** [pd.to_datetime] at line 59 is taken to accept every date; pandas 2.x
    raises [OutOfBoundsDatetime] for a date outside 1677-2262. *)
Definition get_earnings_calendar (env : earn_env) (days_ahead : Z) : list earning :=
  collect_earnings (earnings_sources env) days_ahead.

(** ** Effects of the news pipeline: exceptions and the log of extractions

    [M A] threads the list of URLs handed to the article extractor so far;
    the log survives an exception, as the downloads it records do. *)

Definition M (A : Type) : Type := list string -> exc A * list string.

Definition ret {A} (a : A) : M A := fun s => (Ok a, s).

Definition bind {A B} (m : M A) (k : A -> M B) : M B :=
  fun s => match m s with
           | (Ok a, s') => k a s'
           | (Raise, s') => (Raise, s')
           end.

Definition raise {A} : M A := fun s => (Raise, s).

(** [try: m except Exception: h] *)
Definition try_except {A} (m : M A) (h : M A) : M A :=
  fun s => match m s with
           | (Ok a, s') => (Ok a, s')
           | (Raise, s') => h s'
           end.

Notation "x <- m ;; k" := (bind m (fun x => k)) (at level 61, m at next level, right associativity).

(** ** News data and adapters *)

(** An [<a>]: its [href] (if any) and its [get_text(strip=True)]. *)
Record anchor := mk_anchor { anc_href : option string; anc_text : string }.

(** A news block of a quote page: the link the adapter looks up, the heading
    text ([''] when absent) and the timestamp text ([''] when absent). *)
Record news_item := mk_news_item { it_anchor : option anchor; it_title : string; it_date : string }.

(** An RSS [<item>]: the texts of [<title>], [<link>] and [<pubDate>]
    ([None] when the element is missing). *)
Record feed_item := mk_feed_item { f_title : option string; f_link : option string; f_pub : option string }.

Record news_env := mk_news_env {
  now : Z;
  yahoo_news_page : string -> option (list news_item);
  marketwatch_news_page : string -> option (list news_item);
  google_news_feed : string -> option (list feed_item);
  extractor : string -> option (string * string) }.

(** One row of the news DataFrame. *)
Record article := mk_article {
  a_ticker : string; a_title : string; a_url : string; a_date : option datetime;
  a_summary : string; a_full_text : string; a_source : string }.

(** [_parse_article]: newspaper3k's [(text, summary)], or empty strings on
    any failure; the URL is logged. *)
Definition parse_article (env : news_env) (url : string) : M (string * string) :=
  fun s => (Ok (match extractor env url with Some p => p | None => ("", "") end), s ++ [url]).

(** [for item in items: try: ... except Exception: continue] *)
Fixpoint items_loop {I} (f : I -> M (option article)) (items : list I) : M (list article) :=
  match items with
  | [] => ret []
  | it :: r =>
      o <- try_except (f it) (ret None) ;;
      rest <- items_loop f r ;;
      ret (match o with Some a => a :: rest | None => rest end)
  end.

Definition yahoo_item (env : news_env) (ticker : string) (it : news_item) : M (option article) :=
  match it_anchor it with
  | None => ret None
  | Some a =>
      let article_url :=
        match anc_href a with
        | Some h => if prefix "/" h then Some (append "https://finance.yahoo.com" h) else Some h
        | None => None
        end in
      match article_url with
      | Some u =>
          if negb (is_empty (it_title it)) && negb (is_empty u) then
            p <- parse_article env u ;;
            ret (Some (mk_article ticker (it_title it) u (parse_news_date (now env) (it_date it))
                                  (snd p) (fst p) "Yahoo Finance"))
          else ret None
      | None => ret None
      end
  end.

(** [_get_yahoo_news]: at most the first 5 items. *)
Definition get_yahoo_news (env : news_env) (ticker : string) (days_back : Z) : M (list article) :=
  match yahoo_news_page env ticker with
  | Some items => items_loop (yahoo_item env ticker) (firstn 5 items)
  | None => ret []
  end.

Definition marketwatch_item (env : news_env) (ticker : string) (it : news_item) : M (option article) :=
  match it_anchor it with
  | None => ret None
  | Some a =>
      let article_url :=
        match anc_href a with
        | Some h =>
            if negb (is_empty h) && negb (prefix "http" h)
            then Some (append "https://www.marketwatch.com" h) else Some h
        | None => None
        end in
      let title := anc_text a in
      match article_url with
      | Some u =>
          if negb (is_empty title) && negb (is_empty u) then
            p <- parse_article env u ;;
            ret (Some (mk_article ticker title u (parse_news_date (now env) (it_date it))
                                  (snd p) (fst p) "MarketWatch"))
          else ret None
      | None => ret None
      end
  end.

(** [_get_marketwatch_news]: at most the first 5 items. *)
Definition get_marketwatch_news (env : news_env) (ticker : string) (days_back : Z) : M (list article) :=
  match marketwatch_news_page env ticker with
  | Some items => items_loop (marketwatch_item env ticker) (firstn 5 items)
  | None => ret []
  end.

(** [(datetime.now() - article_date).days]: a floor division; subtracting an
    aware datetime from the naive [now] raises [TypeError]. *)
Definition age_days (now : Z) (d : datetime) : exc Z :=
  match dt_off d with
  | Some _ => Raise
  | None => Ok ((now - dt_wall d) / secs_per_day)
  end.

Definition google_item (env : news_env) (ticker : string) (days_back : Z) (it : feed_item) : M (option article) :=
  match f_title it, f_link it, f_pub it with
  | Some title, Some link, Some pub =>
      let article_date := parse_news_date (now env) pub in
      let keep (k : unit -> M (option article)) : M (option article) :=
        match article_date with
        | Some d =>
            match age_days (now env) d with
            | Ok n => if n >? days_back then ret None else k tt
            | Raise => raise
            end
        | None => k tt
        end in
      keep (fun _ =>
        p <- parse_article env link ;;
        ret (Some (mk_article ticker title link article_date (snd p) (fst p) "Google News")))
  | _, _, _ => raise
  end.

(** [_get_google_news]: at most the first 3 items of the feed. *)
Definition get_google_news (env : news_env) (ticker : string) (days_back : Z) : M (list article) :=
  match google_news_feed env ticker with
  | Some items => items_loop (google_item env ticker days_back) (firstn 3 items)
  | None => ret []
  end.

(** ** News Aggregator *)

(** [_get_ticker_news]: a source that raises is skipped. *)
Fixpoint get_ticker_news (sources : list (string -> Z -> M (list article)))
    (ticker : string) (days_back : Z) : M (list article) :=
  match sources with
  | [] => ret []
  | f :: fs =>
      a <- try_except (f ticker days_back) (ret []) ;;
      rest <- get_ticker_news fs ticker days_back ;;
      ret (a ++ rest)
  end.

(** The ticker loop of [get_news_for_tickers]: a ticker that raises is
    skipped. *)
Fixpoint gather_news (sources : list (string -> Z -> M (list article)))
    (tickers : list string) (days_back : Z) : M (list article) :=
  match tickers with
  | [] => ret []
  | t :: ts =>
      a <- try_except (get_ticker_news sources t days_back) (ret []) ;;
      rest <- gather_news sources ts days_back ;;
      ret (a ++ rest)
  end.

(** [pd.to_datetime] on the [date] column: [None] becomes [NaT]; a column
    mixing tz-aware and naive datetimes raises [ValueError]. *)
Definition mixed_tz (l : list article) : bool :=
  existsb (fun a => match a_date a with Some d => match dt_off d with Some _ => true | None => false end
                                    | None => false end) l
  && existsb (fun a => match a_date a with Some d => match dt_off d with Some _ => false | None => true end
                                       | None => false end) l.

(** The instant a datetime denotes, [NaT] as [None]. *)
Definition instant (d : datetime) : Z :=
  match dt_off d with Some o => dt_wall d - o | None => dt_wall d end.

Definition date_key (a : article) : option Z := option_map instant (a_date a).

(** [sort_values('date', ascending=False)]: newest first, [NaT] last. *)
Definition news_date_ge (x y : article) : bool :=
  match date_key x, date_key y with
  | Some a, Some b => b <=? a
  | _, None => true
  | None, Some _ => false
  end.

(** The part of [get_news_for_tickers] after the loop. Dates outside
    1677-2262, on which pandas 2.x raises [OutOfBoundsDatetime], are not
    modelled. *)
Definition news_finalize (all_articles : list article) : M (list article) :=
  match all_articles with
  | [] => ret []
  | _ =>
      let df := drop_duplicates String.eqb a_url all_articles in
      if mixed_tz df then raise else ret (sort_values news_date_ge df)
  end.

Definition collect_news (sources : list (string -> Z -> M (list article)))
    (tickers : list string) (days_back : Z) : M (list article) :=
  all_articles <- gather_news sources tickers days_back ;;
  news_finalize all_articles.

(** The registered sources of [_get_ticker_news], in order. *)
Definition news_sources (env : news_env) : list (string -> Z -> M (list article)) :=
  [get_yahoo_news env; get_marketwatch_news env; get_google_news env].

Definition get_news_for_tickers (env : news_env) (tickers : list string) (days_back : Z) : M (list article) :=
  collect_news (news_sources env) tickers days_back.

(** The same network with another article extractor. *)
Definition with_extractor (env : news_env) (e : string -> option (string * string)) : news_env :=
  mk_news_env (now env) (yahoo_news_page env) (marketwatch_news_page env) (google_news_feed env) e.

(** What an adapter decides about an article, the extracted content aside. *)
Definition article_meta (a : article) : string * string * string * option datetime * string :=
  (a_ticker a, a_title a, a_url a, a_date a, a_source a).

(** ** Concrete inputs *)

(** 2024-02-05, a Monday, as a day number, and its noon in seconds. *)
Definition feb5 : Z := days_from_civil 2024 2 5.
Definition feb5_noon : Z := feb5 * secs_per_day + 12 * 3600.

(** A Finviz calendar whose first date header is in the past. *)
Definition finviz_past_env : earn_env :=
  mk_earn_env feb5
    (Some [[mk_cell "Thursday, February 1st" None true];
           [mk_cell "AMC" None false; mk_cell "META" (Some (mk_link "META" "")) false;
            mk_cell "Meta Platforms" None false]])
    None None None.

(** A Finviz calendar listing a ticker in lower case. *)
Definition finviz_lower_env : earn_env :=
  mk_earn_env feb5
    (Some [[mk_cell "Monday, February 5th" None true];
           [mk_cell "BMO" None false; mk_cell "aapl" (Some (mk_link "aapl" "")) false;
            mk_cell "Apple Inc." None false]])
    None None None.

(** A Google News feed whose one item is 7 days and 1 hour old. *)
Definition google_old_env : news_env :=
  mk_news_env feb5_noon (fun _ => None) (fun _ => None)
    (fun _ => Some [mk_feed_item (Some "Apple earnings preview") (Some "https://news.example.com/aapl")
                                 (Some "Mon, 29 Jan 2024 11:00:00 GMT")])
    (fun _ => None).

(** A Yahoo Finance quote page with one timestamp carrying a numeric UTC
    offset and one relative timestamp. *)
Definition mixed_tz_env : news_env :=
  mk_news_env feb5_noon
    (fun t => if String.eqb t "AAPL" then
                Some [mk_news_item (Some (mk_anchor (Some "/news/apple-beats.html") "")) "Apple beats"
                                   "Mon, 05 Feb 2024 10:00:00 +0000";
                      mk_news_item (Some (mk_anchor (Some "/news/apple-guides.html") "")) "Apple guides"
                                   "2 hours ago"]
              else None)
    (fun _ => None) (fun _ => None) (fun _ => None).

(** Two tickers whose Yahoo Finance pages list the same article under
    different timestamps; the article cannot be downloaded. *)
Definition shared_url_env : news_env :=
  mk_news_env feb5_noon
    (fun t => if String.eqb t "AAPL" then
                Some [mk_news_item (Some (mk_anchor (Some "/news/big-tech.html") "")) "Big Tech earnings"
                                   "2 hours ago"]
              else if String.eqb t "MSFT" then
                Some [mk_news_item (Some (mk_anchor (Some "/news/big-tech.html") "")) "Big Tech earnings week"
                                   "3 hours ago"]
              else None)
    (fun _ => None) (fun _ => None) (fun _ => None).

(** ** The dashboard, [src/app.py]

    [st.cache_data] is not modelled: each function below is one uncached
    call. *)

(** [load_earnings_data()]: [get_earnings_calendar()] with its default
    [days_ahead=30]; the model of the calendar raises nothing, so the
    [except] branch is not reached. *)
Definition load_earnings_data (env : earn_env) : list earning := get_earnings_calendar env 30.

(** [load_news_data(tickers)]: [get_news_for_tickers(tickers)] with its
    default [days_back=7]; an exception gives an empty DataFrame. *)
Definition load_news_data (env : news_env) (tickers : list string) : M (list article) :=
  try_except (get_news_for_tickers env tickers 7) (ret []).

(** The News tab of [main]: no request without a selected ticker ([None]),
    else [load_news_data(selected_tickers[:5])]. *)
Definition news_tab (env : news_env) (selected_tickers : list string) : M (option (list article)) :=
  match selected_tickers with
  | [] => ret None
  | _ => news_df <- load_news_data env (firstn 5 selected_tickers) ;; ret (Some news_df)
  end.

(** The search box of the "Single Ticker" and "Multiple Tickers" modes:
    the tickers containing the search text, ignoring case, or all of them
    when none does. *)
Definition search_tickers (search : string) (available_tickers : list string) : list string :=
  if is_empty search then available_tickers
  else match filter (fun t => contains (upper search) (upper t)) available_tickers with
       | [] => available_tickers
       | filtered => filtered
       end.

(** The default of the "Multiple Tickers" multiselect. *)
Definition multi_default (filtered : list string) : list string :=
  if (5 <=? length filtered)%nat then firstn 5 filtered else firstn 3 filtered.

Definition popular_tickers : list string :=
  ["AAPL"; "MSFT"; "GOOGL"; "AMZN"; "TSLA"; "META"; "NVDA"; "NFLX"; "DIS"; "PYPL"].

(** The selection of the "Popular Tickers" mode before the user edits it:
    the popular tickers that are available (the multiselect's default), or
    the first ten available tickers when none is. *)
Definition popular_selection (available_tickers : list string) : list string :=
  match filter (fun t => existsb (String.eqb t) available_tickers) popular_tickers with
  | [] => firstn 10 available_tickers
  | available_popular => available_popular
  end.

(** The earnings filter of [main]: the date range when both of its ends
    are set, then the selected tickers when any is selected. The
    company-name search that follows ([str.contains], a regular
    expression) is not modelled. *)
Definition filter_earnings (date_range : list Z) (selected_tickers : list string) (df : list earning) :
    list earning :=
  let df1 := match date_range with
             | [d0; d1] => filter (fun e => (d0 <=? e_date e) && (e_date e <=? d1)) df
             | _ => df
             end in
  match selected_tickers with
  | [] => df1
  | _ => filter (fun e => existsb (String.eqb (e_ticker e)) selected_tickers) df1
  end.

(** ** Texts of the shapes the pages show *)

(** The ASCII digit of [k] (0 to 9). *)
Definition digit_char (k : Z) : ascii := ascii_of_nat (Z.to_nat (48 + k)).

(** The decimal digits of [n >= 0]. *)
Fixpoint dec_aux (fuel : nat) (n : Z) (acc : list ascii) : list ascii :=
  match fuel with
  | O => acc
  | S f => let acc' := digit_char (n mod 10) :: acc in
           if n <? 10 then acc' else dec_aux f (n / 10) acc'
  end.

Definition dec (n : Z) : string := string_of_list_ascii (dec_aux 10 n []).

(** [n] on two digits ([%02d]) and on four ([%04d]). *)
Definition pad2 (n : Z) : list ascii := [digit_char (n / 10); digit_char (n mod 10)].
Definition pad4 (n : Z) : list ascii :=
  [digit_char (n / 1000); digit_char (n / 100 mod 10); digit_char (n / 10 mod 10); digit_char (n mod 10)].

(** [YYYY-MM-DD] and [YYYY-MM-DD HH:MM:SS]. *)
Definition iso_date (y m d : Z) : string :=
  string_of_list_ascii (pad4 y ++ "-"%char :: pad2 m ++ "-"%char :: pad2 d).
Definition iso_datetime (y m d hh mm ss : Z) : string :=
  string_of_list_ascii (pad4 y ++ "-"%char :: pad2 m ++ "-"%char :: pad2 d ++ " "%char ::
                        pad2 hh ++ ":"%char :: pad2 mm ++ ":"%char :: pad2 ss).

(** The English ordinal suffix of a day of the month. *)
Definition ord_suffix (d : Z) : string :=
  if (d mod 100 =? 11) || (d mod 100 =? 12) || (d mod 100 =? 13) then "th"
  else if d mod 10 =? 1 then "st" else if d mod 10 =? 2 then "nd"
  else if d mod 10 =? 3 then "rd" else "th".

Definition weekday_names : list string :=
  ["Monday"; "Tuesday"; "Wednesday"; "Thursday"; "Friday"; "Saturday"; "Sunday"].
Definition month_names : list string :=
  ["January"; "February"; "March"; "April"; "May"; "June"; "July"; "August";
   "September"; "October"; "November"; "December"].

(** A Finviz date header such as "Monday, February 5th". *)
Definition finviz_header (w : string) (m d : Z) : string :=
  append w (append ", " (append (nth (Z.to_nat (m - 1)) month_names "")
    (append " " (append (dec d) (ord_suffix d))))).

(** A relative timestamp such as "2 hours ago", with the seconds per unit. *)
Definition rel_units : list (string * Z) :=
  [("hour", 3600); ("hours", 3600); ("day", secs_per_day); ("days", secs_per_day);
   ("minute", 60); ("minutes", 60)].
Definition rel_text (n : Z) (unit : string) : string := append (dec n) (append " " (append unit " ago")).

(** [a], [a + 1], ..., [a + n - 1]. *)
Definition zseq (a : Z) (n : nat) : list Z := map (fun i => a + Z.of_nat i) (seq 0 n).

Definition tm_eqb (t u : tm) : bool :=
  (tm_year t =? tm_year u) && (tm_mon t =? tm_mon u) && (tm_day t =? tm_day u) &&
  (tm_hour t =? tm_hour u) && (tm_min t =? tm_min u) && (tm_sec t =? tm_sec u) &&
  match tm_off t, tm_off u with None, None => true | _, _ => false end.

(** What [_parse_finviz_date] sees of a header, under its first format. *)
Definition finviz_header_parses (w : string) (m d : Z) : bool :=
  match strptime (strip_ordinals (strip (finviz_header w m d))) "%A, %B %d" with
  | Some t => tm_eqb t (mk_tm 1900 m d 0 0 0 None)
  | None => false
  end.

(** What [_parse_news_date] sees of a relative timestamp. *)
Definition rel_text_parses (n : Z) (u : string * Z) : bool :=
  let s := strip (rel_text n (fst u)) in
  negb (is_empty (rel_text n (fst u))) &&
  match try_formats s news_formats with Some _ => false | None => true end &&
  (if contains "hour" (lower s) then snd u =? 3600
   else if contains "day" (lower s) then snd u =? secs_per_day
   else if contains "minute" (lower s) then snd u =? 60
   else false) &&
  match search_digits s with Some k => k =? n | None => false end.

(** The directives whose pattern needs a digit. *)
Definition numeric (d : directive) : bool :=
  match d with DY | Dy | Dm | Dd | DH | DM | DS => true | _ => false end.

Definition no_digit (s : string) : bool := forallb (fun c => negb (is_digit c)) (list_ascii_of_string s).

(** An item step that raises or skips leaves the log as it was, and one
    that returns an article has logged exactly its url. *)
Definition item_logs {I} (f : I -> M (option article)) : Prop :=
  forall it s, f it s = (Raise, s) \/ f it s = (Ok None, s) \/
               exists a, f it s = (Ok (Some a), s ++ [a_url a]).

(** [m] returns, and has logged exactly the urls of what it returns. *)
Definition logs_exact (m : M (list article)) : Prop :=
  forall s, exists l, m s = (Ok l, s ++ map a_url l).


(** ** Shapes the proofs below speak of *)

(** A Finviz date header row: one cell with a [colspan]. *)
Definition is_header (cells : row) : bool :=
  match cells with [c] => cell_colspan c | _ => false end.

Definition no_header (rows : list row) : bool := forallb (fun r => negb (is_header r)) rows.

(** What the three news adapters guarantee of an article they return. *)
Definition article_shape (a : article) : Prop :=
  (a_source a = "Yahoo Finance" /\ is_empty (a_title a) = false /\ is_empty (a_url a) = false /\
   prefix "/" (a_url a) = false) \/
  (a_source a = "MarketWatch" /\ is_empty (a_title a) = false /\ prefix "http" (a_url a) = true) \/
  a_source a = "Google News".

(** The [<a>] of the [i]-th cell of a row, and that cell's text. *)
Definition link_at (cells : row) (i : nat) : option link :=
  match nth_error cells i with Some c => cell_link c | None => None end.

Definition text_at (cells : row) (i : nat) : option string := option_map cell_text (nth_error cells i).

(** Where the adapter of an earnings row read its ticker, as the page has
    it: the Finviz and Yahoo Finance ticker links, the Investing.com link
    title or symbol cell, the MarketWatch ticker link or cell. *)
Definition ticker_from_page (env : earn_env) (r : earning) : Prop :=
  exists cells,
    (e_source r = "Finviz" /\ (exists rows, finviz_page env = Some rows /\ In cells rows) /\
       option_map link_text (link_at cells 1) = Some (e_ticker r)) \/
    (e_source r = "Investing.com" /\ (exists rows, investing_page env = Some rows /\ In cells (tl rows)) /\
       (option_map (fun a => ticker_of_title (link_title a)) (link_at cells 1) = Some (e_ticker r) \/
        text_at cells 0 = Some (e_ticker r))) \/
    (e_source r = "Yahoo Finance" /\
       (exists tables rows, yahoo_page env = Some tables /\ In rows tables /\ In cells (tl rows)) /\
       option_map link_text (link_at cells 0) = Some (e_ticker r)) \/
    (e_source r = "MarketWatch" /\
       (exists tables rows, marketwatch_page env = Some tables /\ In rows tables /\ In cells (tl rows)) /\
       (option_map link_text (link_at cells 0) = Some (e_ticker r) \/ text_at cells 0 = Some (e_ticker r))).

(** ** Ticker helpers, [src/utils.py] *)

(** [str.endswith] *)
Definition ends_with (suffix s : string) : bool :=
  let l := list_ascii_of_string s in
  (String.length suffix <=? length l)%nat &&
  String.eqb (string_of_list_ascii (skipn (length l - String.length suffix) l)) suffix.

(** [s[:-k]] *)
Definition drop_end (k : nat) (s : string) : string :=
  let l := list_ascii_of_string s in string_of_list_ascii (firstn (length l - k) l).

Definition exchange_suffixes : list string := ["-USD"; "-US"; ".US"; ".TO"; ".L"].

(** [str.upper] on one character. *)
Definition upper_char (c : ascii) : ascii :=
  let n := nat_of_ascii c in if ((97 <=? n) && (n <=? 122))%nat then ascii_of_nat (n - 32) else c.

(** [clean_ticker] of [src/utils.py], on ASCII text. *)
Definition clean_ticker (ticker : string) : string :=
  if is_empty ticker then ""
  else
    let t := strip (upper ticker) in
    let t := fold_left (fun t suffix => if ends_with suffix t then drop_end (String.length suffix) t else t)
                       exchange_suffixes t in
    string_of_list_ascii (filter (fun c => negb (Ascii.eqb c "."%char)) (list_ascii_of_string t)).

(** [str.isalpha] on one ASCII character. *)
Definition is_alpha (c : ascii) : bool :=
  let n := nat_of_ascii c in ((65 <=? n) && (n <=? 90))%nat || ((97 <=? n) && (n <=? 122))%nat.

(** [validate_ticker] of [src/utils.py]; [isalpha] is false on [""]. *)
Definition validate_ticker (ticker : string) : bool :=
  if is_empty ticker then false
  else
    let t := clean_ticker ticker in
    if (String.length t <? 1)%nat || (5 <? String.length t)%nat then false
    else negb (is_empty t) && forallb is_alpha (list_ascii_of_string t).

Definition is_lower (c : ascii) : bool := let n := nat_of_ascii c in ((97 <=? n) && (n <=? 122))%nat.

Definition is_upper_letter (c : ascii) : Prop := (65 <= nat_of_ascii c <= 90)%nat.

(** * Proofs *)

(** ** pandas operations *)

Section SortFacts.
Context {A : Type} (le : A -> A -> bool).
Hypothesis le_total : forall x y, le x y = false -> le y x = true.

Let R := fun x y => le x y = true.

Lemma insert_perm (x : A) (l : list A) : Permutation (insert le x l) (x :: l).
Proof.
  induction l as [|y r IH]; simpl; [constructor; constructor|].
  destruct (le x y); [reflexivity|].
  transitivity (y :: x :: r); [constructor; exact IH | constructor].
Qed.

Lemma sort_values_perm (l : list A) : Permutation (sort_values le l) l.
Proof.
  induction l as [|x r IH]; simpl; [constructor|].
  rewrite insert_perm. constructor. exact IH.
Qed.

Lemma insert_hdrel (x y : A) (l : list A) :
  HdRel R y l -> R y x -> HdRel R y (insert le x l).
Proof.
  intros H Hyx. destruct l as [|z r]; simpl.
  - constructor. exact Hyx.
  - destruct (le x z); constructor; [exact Hyx | exact (HdRel_inv H)].
Qed.

Lemma insert_sorted (x : A) (l : list A) : Sorted R l -> Sorted R (insert le x l).
Proof.
  induction l as [|y r IH]; intros Hs; simpl.
  - repeat constructor.
  - apply Sorted_inv in Hs as [Hr Hh].
    destruct (le x y) eqn:Exy.
    + constructor; [constructor; assumption | constructor; exact Exy].
    + constructor; [exact (IH Hr) | apply insert_hdrel; [exact Hh | exact (le_total _ _ Exy)]].
Qed.

Lemma sort_values_sorted (l : list A) : Sorted R (sort_values le l).
Proof.
  induction l as [|x r IH]; simpl; [constructor | apply insert_sorted; exact IH].
Qed.
End SortFacts.

Lemma Sorted_weaken {A} (R R' : A -> A -> Prop) (l : list A) :
  (forall x y, R x y -> R' x y) -> Sorted R l -> Sorted R' l.
Proof.
  intros Himp Hs. induction Hs as [|x l Hs IH Hh]; constructor; [exact IH|].
  destruct Hh; constructor. apply Himp. assumption.
Qed.

Lemma Permutation_filter_bool {A} (p : A -> bool) (l l' : list A) :
  Permutation l l' -> Permutation (filter p l) (filter p l').
Proof.
  induction 1 as [| x l l' _ IH | x y l | l l' l'' _ IH1 _ IH2]; simpl.
  - constructor.
  - destruct (p x); [constructor|]; exact IH.
  - destruct (p x), (p y); try constructor; reflexivity.
  - etransitivity; eassumption.
Qed.

Section DedupFacts.
Context {A K : Type} (keq : K -> K -> bool) (key : A -> K).
Hypothesis keq_spec : forall a b, keq a b = true <-> a = b.

Lemma keq_refl (k : K) : keq k k = true.
Proof. apply keq_spec. reflexivity. Qed.

Lemma keq_sym (a b : K) : keq a b = keq b a.
Proof.
  destruct (keq a b) eqn:E1, (keq b a) eqn:E2; auto.
  - apply keq_spec in E1. subst. rewrite keq_refl in E2. discriminate.
  - apply keq_spec in E2. subst. rewrite keq_refl in E1. discriminate.
Qed.

Lemma drop_dups_in (seen : list K) (l : list A) (y : A) :
  In y (drop_dups_from keq key seen l) -> In y l /\ existsb (keq (key y)) seen = false.
Proof.
  revert seen. induction l as [|x r IH]; intros seen Hin; simpl in Hin; [contradiction|].
  destruct (existsb (keq (key x)) seen) eqn:Ex.
  - apply IH in Hin as [H1 H2]. split; [right; exact H1 | exact H2].
  - destruct Hin as [<- | Hin]; [split; [left; reflexivity | exact Ex]|].
    apply IH in Hin as [H1 H2]. simpl in H2. apply orb_false_iff in H2 as [_ H2].
    split; [right; exact H1 | exact H2].
Qed.

Lemma drop_dups_first (seen : list K) (l : list A) (r : A) :
  In r l -> existsb (keq (key r)) seen = false ->
  exists r0, find (fun x => keq (key x) (key r)) l = Some r0 /\
             filter (fun x => keq (key x) (key r)) (drop_dups_from keq key seen l) = [r0].
Proof.
  revert seen. induction l as [|x l IH]; intros seen Hin Hseen; [contradiction|]. simpl.
  destruct (existsb (keq (key x)) seen) eqn:Ex.
  - assert (Hk : keq (key x) (key r) = false).
    { destruct (keq (key x) (key r)) eqn:E; [|reflexivity].
      apply keq_spec in E. rewrite E in Ex. congruence. }
    rewrite Hk.
    destruct Hin as [<- | Hin]; [rewrite keq_refl in Hk; discriminate|].
    exact (IH seen Hin Hseen).
  - simpl. destruct (keq (key x) (key r)) eqn:Hk.
    + exists x. split; [reflexivity|]. f_equal.
      apply keq_spec in Hk.
      destruct (filter (fun y => keq (key y) (key r)) (drop_dups_from keq key (key x :: seen) l))
        as [|y ys] eqn:F; [reflexivity|].
      assert (Hy : In y (filter (fun y => keq (key y) (key r)) (drop_dups_from keq key (key x :: seen) l)))
        by (rewrite F; left; reflexivity).
      apply filter_In in Hy as [Hy Hyk]. apply drop_dups_in in Hy as [_ Hy].
      simpl in Hy. rewrite Hk, Hyk in Hy. discriminate.
    + destruct Hin as [<- | Hin]; [rewrite keq_refl in Hk; discriminate|].
      apply IH; [exact Hin|]. simpl. rewrite keq_sym, Hk. exact Hseen.
Qed.

(** Every row of a sorted permutation of the deduplicated rows comes from
    the input, and each key of the input occurs in it once, as the first
    row of the input with that key. *)
Lemma dedup_perm_first (l df : list A) :
  Permutation df (drop_duplicates keq key l) ->
  (forall r, In r df -> In r l) /\
  (forall r, In r l ->
     exists r0, find (fun x => keq (key x) (key r)) l = Some r0 /\
                filter (fun x => keq (key x) (key r)) df = [r0]).
Proof.
  intros Hp. split.
  - intros r Hr. apply (Permutation_in _ Hp) in Hr. apply drop_dups_in in Hr as [Hr _]. exact Hr.
  - intros r Hr. destruct (drop_dups_first [] l r Hr eq_refl) as [r0 [Hf Hfl]].
    exists r0. split; [exact Hf|].
    apply (Permutation_filter_bool (fun x => keq (key x) (key r))) in Hp.
    unfold drop_duplicates in Hp. rewrite Hfl in Hp. apply Permutation_length_1_inv. symmetry. exact Hp.
Qed.
End DedupFacts.

(** ** Earnings Aggregator *)

Lemma earn_key_eqb_spec (a b : string * Z) : earn_key_eqb a b = true <-> a = b.
Proof.
  destruct a as [t1 d1], b as [t2 d2]. unfold earn_key_eqb. simpl.
  rewrite andb_true_iff, String.eqb_eq, Z.eqb_eq. split.
  - intros [-> ->]. reflexivity.
  - intros H. inversion H. split; reflexivity.
Qed.

Lemma earn_date_le_total (x y : earning) : earn_date_le x y = false -> earn_date_le y x = true.
Proof. unfold earn_date_le. rewrite Z.leb_gt, Z.leb_le. lia. Qed.

Lemma collect_earnings_spec (sources : list (Z -> exc (list earning))) (days_ahead : Z) :
  let all_earnings := gather_earnings sources days_ahead in
  let df := collect_earnings sources days_ahead in
  Sorted (fun x y => e_date x <= e_date y) df /\
  (forall r, In r df -> In r all_earnings) /\
  (forall r, In r all_earnings ->
     exists r0, find (fun x => earn_key_eqb (earn_key x) (earn_key r)) all_earnings = Some r0 /\
                filter (fun x => earn_key_eqb (earn_key x) (earn_key r)) df = [r0]).
Proof.
  simpl. unfold collect_earnings.
  destruct (gather_earnings sources days_ahead) as [|e es] eqn:G.
  - repeat split; [constructor | intros r [] | intros r []].
  - split.
    + eapply Sorted_weaken; [| apply sort_values_sorted, earn_date_le_total].
      intros x y H. unfold earn_date_le in H. apply Z.leb_le. exact H.
    + apply dedup_perm_first; [exact earn_key_eqb_spec|].
      apply sort_values_perm.
Qed.

(** C1. [get_earnings_calendar] concatenates the sources in registration order
    (Finviz, Investing.com, Yahoo Finance, MarketWatch), keeps for every
    [(ticker, date)] exactly one row, the first one met in that order, adds
    no row of its own, and returns the rows sorted by ascending date. *)
Theorem get_earnings_calendar_dedup_sorted (env : earn_env) (days_ahead : Z) :
  let all_earnings :=
    scrape_finviz_earnings env days_ahead ++ scrape_investing_earnings env days_ahead
    ++ scrape_yahoo_finance_api env days_ahead ++ scrape_marketwatch_earnings env days_ahead in
  let df := get_earnings_calendar env days_ahead in
  Sorted (fun x y => e_date x <= e_date y) df /\
  (forall r, In r df -> In r all_earnings) /\
  (forall r, In r all_earnings ->
     exists r0, find (fun x => earn_key_eqb (earn_key x) (earn_key r)) all_earnings = Some r0 /\
                filter (fun x => earn_key_eqb (earn_key x) (earn_key r)) df = [r0]).
Proof.
  pose proof (collect_earnings_spec (earnings_sources env) days_ahead) as H.
  simpl in H |- *. unfold get_earnings_calendar.
  rewrite !app_nil_r in H. exact H.
Qed.

(** ** Reasoning about [M]: postconditions and counted extractions *)

(** [P] holds of every value [m] returns normally. *)
Definition post {A} (m : M A) (P : A -> Prop) : Prop :=
  forall s a s', m s = (Ok a, s') -> P a.

(** [m] hands at most [k] URLs to the extractor, whatever happens. *)
Definition calls_le {A} (m : M A) (k : nat) : Prop :=
  forall s, exists c, snd (m s) = s ++ c /\ (length c <= k)%nat.

Lemma post_ret {A} (a : A) (P : A -> Prop) : P a -> post (ret a) P.
Proof. intros HP s b s' H. inversion H; subst. exact HP. Qed.

Lemma post_raise {A} (P : A -> Prop) : post raise P.
Proof. intros s b s' H. discriminate. Qed.

Lemma post_bind {A B} (m : M A) (f : A -> M B) (P : A -> Prop) (Q : B -> Prop) :
  post m P -> (forall a, P a -> post (f a) Q) -> post (bind m f) Q.
Proof.
  intros Hm Hf s b s' H. unfold bind in H.
  destruct (m s) as [[a|] s1] eqn:E; [|discriminate].
  exact (Hf a (Hm _ _ _ E) _ _ _ H).
Qed.

Lemma post_try {A} (m h : M A) (P : A -> Prop) : post m P -> post h P -> post (try_except m h) P.
Proof.
  intros Hm Hh s b s' H. unfold try_except in H.
  destruct (m s) as [[a|] s1] eqn:E.
  - inversion H; subst. exact (Hm _ _ _ E).
  - exact (Hh _ _ _ H).
Qed.

Lemma calls_ret {A} (a : A) : calls_le (ret a) 0.
Proof. intros s. exists []. rewrite app_nil_r. split; reflexivity. Qed.

Lemma calls_raise {A} : calls_le (@raise A) 0.
Proof. intros s. exists []. rewrite app_nil_r. split; reflexivity. Qed.

Lemma calls_weaken {A} (m : M A) (k k' : nat) : calls_le m k -> (k <= k')%nat -> calls_le m k'.
Proof. intros H Hk s. destruct (H s) as [c [Hc Hl]]. exists c. split; [exact Hc | lia]. Qed.

Lemma calls_bind {A B} (m : M A) (f : A -> M B) (k1 k2 : nat) :
  calls_le m k1 -> (forall a, calls_le (f a) k2) -> calls_le (bind m f) (k1 + k2).
Proof.
  intros Hm Hf s. destruct (Hm s) as [c1 [H1 L1]]. unfold bind.
  destruct (m s) as [[a|] s1]; simpl in H1; subst s1.
  - destruct (Hf a (s ++ c1)) as [c2 [H2 L2]]. exists (c1 ++ c2).
    rewrite H2, app_assoc, length_app. split; [reflexivity | lia].
  - exists c1. split; [reflexivity | lia].
Qed.

Lemma calls_try {A} (m h : M A) (k1 k2 : nat) :
  calls_le m k1 -> calls_le h k2 -> calls_le (try_except m h) (k1 + k2).
Proof.
  intros Hm Hh s. destruct (Hm s) as [c1 [H1 L1]]. unfold try_except.
  destruct (m s) as [[a|] s1]; simpl in H1; subst s1.
  - exists c1. split; [reflexivity | lia].
  - destruct (Hh (s ++ c1)) as [c2 [H2 L2]]. exists (c1 ++ c2).
    rewrite H2, app_assoc, length_app. split; [reflexivity | lia].
Qed.

Lemma calls_parse_article (env : news_env) (u : string) : calls_le (parse_article env u) 1.
Proof. intros s. exists [u]. split; reflexivity. Qed.

Lemma post_parse_article (env : news_env) (u : string) :
  post (parse_article env u) (fun _ => True).
Proof. intros s a s' _. exact I. Qed.

(** Steps that close goals about [post] and [calls_le] on the adapters. *)
Ltac m_step :=
  match goal with
  | |- post (ret _) _ => apply post_ret
  | |- post raise _ => apply post_raise
  | |- post (bind (parse_article _ _) _) _ => eapply post_bind; [apply post_parse_article | intros ? _]
  | |- post (bind _ _) _ => eapply post_bind
  | |- post (try_except _ _) _ => apply post_try
  | |- calls_le (ret _) _ => eapply calls_weaken; [apply calls_ret | lia]
  | |- calls_le raise _ => eapply calls_weaken; [apply calls_raise | lia]
  | |- calls_le (bind (parse_article _ _) _) _ =>
      eapply calls_weaken; [eapply calls_bind; [apply calls_parse_article | intros ?; apply calls_ret] | lia]
  end.

(** An item step logs at most one URL. *)
Definition item_calls {I} (f : I -> M (option article)) : Prop := forall it, calls_le (f it) 1.

(** Every article an item step returns satisfies [P]. *)
Definition item_post {I} (f : I -> M (option article)) (P : article -> Prop) : Prop :=
  forall it, post (f it) (fun o => forall a, o = Some a -> P a).

Lemma items_loop_calls {I} (f : I -> M (option article)) (items : list I) :
  item_calls f -> calls_le (items_loop f items) (length items).
Proof.
  intros Hf. induction items as [|it r IH]; simpl; [apply calls_ret|].
  eapply calls_weaken; [|instantiate (1 := ((1 + 0) + (length r + 0))%nat); lia].
  apply calls_bind; [apply calls_try; [apply Hf | apply calls_ret]|].
  intros o. apply calls_bind; [exact IH | intros; apply calls_ret].
Qed.

Lemma items_loop_len {I} (f : I -> M (option article)) (items : list I) :
  post (items_loop f items) (fun l => (length l <= length items)%nat).
Proof.
  induction items as [|it r IH]; simpl; [apply post_ret; simpl; lia|].
  apply post_bind with (P := fun _ => True); [intros ? ? ? ?; trivial|].
  intros o _. apply post_bind with (1 := IH). intros rest Hr.
  apply post_ret. destruct o; simpl; lia.
Qed.

Lemma items_loop_post {I} (f : I -> M (option article)) (items : list I) (P : article -> Prop) :
  item_post f P -> post (items_loop f items) (Forall P).
Proof.
  intros Hf. induction items as [|it r IH]; simpl; [apply post_ret; constructor|].
  apply post_bind with (P := fun o => forall a, o = Some a -> P a).
  - apply post_try; [apply Hf | apply post_ret; discriminate].
  - intros o Ho. apply post_bind with (1 := IH). intros rest Hr.
    apply post_ret. destruct o as [a|]; [constructor; [apply Ho|]|]; auto.
Qed.

(** ** The news adapters *)

Ltac split_all :=
  repeat match goal with
         | |- context [if ?b then _ else _] => destruct b
         | |- context [match ?x with _ => _ end] => destruct x
         end.

Lemma yahoo_item_calls (env : news_env) (ticker : string) : item_calls (yahoo_item env ticker).
Proof. intros it. unfold yahoo_item. split_all; m_step. Qed.

Lemma marketwatch_item_calls (env : news_env) (ticker : string) : item_calls (marketwatch_item env ticker).
Proof. intros it. unfold marketwatch_item. split_all; m_step. Qed.

Lemma google_item_calls (env : news_env) (ticker : string) (days_back : Z) :
  item_calls (google_item env ticker days_back).
Proof. intros it. unfold google_item. cbv zeta. split_all; m_step. Qed.

Lemma firstn_len_le {A} (n : nat) (l : list A) : (length (firstn n l) <= n)%nat.
Proof. rewrite length_firstn. lia. Qed.

Lemma get_yahoo_news_calls env ticker days_back : calls_le (get_yahoo_news env ticker days_back) 5.
Proof.
  unfold get_yahoo_news. destruct (yahoo_news_page env ticker) as [items|]; [|m_step].
  eapply calls_weaken; [apply items_loop_calls, yahoo_item_calls | apply firstn_len_le].
Qed.

Lemma get_marketwatch_news_calls env ticker days_back :
  calls_le (get_marketwatch_news env ticker days_back) 5.
Proof.
  unfold get_marketwatch_news. destruct (marketwatch_news_page env ticker) as [items|]; [|m_step].
  eapply calls_weaken; [apply items_loop_calls, marketwatch_item_calls | apply firstn_len_le].
Qed.

Lemma get_google_news_calls env ticker days_back : calls_le (get_google_news env ticker days_back) 3.
Proof.
  unfold get_google_news. destruct (google_news_feed env ticker) as [items|]; [|m_step].
  eapply calls_weaken; [apply items_loop_calls, google_item_calls | apply firstn_len_le].
Qed.

Lemma get_yahoo_news_len env ticker days_back :
  post (get_yahoo_news env ticker days_back) (fun l => (length l <= 5)%nat).
Proof.
  unfold get_yahoo_news. destruct (yahoo_news_page env ticker) as [items|].
  - intros s l s' H. apply items_loop_len in H. pose proof (firstn_len_le 5 items). lia.
  - apply post_ret. simpl. lia.
Qed.

Lemma get_marketwatch_news_len env ticker days_back :
  post (get_marketwatch_news env ticker days_back) (fun l => (length l <= 5)%nat).
Proof.
  unfold get_marketwatch_news. destruct (marketwatch_news_page env ticker) as [items|].
  - intros s l s' H. apply items_loop_len in H. pose proof (firstn_len_le 5 items). lia.
  - apply post_ret. simpl. lia.
Qed.

Lemma get_google_news_len env ticker days_back :
  post (get_google_news env ticker days_back) (fun l => (length l <= 3)%nat).
Proof.
  unfold get_google_news. destruct (google_news_feed env ticker) as [items|].
  - intros s l s' H. apply items_loop_len in H. pose proof (firstn_len_le 3 items). lia.
  - apply post_ret. simpl. lia.
Qed.

(** ** The news aggregator *)

Lemma get_ticker_news_calls (sources : list (string -> Z -> M (list article))) (k : nat)
    (ticker : string) (days_back : Z) :
  (forall f, In f sources -> forall t d, calls_le (f t d) k) ->
  calls_le (get_ticker_news sources ticker days_back) (length sources * k).
Proof.
  intros Hs. induction sources as [|f fs IH]; simpl; [apply calls_ret|].
  eapply calls_weaken; [|instantiate (1 := ((k + 0) + (length fs * k + 0))%nat); lia].
  apply calls_bind; [apply calls_try; [apply Hs; left; reflexivity | apply calls_ret]|].
  intros a. apply calls_bind; [apply IH; intros g Hg; apply Hs; right; exact Hg | intros; apply calls_ret].
Qed.

Lemma gather_news_calls (sources : list (string -> Z -> M (list article))) (k : nat)
    (tickers : list string) (days_back : Z) :
  (forall f, In f sources -> forall t d, calls_le (f t d) k) ->
  calls_le (gather_news sources tickers days_back) (length tickers * (length sources * k)).
Proof.
  intros Hs. induction tickers as [|t ts IH]; simpl; [apply calls_ret|].
  eapply calls_weaken; [|instantiate (1 := ((length sources * k + 0) + (length ts * (length sources * k) + 0))%nat); lia].
  apply calls_bind; [apply calls_try; [apply get_ticker_news_calls; exact Hs | apply calls_ret]|].
  intros a. apply calls_bind; [exact IH | intros; apply calls_ret].
Qed.

Lemma news_finalize_calls (l : list article) : calls_le (news_finalize l) 0.
Proof. unfold news_finalize. split_all; m_step. Qed.

Lemma news_sources_calls (env : news_env) :
  forall f, In f (news_sources env) -> forall t d, calls_le (f t d) 5.
Proof.
  intros f Hf t d. simpl in Hf.
  destruct Hf as [<- | [<- | [<- | []]]].
  - apply get_yahoo_news_calls.
  - apply get_marketwatch_news_calls.
  - eapply calls_weaken; [apply get_google_news_calls | lia].
Qed.

Lemma get_ticker_news_post (sources : list (string -> Z -> M (list article))) (P : article -> Prop)
    (ticker : string) (days_back : Z) :
  (forall f, In f sources -> forall t d, post (f t d) (Forall P)) ->
  post (get_ticker_news sources ticker days_back) (Forall P).
Proof.
  intros Hs. induction sources as [|f fs IH]; simpl; [apply post_ret; constructor|].
  apply post_bind with (P := Forall P).
  - apply post_try; [apply Hs; left; reflexivity | apply post_ret; constructor].
  - intros a Ha. apply post_bind with (P := Forall P).
    + apply IH. intros g Hg. apply Hs. right. exact Hg.
    + intros rest Hr. apply post_ret. apply Forall_app. split; assumption.
Qed.

Lemma gather_news_post (sources : list (string -> Z -> M (list article))) (P : article -> Prop)
    (tickers : list string) (days_back : Z) :
  (forall f, In f sources -> forall t d, post (f t d) (Forall P)) ->
  post (gather_news sources tickers days_back) (Forall P).
Proof.
  intros Hs. induction tickers as [|t ts IH]; simpl; [apply post_ret; constructor|].
  apply post_bind with (P := Forall P).
  - apply post_try; [apply get_ticker_news_post; exact Hs | apply post_ret; constructor].
  - intros a Ha. apply post_bind with (1 := IH). intros rest Hr.
    apply post_ret. apply Forall_app. split; assumption.
Qed.

Lemma news_date_ge_total (x y : article) : news_date_ge x y = false -> news_date_ge y x = true.
Proof.
  unfold news_date_ge. destruct (date_key x), (date_key y); try discriminate; try reflexivity.
  rewrite Z.leb_gt, Z.leb_le. lia.
Qed.

(** What [collect_news] returns when it returns: the gathered articles
    deduplicated on [url] (first one kept) and sorted newest first. *)
Lemma collect_news_spec (sources : list (string -> Z -> M (list article)))
    (tickers : list string) (days_back : Z) (s : list string) (R : list article) (s' : list string) :
  collect_news sources tickers days_back s = (Ok R, s') ->
  exists all_articles s1,
    gather_news sources tickers days_back s = (Ok all_articles, s1) /\
    Sorted (fun x y => news_date_ge x y = true) R /\
    (forall r, In r R -> In r all_articles) /\
    (forall r, In r all_articles ->
       exists r0, find (fun x => String.eqb (a_url x) (a_url r)) all_articles = Some r0 /\
                  filter (fun x => String.eqb (a_url x) (a_url r)) R = [r0]).
Proof.
  unfold collect_news, bind.
  destruct (gather_news sources tickers days_back s) as [[all_articles|] s1] eqn:G; [|discriminate].
  intros H. exists all_articles, s1. split; [reflexivity|].
  unfold news_finalize in H. destruct all_articles as [|a rest].
  - inversion H; subst. repeat split; [constructor | intros r [] | intros r []].
  - destruct (mixed_tz _); [discriminate|]. unfold ret in H. injection H as HR _. subst R. split.
    + exact (sort_values_sorted news_date_ge news_date_ge_total
               (drop_duplicates String.eqb a_url (a :: rest))).
    + apply dedup_perm_first; [exact String.eqb_eq|].
      exact (sort_values_perm news_date_ge (drop_duplicates String.eqb a_url (a :: rest))).
Qed.

(** C3. When [get_news_for_tickers] returns a table, it holds, for every url of
    the gathered articles, exactly one article, the first one gathered with
    that url, no article of its own, and it is sorted newest first ([NaT]
    last). *)
Theorem get_news_for_tickers_dedup_sorted (env : news_env) (tickers : list string) (days_back : Z)
    (s : list string) (R : list article) (s' : list string) :
  get_news_for_tickers env tickers days_back s = (Ok R, s') ->
  exists all_articles s1,
    gather_news (news_sources env) tickers days_back s = (Ok all_articles, s1) /\
    Sorted (fun x y => news_date_ge x y = true) R /\
    (forall r, In r R -> In r all_articles) /\
    (forall r, In r all_articles ->
       exists r0, find (fun x => String.eqb (a_url x) (a_url r)) all_articles = Some r0 /\
                  filter (fun x => String.eqb (a_url x) (a_url r)) R = [r0]).
Proof. apply collect_news_spec. Qed.

(** C8. Each news adapter returns at most its cap of articles for a ticker
    (Yahoo Finance 5, MarketWatch 5, Google News 3), and one call of
    [get_news_for_tickers] hands at most [N * 3 * 5] URLs to the article
    extractor for [N] tickers. *)
Theorem get_news_for_tickers_bounded_extractions (env : news_env) (tickers : list string) (days_back : Z) :
  (forall t s l s', get_yahoo_news env t days_back s = (Ok l, s') -> (length l <= 5)%nat) /\
  (forall t s l s', get_marketwatch_news env t days_back s = (Ok l, s') -> (length l <= 5)%nat) /\
  (forall t s l s', get_google_news env t days_back s = (Ok l, s') -> (length l <= 3)%nat) /\
  (forall s, exists calls, snd (get_news_for_tickers env tickers days_back s) = s ++ calls /\
     (length calls <= length tickers * length (news_sources env) * 5)%nat).
Proof.
  split; [intros t; apply get_yahoo_news_len|].
  split; [intros t; apply get_marketwatch_news_len|].
  split; [intros t; apply get_google_news_len|].
  unfold get_news_for_tickers, collect_news.
  eapply calls_weaken.
  - apply calls_bind; [apply gather_news_calls, news_sources_calls | intros; apply news_finalize_calls].
  - lia.
Qed.

(** ** Date Normalizer *)

Lemma relative_ago_some (now unit : Z) (s : string) : relative_ago now unit s <> None.
Proof. unfold relative_ago. destruct (search_digits s); [destruct (_ <? _)|]; discriminate. Qed.

Lemma parse_news_date_some (now : Z) (s : string) : parse_news_date now s <> None.
Proof.
  unfold parse_news_date. destruct (is_empty s); [discriminate|].
  destruct (try_formats _ _); [discriminate|].
  destruct (contains "hour" _); [apply relative_ago_some|].
  destruct (contains "day" _); [apply relative_ago_some|].
  destruct (contains "minute" _); [apply relative_ago_some | discriminate].
Qed.

Lemma parse_news_date_unparsed (now : Z) (s : string) :
  try_formats (strip s) news_formats = None ->
  contains "hour" (lower (strip s)) = false ->
  contains "day" (lower (strip s)) = false ->
  contains "minute" (lower (strip s)) = false ->
  parse_news_date now s = Some (naive now).
Proof.
  intros Hf Hh Hd Hm. unfold parse_news_date.
  destruct (is_empty s); [reflexivity|]. rewrite Hf, Hh, Hd, Hm. reflexivity.
Qed.

Lemma parse_finviz_date_unparsed (today : Z) (s : string) :
  finviz_try (year_of_days today) (strip_ordinals (strip s)) finviz_formats = None ->
  parse_finviz_date today s = today.
Proof. intros H. unfold parse_finviz_date. rewrite H. reflexivity. Qed.

Lemma parse_date_unparsed (today : Z) (s : string) :
  try_formats (strip s) earnings_formats = None ->
  contains "today" (lower (strip s)) = false ->
  contains "tomorrow" (lower (strip s)) = false ->
  contains "yesterday" (lower (strip s)) = false ->
  parse_date today s = None.
Proof. intros Hf H1 H2 H3. unfold parse_date. rewrite Hf, H1, H2, H3. reflexivity. Qed.

(** Every article the news adapters return has a date. *)
Lemma news_sources_dated (env : news_env) :
  forall f, In f (news_sources env) -> forall t d, post (f t d) (Forall (fun a => a_date a <> None)).
Proof.
  intros f Hf t d. simpl in Hf. destruct Hf as [<- | [<- | [<- | []]]].
  - unfold get_yahoo_news. destruct (yahoo_news_page env t); [|apply post_ret; constructor].
    apply items_loop_post. intros it. unfold yahoo_item.
    split_all; repeat m_step; intros art Ha; try discriminate;
      injection Ha as <-; apply parse_news_date_some.
  - unfold get_marketwatch_news. destruct (marketwatch_news_page env t); [|apply post_ret; constructor].
    apply items_loop_post. intros it. unfold marketwatch_item.
    split_all; repeat m_step; intros art Ha; try discriminate;
      injection Ha as <-; apply parse_news_date_some.
  - unfold get_google_news. destruct (google_news_feed env t); [|apply post_ret; constructor].
    apply items_loop_post. intros it. unfold google_item. cbv beta zeta.
    destruct (f_title it) as [title|], (f_link it) as [link|], (f_pub it) as [pub|]; try m_step.
    pose proof (parse_news_date_some (now env) pub) as Hs.
    destruct (parse_news_date (now env) pub) as [dt|]; [|contradiction].
    split_all; repeat m_step; intros art Ha; try discriminate; injection Ha as <-; simpl; discriminate.
Qed.

(** C10. [_parse_news_date] never returns [None]: the empty string and any
    text it cannot parse give the current time, and so every article of a
    news table has a date. *)
Theorem parse_news_date_never_none :
  (forall now s, parse_news_date now s <> None) /\
  (forall now, parse_news_date now "" = Some (naive now)) /\
  (forall now s,
     try_formats (strip s) news_formats = None ->
     contains "hour" (lower (strip s)) = false ->
     contains "day" (lower (strip s)) = false ->
     contains "minute" (lower (strip s)) = false ->
     parse_news_date now s = Some (naive now)) /\
  (forall env tickers days_back s R s',
     get_news_for_tickers env tickers days_back s = (Ok R, s') ->
     forall a, In a R -> a_date a <> None).
Proof.
  split; [exact parse_news_date_some|].
  split; [reflexivity|].
  split; [exact parse_news_date_unparsed|].
  intros env tickers days_back s R s' H a Ha.
  destruct (collect_news_spec _ _ _ _ _ _ H) as [all_articles [s1 [G [_ [Hin _]]]]].
  pose proof (gather_news_post _ _ tickers days_back (news_sources_dated env) _ _ _ G) as Hall.
  rewrite Forall_forall in Hall. exact (Hall a (Hin a Ha)).
Qed.

(** C5 (as the code has it). For a text matching no format and no relative
    keyword, [_parse_news_date] returns the current time, [_parse_finviz_date]
    today's date and [_parse_date] [None]; none of them takes a fallback
    argument and none raises. *)
Theorem date_normalizers_unparsed_results :
  (forall now s,
     try_formats (strip s) news_formats = None ->
     contains "hour" (lower (strip s)) = false ->
     contains "day" (lower (strip s)) = false ->
     contains "minute" (lower (strip s)) = false ->
     parse_news_date now s = Some (naive now)) /\
  (forall today s,
     finviz_try (year_of_days today) (strip_ordinals (strip s)) finviz_formats = None ->
     parse_finviz_date today s = today) /\
  (forall today s,
     try_formats (strip s) earnings_formats = None ->
     contains "today" (lower (strip s)) = false ->
     contains "tomorrow" (lower (strip s)) = false ->
     contains "yesterday" (lower (strip s)) = false ->
     parse_date today s = None).
Proof.
  split; [exact parse_news_date_unparsed|].
  split; [exact parse_finviz_date_unparsed | exact parse_date_unparsed].
Qed.

(** C5: [_parse_date] answers [None], not a timestamp, for the unparseable
    text ["xyz"]. *)
Lemma parse_date_unparseable_none :
  (forall f, In f earnings_formats -> strptime "xyz" f = None) /\
  parse_date 19758 "xyz" = None /\
  (forall T, parse_date 19758 "xyz" <> Some T).
Proof.
  split; [intros f Hf; simpl in Hf; repeat destruct Hf as [<- | Hf]; try contradiction; vm_compute; reflexivity|].
  assert (H : parse_date 19758 "xyz" = None) by (vm_compute; reflexivity).
  split; [exact H | intros T; rewrite H; discriminate].
Qed.

(** ** The earnings adapters *)

Lemma nonempty_neq (s : string) : negb (is_empty s) = true -> s <> "".
Proof. destruct s; simpl; congruence. Qed.

Lemma finviz_row_ok (today days_ahead d : Z) (cells : row) (e : earning) :
  finviz_row today days_ahead d cells = Some e ->
  e_date e - today <= days_ahead /\ e_ticker e <> "".
Proof.
  unfold finviz_row. destruct cells as [|c0 [|c1 [|c2 cs]]]; try discriminate.
  destruct (cell_link c1) as [a|]; [|discriminate].
  destruct (negb (is_empty (link_text a)) && (d - today <=? days_ahead)) eqn:E; [|discriminate].
  intros H. injection H as <-. apply andb_true_iff in E as [E1 E2]. simpl.
  split; [apply Z.leb_le; exact E2 | apply nonempty_neq; exact E1].
Qed.

Lemma finviz_rows_ok (today days_ahead : Z) (rows : list row) :
  forall current r, In r (finviz_rows today days_ahead current rows) ->
  e_date r - today <= days_ahead /\ e_ticker r <> "".
Proof.
  induction rows as [|cells rest IH]; intros current r Hin; simpl in Hin; [contradiction|].
  destruct cells as [|c [|c1 cs]].
  - destruct current; eapply IH; exact Hin.
  - destruct (cell_colspan c); eapply IH; exact Hin.
  - destruct current as [d|]; [|eapply IH; exact Hin].
    destruct (finviz_row today days_ahead d (c :: c1 :: cs)) eqn:E; [|eapply IH; exact Hin].
    destruct Hin as [<- | Hin]; [eapply finviz_row_ok; exact E | eapply IH; exact Hin].
Qed.

Lemma in_rows_opt {B} (g : B -> option earning) (rows : list B) (r : earning) :
  In r (flat_map (fun x => match g x with Some e => [e] | None => [] end) rows) ->
  exists x, g x = Some r.
Proof.
  intros H. apply in_flat_map in H as [x [_ Hx]].
  exists x. destruct (g x) as [e|]; [destruct Hx as [<- | []]; reflexivity | contradiction].
Qed.

Lemma in_tables_opt (g : row -> option earning) (tables : list (list row)) (r : earning) :
  In r (flat_map (fun rows => flat_map (fun x => match g x with Some e => [e] | None => [] end) (tl rows)) tables) ->
  exists x, g x = Some r.
Proof. intros H. apply in_flat_map in H as [rows [_ Hr]]. exact (in_rows_opt g _ r Hr). Qed.

Lemma finviz_ok (env : earn_env) (days_ahead : Z) (r : earning) :
  In r (scrape_finviz_earnings env days_ahead) ->
  e_date r - today env <= days_ahead /\ e_ticker r <> "".
Proof.
  unfold scrape_finviz_earnings. destruct (finviz_page env); [apply finviz_rows_ok | intros []].
Qed.

Lemma yahoo_ok (env : earn_env) (days_ahead : Z) (r : earning) :
  In r (scrape_yahoo_finance_api env days_ahead) ->
  e_date r = today env /\ 0 <= days_ahead /\ e_ticker r <> "".
Proof.
  unfold scrape_yahoo_finance_api. destruct (yahoo_page env) as [tables|]; [|intros []].
  intros H. apply in_tables_opt in H as [cells H]. unfold yahoo_row in H.
  destruct cells as [|c0 [|c1 [|c2 [|c3 cs]]]]; try discriminate.
  destruct (cell_link c0) as [a|]; [|discriminate].
  rewrite Z.sub_diag in H.
  destruct (negb (is_empty (link_text a)) && (0 <=? days_ahead)) eqn:E; [|discriminate].
  injection H as <-. apply andb_true_iff in E as [E1 E2]. simpl.
  split; [reflexivity|]. split; [apply Z.leb_le; exact E2 | apply nonempty_neq; exact E1].
Qed.

Lemma investing_ok (env : earn_env) (days_ahead : Z) (r : earning) :
  In r (scrape_investing_earnings env days_ahead) -> e_date r = today env /\ e_ticker r <> "".
Proof.
  unfold scrape_investing_earnings. destruct (investing_page env) as [rows|]; [|intros []].
  intros H. apply in_rows_opt in H as [cells H]. unfold investing_row in H.
  destruct cells as [|c0 [|c1 [|c2 [|c3 cs]]]]; try discriminate.
  destruct (cell_link c1) as [a|]; [|discriminate].
  match type of H with (if ?b then _ else _) = _ => destruct b eqn:E end; [|discriminate].
  injection H as <-. apply andb_true_iff in E as [E1 _]. simpl.
  split; [reflexivity | apply nonempty_neq; exact E1].
Qed.

Lemma marketwatch_ok (env : earn_env) (days_ahead : Z) (r : earning) :
  In r (scrape_marketwatch_earnings env days_ahead) -> e_date r = today env /\ e_ticker r <> "".
Proof.
  unfold scrape_marketwatch_earnings. destruct (marketwatch_page env) as [tables|]; [|intros []].
  intros H. apply in_tables_opt in H as [cells H]. unfold marketwatch_row in H.
  destruct cells as [|c0 [|c1 [|c2 cs]]]; try discriminate.
  match type of H with (if ?b then _ else _) = _ => destruct b eqn:E end; [|discriminate].
  injection H as <-. apply andb_true_iff in E as [E1 _]. simpl.
  split; [reflexivity | apply nonempty_neq; exact E1].
Qed.

Lemma finviz_rows_app (today days_ahead : Z) (pre rest : list row) :
  forall cur, exists cur' X, finviz_rows today days_ahead cur (pre ++ rest) = X ++ finviz_rows today days_ahead cur' rest.
Proof.
  induction pre as [|cells pre IH]; intros cur; [exists cur, []; reflexivity|].
  simpl. destruct cells as [|c [|c1 cs]].
  - destruct cur as [d|]; [unfold finviz_row|]; apply IH.
  - destruct (cell_colspan c); apply IH.
  - destruct cur as [d|]; [|apply IH].
    destruct (finviz_row today days_ahead d (c :: c1 :: cs)) as [e|]; [|apply IH].
    destruct (IH (Some d)) as [cur' [X E]]. exists cur', (e :: X). rewrite E. reflexivity.
Qed.

Lemma finviz_rows_mid (today days_ahead d : Z) (mid rest : list row) :
  no_header mid = true ->
  exists X, finviz_rows today days_ahead (Some d) (mid ++ rest) = X ++ finviz_rows today days_ahead (Some d) rest.
Proof.
  induction mid as [|cells mid IH]; intros H; [exists []; reflexivity|].
  unfold no_header in H. simpl in H. apply andb_true_iff in H as [H1 H2].
  destruct (IH H2) as [X E]. simpl. destruct cells as [|c [|c1 cs]].
  - exists X. exact E.
  - simpl in H1. destruct (cell_colspan c); [discriminate|]. exists X. exact E.
  - destruct (finviz_row today days_ahead d (c :: c1 :: cs)) as [e|]; [exists (e :: X); rewrite E; reflexivity | exists X; exact E].
Qed.

(** A data row below a date header, with no header between them. *)
Lemma finviz_rows_below_header (today days_ahead : Z) (pre mid post : list row) (c c0 c1 c2 : cell) (rest : row) (e : earning) :
  cell_colspan c = true -> no_header mid = true ->
  finviz_row today days_ahead (parse_finviz_date today (cell_text c)) (c0 :: c1 :: c2 :: rest) = Some e ->
  In e (finviz_rows today days_ahead None (pre ++ [c] :: mid ++ (c0 :: c1 :: c2 :: rest) :: post)).
Proof.
  intros Hc Hm He.
  destruct (finviz_rows_app today days_ahead pre ([c] :: mid ++ (c0 :: c1 :: c2 :: rest) :: post) None) as [cur [X E]].
  rewrite E. apply in_or_app. right. cbn [finviz_rows]. rewrite Hc.
  destruct (finviz_rows_mid today days_ahead (parse_finviz_date today (cell_text c)) mid
              ((c0 :: c1 :: c2 :: rest) :: post) Hm) as [Y E2].
  rewrite E2. apply in_or_app. right. cbn [finviz_rows]. rewrite He. left. reflexivity.
Qed.

(** C4 (as the code has it). Only an upper bound is enforced. Finviz, the
    one source with real dates, keeps a data row below a date header, with
    a ticker link of non-empty text, exactly when its date is at most
    [days_ahead] days after today: past dates are kept. Yahoo Finance dates
    every row today and keeps rows only when [days_ahead >= 0];
    Investing.com and MarketWatch date every row today, and their output
    does not depend on [days_ahead]. *)
Theorem earnings_adapters_date_filters (env : earn_env) (days_ahead : Z) :
  (forall r, In r (scrape_finviz_earnings env days_ahead) -> e_date r - today env <= days_ahead) /\
  (forall r, In r (scrape_yahoo_finance_api env days_ahead) -> e_date r = today env /\ 0 <= days_ahead) /\
  (forall r, In r (scrape_investing_earnings env days_ahead) -> e_date r = today env) /\
  (forall r, In r (scrape_marketwatch_earnings env days_ahead) -> e_date r = today env) /\
  (forall rows pre c mid post c0 c1 c2 rest a,
     finviz_page env = Some rows -> rows = pre ++ [c] :: mid ++ (c0 :: c1 :: c2 :: rest) :: post ->
     cell_colspan c = true -> no_header mid = true ->
     cell_link c1 = Some a -> is_empty (link_text a) = false ->
     let d := parse_finviz_date (today env) (cell_text c) in
     In (mk_earning (link_text a) (cell_text c2) d (cell_text c0) "Finviz") (scrape_finviz_earnings env days_ahead)
       <-> d - today env <= days_ahead) /\
  (forall days_ahead', scrape_investing_earnings env days_ahead' = scrape_investing_earnings env days_ahead) /\
  (forall days_ahead', scrape_marketwatch_earnings env days_ahead' = scrape_marketwatch_earnings env days_ahead).
Proof.
  split; [intros r H; apply (finviz_ok env days_ahead r H)|].
  split; [intros r H; destruct (yahoo_ok env days_ahead r H) as [H1 [H2 _]]; split; assumption|].
  split; [intros r H; apply (investing_ok env days_ahead r H)|].
  split; [intros r H; apply (marketwatch_ok env days_ahead r H)|].
  split; [|split; reflexivity].
  intros rows pre c mid post c0 c1 c2 rest a Hp Hr Hc Hm Ha Ht d. split.
  - intros H. exact (proj1 (finviz_ok env days_ahead _ H)).
  - intros H. unfold scrape_finviz_earnings. rewrite Hp, Hr.
    apply finviz_rows_below_header; [exact Hc | exact Hm|].
    unfold finviz_row. rewrite Ha, Ht. fold d. apply Z.leb_le in H. rewrite H. reflexivity.
Qed.

Lemma in_rows_opt_in {B} (g : B -> option earning) (rows : list B) (r : earning) :
  In r (flat_map (fun x => match g x with Some e => [e] | None => [] end) rows) ->
  exists x, In x rows /\ g x = Some r.
Proof.
  intros H. apply in_flat_map in H as [x [Hx Hr]].
  exists x. split; [exact Hx|]. destruct (g x) as [e|]; [destruct Hr as [<- | []]; reflexivity | contradiction].
Qed.

Lemma in_tables_opt_in (g : row -> option earning) (tables : list (list row)) (r : earning) :
  In r (flat_map (fun rows => flat_map (fun x => match g x with Some e => [e] | None => [] end) (tl rows)) tables) ->
  exists rows x, In rows tables /\ In x (tl rows) /\ g x = Some r.
Proof.
  intros H. apply in_flat_map in H as [rows [Hrows Hr]].
  destruct (in_rows_opt_in g _ r Hr) as [x [Hx E]]. exists rows, x. auto.
Qed.

Lemma finviz_rows_in (today days_ahead : Z) (rows : list row) :
  forall cur e, In e (finviz_rows today days_ahead cur rows) ->
  exists cells d, In cells rows /\ finviz_row today days_ahead d cells = Some e.
Proof.
  induction rows as [|cells rest IH]; intros cur e H; [contradiction|].
  simpl in H. destruct cells as [|c [|c1 cs]].
  - destruct cur as [d|]; [unfold finviz_row in H|];
      destruct (IH _ _ H) as [x [d' [Hx E]]]; exists x, d'; (split; [right|]); assumption.
  - destruct (cell_colspan c);
      destruct (IH _ _ H) as [x [d' [Hx E]]]; exists x, d'; (split; [right|]); assumption.
  - destruct cur as [d|];
      [destruct (finviz_row today days_ahead d (c :: c1 :: cs)) as [e'|] eqn:Ef; [destruct H as [<- | H]|]|].
    + exists (c :: c1 :: cs), d. split; [left; reflexivity | exact Ef].
    + destruct (IH _ _ H) as [x [d' [Hx E]]]. exists x, d'. split; [right|]; assumption.
    + destruct (IH _ _ H) as [x [d' [Hx E]]]. exists x, d'. split; [right|]; assumption.
    + destruct (IH _ _ H) as [x [d' [Hx E]]]. exists x, d'. split; [right|]; assumption.
Qed.

Lemma finviz_ticker_from_page (env : earn_env) (days_ahead : Z) (r : earning) :
  In r (scrape_finviz_earnings env days_ahead) -> ticker_from_page env r.
Proof.
  unfold scrape_finviz_earnings. destruct (finviz_page env) as [rows|] eqn:Ep; [|intros []].
  intros H. destruct (finviz_rows_in _ _ rows None r H) as [cells [d [Hc E]]].
  exists cells. left. unfold finviz_row in E.
  destruct cells as [|c0 [|c1 [|c2 cs]]]; try discriminate.
  destruct (cell_link c1) as [a|] eqn:Ea; [|discriminate].
  destruct (negb (is_empty (link_text a)) && (d - today env <=? days_ahead)); [|discriminate].
  injection E as <-. split; [reflexivity|]. split; [exists rows; split; assumption|].
  unfold link_at. simpl. rewrite Ea. reflexivity.
Qed.

Lemma investing_ticker_from_page (env : earn_env) (days_ahead : Z) (r : earning) :
  In r (scrape_investing_earnings env days_ahead) -> ticker_from_page env r.
Proof.
  unfold scrape_investing_earnings. destruct (investing_page env) as [rows|] eqn:Ep; [|intros []].
  intros H. destruct (in_rows_opt_in _ _ r H) as [cells [Hc E]].
  exists cells. right. left. unfold investing_row in E.
  destruct cells as [|c0 [|c1 [|c2 [|c3 cs]]]]; try discriminate.
  destruct (cell_link c1) as [a|] eqn:Ea; [|discriminate].
  match type of E with (if ?b then _ else _) = _ => destruct b end; [|discriminate].
  injection E as <-. split; [reflexivity|]. split; [exists rows; split; assumption|].
  unfold link_at, text_at. simpl. rewrite Ea. simpl.
  destruct (is_empty (ticker_of_title (link_title a))); [|left; reflexivity].
  destruct (negb (is_empty (cell_text c0)) && (String.length (cell_text c0) <=? 5)%nat);
    [right | left]; reflexivity.
Qed.

Lemma yahoo_ticker_from_page (env : earn_env) (days_ahead : Z) (r : earning) :
  In r (scrape_yahoo_finance_api env days_ahead) -> ticker_from_page env r.
Proof.
  unfold scrape_yahoo_finance_api. destruct (yahoo_page env) as [tables|] eqn:Ep; [|intros []].
  intros H. destruct (in_tables_opt_in _ _ r H) as [rows [cells [Hr [Hc E]]]].
  exists cells. right. right. left. unfold yahoo_row in E.
  destruct cells as [|c0 [|c1 [|c2 [|c3 cs]]]]; try discriminate.
  destruct (cell_link c0) as [a|] eqn:Ea; [|discriminate].
  match type of E with (if ?b then _ else _) = _ => destruct b end; [|discriminate].
  injection E as <-. split; [reflexivity|]. split; [exists tables, rows; auto|].
  unfold link_at. simpl. rewrite Ea. reflexivity.
Qed.

Lemma marketwatch_ticker_from_page (env : earn_env) (days_ahead : Z) (r : earning) :
  In r (scrape_marketwatch_earnings env days_ahead) -> ticker_from_page env r.
Proof.
  unfold scrape_marketwatch_earnings. destruct (marketwatch_page env) as [tables|] eqn:Ep; [|intros []].
  intros H. destruct (in_tables_opt_in _ _ r H) as [rows [cells [Hr [Hc E]]]].
  exists cells. right. right. right. unfold marketwatch_row in E.
  destruct cells as [|c0 [|c1 [|c2 cs]]]; try discriminate.
  match type of E with (if ?b then _ else _) = _ => destruct b end; [|discriminate].
  injection E as <-. split; [reflexivity|]. split; [exists tables, rows; auto|].
  unfold link_at, text_at. simpl. destruct (cell_link c0) as [a|]; [left | right]; reflexivity.
Qed.

(** C9 (as the code has it). Every row of the earnings calendar has a
    non-empty ticker, and that ticker is a text of the page as it is, read
    where its adapter reads it: no upper-casing or other normalization. *)
Theorem get_earnings_calendar_tickers_nonempty (env : earn_env) (days_ahead : Z) (r : earning) :
  In r (get_earnings_calendar env days_ahead) -> e_ticker r <> "" /\ ticker_from_page env r.
Proof.
  intros H. destruct (collect_earnings_spec (earnings_sources env) days_ahead) as [_ [Hin _]].
  apply Hin in H. simpl in H. rewrite app_nil_r in H.
  repeat (apply in_app_or in H; destruct H as [H | H]).
  - split; [apply (finviz_ok env days_ahead r H) | apply (finviz_ticker_from_page env days_ahead r H)].
  - split; [apply (investing_ok env days_ahead r H) | apply (investing_ticker_from_page env days_ahead r H)].
  - split; [apply (yahoo_ok env days_ahead r H) | apply (yahoo_ticker_from_page env days_ahead r H)].
  - split; [apply (marketwatch_ok env days_ahead r H) | apply (marketwatch_ticker_from_page env days_ahead r H)].
Qed.

(** ** Counterexamples and the code at its failing inputs *)

(** C4: a Finviz row dated before today reaches the adapter's output. *)
Lemma finviz_keeps_past_row :
  In (mk_earning "META" "Meta Platforms" (feb5 - 4) "AMC" "Finviz")
     (scrape_finviz_earnings finviz_past_env 30) /\
  feb5 - 4 < today finviz_past_env.
Proof. split; [vm_compute; left; reflexivity | vm_compute; reflexivity]. Qed.

(** C9: a lower-case ticker reaches the earnings calendar as it is. *)
Lemma get_earnings_calendar_lower_ticker :
  In (mk_earning "aapl" "Apple Inc." feb5 "BMO" "Finviz") (get_earnings_calendar finviz_lower_env 30) /\
  upper "aapl" <> "aapl".
Proof. split; [vm_compute; left; reflexivity | vm_compute; discriminate]. Qed.

(** C7: with [days_back = 7] the feed adapter keeps an article dated more than
    7 days before now (7 days and 1 hour). *)
Lemma google_keeps_article_older_than_days_back :
  exists a d,
    fst (get_google_news google_old_env "AAPL" 7 []) = Ok [a] /\
    a_date a = Some d /\ dt_wall d < now google_old_env - 7 * secs_per_day.
Proof.
  eexists. eexists. split; [vm_compute; reflexivity|].
  split; [reflexivity | vm_compute; reflexivity].
Qed.

(** C2: on [mixed_tz_env] every adapter call returns, yet
    [get_news_for_tickers] raises: [pd.to_datetime] meets an aware and a
    naive datetime in the [date] column. *)
Theorem get_news_for_tickers_mixed_tz_raises :
  (exists l s1, gather_news (news_sources mixed_tz_env) ["AAPL"] 7 [] = (Ok l, s1) /\ length l = 2%nat) /\
  fst (get_news_for_tickers mixed_tz_env ["AAPL"] 7 []) = Raise.
Proof.
  split; [|vm_compute; reflexivity].
  eexists. eexists. split; [vm_compute; reflexivity | reflexivity].
Qed.

(** ** The feed adapter's age filter *)

Lemma age_days_kept (now : Z) (d : datetime) (n days_back : Z) :
  age_days now d = Ok n -> (n >? days_back) = false ->
  dt_off d = None /\ now - dt_wall d < (days_back + 1) * secs_per_day.
Proof.
  unfold age_days. destruct (dt_off d); [discriminate|].
  intros H Hg. injection H as <-. split; [reflexivity|].
  rewrite Z.gtb_ltb, Z.ltb_ge in Hg.
  pose proof (Z.div_mod (now - dt_wall d) secs_per_day ltac:(discriminate)) as Hdm.
  pose proof (Z.mod_pos_bound (now - dt_wall d) secs_per_day ltac:(reflexivity)) as Hb.
  unfold secs_per_day in *. lia.
Qed.

Lemma google_item_recent (env : news_env) (ticker : string) (days_back : Z) :
  item_post (google_item env ticker days_back)
    (fun a => forall d, a_date a = Some d ->
       dt_off d = None /\ now env - dt_wall d < (days_back + 1) * secs_per_day).
Proof.
  intros it. unfold google_item. cbv beta zeta.
  destruct (f_title it) as [title|], (f_link it) as [link|], (f_pub it) as [pub|]; try m_step.
  destruct (parse_news_date (now env) pub) as [dt|].
  - destruct (age_days (now env) dt) as [n|] eqn:Ea; [|m_step].
    destruct (n >? days_back) eqn:En; [m_step; intros art Ha; discriminate|].
    m_step. m_step. intros art Ha d Hd. injection Ha as <-. simpl in Hd. injection Hd as <-.
    exact (age_days_kept _ _ _ _ Ea En).
  - m_step. m_step. intros art Ha d Hd. injection Ha as <-. discriminate.
Qed.

Lemma items_loop_keeps {I} (f : I -> M (option article)) (P : article -> Prop) (it : I) (items : list I) :
  In it items -> (forall s0, exists a s1, f it s0 = (Ok (Some a), s1) /\ P a) ->
  forall s l s', items_loop f items s = (Ok l, s') -> exists a, In a l /\ P a.
Proof.
  intros Hin Hf. induction items as [|x r IH]; [contradiction|]. intros s l s' H.
  simpl in H. unfold bind, try_except, ret in H.
  destruct Hin as [<- | Hin].
  - destruct (Hf s) as [a [s1 [E Ha]]]. rewrite E in H.
    destruct (items_loop f r s1) as [[rest|] s2]; [|discriminate].
    injection H as <- _. exists a. split; [left; reflexivity | exact Ha].
  - destruct (f x s) as [[o|] s1];
      [destruct (items_loop f r s1) as [[rest|] s2] eqn:E2 | destruct (items_loop f r s1) as [[rest|] s2] eqn:E2];
      try discriminate; injection H as <- _;
      destruct (IH Hin _ _ _ E2) as [a [Ha Pa]]; exists a; split; try exact Pa;
      try destruct o; try right; exact Ha.
Qed.

Lemma age_days_within (now : Z) (d : datetime) (days_back : Z) :
  dt_off d = None -> now - dt_wall d < (days_back + 1) * secs_per_day ->
  exists n, age_days now d = Ok n /\ (n >? days_back) = false.
Proof.
  intros Ho Hl. unfold age_days. rewrite Ho. eexists. split; [reflexivity|].
  rewrite Z.gtb_ltb. apply Z.ltb_ge. unfold secs_per_day in *. Z.div_mod_to_equations. lia.
Qed.

Lemma google_item_kept (env : news_env) (ticker : string) (days_back : Z) (it : feed_item)
    (title link pub : string) (d : datetime) :
  f_title it = Some title -> f_link it = Some link -> f_pub it = Some pub ->
  parse_news_date (now env) pub = Some d -> dt_off d = None ->
  now env - dt_wall d < (days_back + 1) * secs_per_day ->
  forall s0, exists a s1, google_item env ticker days_back it s0 = (Ok (Some a), s1) /\
    (a_ticker a = ticker /\ a_title a = title /\ a_url a = link /\ a_date a = Some d /\ a_source a = "Google News").
Proof.
  intros Ht Hk Hp Hd Ho Hl s0. destruct (age_days_within (now env) d days_back Ho Hl) as [n [En Gn]].
  unfold google_item. rewrite Ht, Hk, Hp. cbv zeta. rewrite Hd, En, Gn.
  unfold bind, parse_article, ret. do 2 eexists. split; [reflexivity|]. simpl. auto.
Qed.

(** C7 (as the code has it). Every article the Google News adapter returns
    has a naive date less than [days_back + 1] days before now; and an item
    among the first three of the feed, with a title, a link and a date
    parsed into a naive datetime less than [days_back + 1] days before now,
    is returned: the adapter drops an article only when the whole days of
    its age exceed [days_back]. *)
Theorem get_google_news_age_bound (env : news_env) (ticker : string) (days_back : Z)
    (s : list string) (l : list article) (s' : list string) :
  get_google_news env ticker days_back s = (Ok l, s') ->
  (forall a d, In a l -> a_date a = Some d ->
     dt_off d = None /\ now env - dt_wall d < (days_back + 1) * secs_per_day) /\
  (forall items it title link pub d,
     google_news_feed env ticker = Some items -> In it (firstn 3 items) ->
     f_title it = Some title -> f_link it = Some link -> f_pub it = Some pub ->
     parse_news_date (now env) pub = Some d -> dt_off d = None ->
     now env - dt_wall d < (days_back + 1) * secs_per_day ->
     exists a, In a l /\ a_ticker a = ticker /\ a_title a = title /\ a_url a = link /\
               a_date a = Some d /\ a_source a = "Google News").
Proof.
  intros H. split.
  - intros a d Ha Hd. unfold get_google_news in H.
    destruct (google_news_feed env ticker) as [items|].
    + apply (items_loop_post _ _ _ (google_item_recent env ticker days_back)) in H.
      rewrite Forall_forall in H. exact (H a Ha d Hd).
    + injection H as <- _. contradiction.
  - intros items it title link pub d Hf Hin Ht Hk Hp Hd Ho Hl.
    unfold get_google_news in H. rewrite Hf in H.
    exact (items_loop_keeps _ _ it _ Hin (google_item_kept env ticker days_back it title link pub d Ht Hk Hp Hd Ho Hl) s l s' H).
Qed.

(** ** Runs that differ only in the article extractor *)

(** [m1] and [m2] log the same URLs, raise together, and return related
    values. *)
Definition rel {A B} (R : A -> B -> Prop) (m1 : M A) (m2 : M B) : Prop :=
  forall s, match m1 s, m2 s with
            | (Ok a, s1), (Ok b, s2) => R a b /\ s1 = s2
            | (Raise, s1), (Raise, s2) => s1 = s2
            | _, _ => False
            end.

Lemma rel_ret {A B} (R : A -> B -> Prop) a b : R a b -> rel R (ret a) (ret b).
Proof. intros H s. simpl. split; [exact H | reflexivity]. Qed.

Lemma rel_raise {A B} (R : A -> B -> Prop) : rel R raise raise.
Proof. intros s. reflexivity. Qed.

Lemma rel_bind {A B C D} (R : A -> B -> Prop) (Q : C -> D -> Prop) m1 m2 f g :
  rel R m1 m2 -> (forall a b, R a b -> rel Q (f a) (g b)) -> rel Q (bind m1 f) (bind m2 g).
Proof.
  intros Hm Hf s. specialize (Hm s). unfold bind.
  destruct (m1 s) as [[a|] s1], (m2 s) as [[b|] s2]; try contradiction.
  - destruct Hm as [Hab <-]. apply Hf. exact Hab.
  - exact Hm.
Qed.

Lemma rel_try {A B} (R : A -> B -> Prop) m1 m2 h1 h2 :
  rel R m1 m2 -> rel R h1 h2 -> rel R (try_except m1 h1) (try_except m2 h2).
Proof.
  intros Hm Hh s. specialize (Hm s). unfold try_except.
  destruct (m1 s) as [[a|] s1], (m2 s) as [[b|] s2]; try contradiction.
  - exact Hm.
  - subst s2. apply Hh.
Qed.

Lemma rel_parse_article (env1 env2 : news_env) (u : string) :
  rel (fun _ _ => True) (parse_article env1 u) (parse_article env2 u).
Proof. intros s. simpl. split; [exact I | reflexivity]. Qed.

Definition meta_opt (o1 o2 : option article) : Prop := option_map article_meta o1 = option_map article_meta o2.
Definition meta_list (l1 l2 : list article) : Prop := map article_meta l1 = map article_meta l2.

Ltac rel_step :=
  match goal with
  | |- rel _ (ret _) (ret _) => apply rel_ret; try reflexivity
  | |- rel _ raise raise => apply rel_raise
  | |- rel _ (bind (parse_article _ _) _) (bind (parse_article _ _) _) =>
      eapply rel_bind; [apply rel_parse_article | intros ? ? _]
  end.

Lemma items_loop_rel {I} (f g : I -> M (option article)) (items : list I) :
  (forall it, rel meta_opt (f it) (g it)) -> rel meta_list (items_loop f items) (items_loop g items).
Proof.
  intros Hfg. induction items as [|it r IH]; simpl; [apply rel_ret; reflexivity|].
  eapply rel_bind; [apply rel_try; [apply Hfg | apply rel_ret; reflexivity]|].
  intros o1 o2 Ho. eapply rel_bind; [exact IH|]. intros r1 r2 Hr. apply rel_ret.
  destruct o1 as [a|], o2 as [b|]; unfold meta_opt, meta_list in *; cbn [option_map map] in *;
    try discriminate; [|exact Hr].
  assert (Hm : article_meta a = article_meta b) by congruence.
  rewrite Hm, Hr. reflexivity.
Qed.

Lemma yahoo_item_rel (env : news_env) e ticker it :
  rel meta_opt (yahoo_item env ticker it) (yahoo_item (with_extractor env e) ticker it).
Proof. unfold yahoo_item. split_all; rel_step; rel_step. Qed.

Lemma marketwatch_item_rel (env : news_env) e ticker it :
  rel meta_opt (marketwatch_item env ticker it) (marketwatch_item (with_extractor env e) ticker it).
Proof. unfold marketwatch_item. split_all; rel_step; rel_step. Qed.

Lemma google_item_rel (env : news_env) e ticker days_back it :
  rel meta_opt (google_item env ticker days_back it) (google_item (with_extractor env e) ticker days_back it).
Proof.
  unfold google_item. cbv beta zeta. change (now (with_extractor env e)) with (now env).
  split_all; repeat rel_step.
Qed.

Lemma news_sources_rel (env : news_env) e :
  Forall2 (fun f g => forall t d, rel meta_list (f t d) (g t d))
          (news_sources env) (news_sources (with_extractor env e)).
Proof.
  repeat constructor; intros t d.
  - unfold get_yahoo_news. change (yahoo_news_page (with_extractor env e)) with (yahoo_news_page env).
    destruct (yahoo_news_page env t); [apply items_loop_rel; intros; apply yahoo_item_rel | rel_step].
  - unfold get_marketwatch_news.
    change (marketwatch_news_page (with_extractor env e)) with (marketwatch_news_page env).
    destruct (marketwatch_news_page env t); [apply items_loop_rel; intros; apply marketwatch_item_rel | rel_step].
  - unfold get_google_news. change (google_news_feed (with_extractor env e)) with (google_news_feed env).
    destruct (google_news_feed env t); [apply items_loop_rel; intros; apply google_item_rel | rel_step].
Qed.

Lemma meta_list_app (a1 a2 r1 r2 : list article) :
  meta_list a1 a2 -> meta_list r1 r2 -> meta_list (a1 ++ r1) (a2 ++ r2).
Proof. unfold meta_list. rewrite !map_app. congruence. Qed.

Lemma get_ticker_news_rel srcs1 srcs2 ticker days_back :
  Forall2 (fun f g => forall t d, rel meta_list (f t d) (g t d)) srcs1 srcs2 ->
  rel meta_list (get_ticker_news srcs1 ticker days_back) (get_ticker_news srcs2 ticker days_back).
Proof.
  induction 1 as [|f g fs gs Hfg _ IH]; simpl; [apply rel_ret; reflexivity|].
  eapply rel_bind; [apply rel_try; [apply Hfg | apply rel_ret; reflexivity]|].
  intros a1 a2 Ha. eapply rel_bind; [exact IH|]. intros r1 r2 Hr.
  apply rel_ret. apply meta_list_app; assumption.
Qed.

Lemma gather_news_rel srcs1 srcs2 tickers days_back :
  Forall2 (fun f g => forall t d, rel meta_list (f t d) (g t d)) srcs1 srcs2 ->
  rel meta_list (gather_news srcs1 tickers days_back) (gather_news srcs2 tickers days_back).
Proof.
  intros H. induction tickers as [|t ts IH]; simpl; [apply rel_ret; reflexivity|].
  eapply rel_bind; [apply rel_try; [apply get_ticker_news_rel; exact H | apply rel_ret; reflexivity]|].
  intros a1 a2 Ha. eapply rel_bind; [exact IH|]. intros r1 r2 Hr.
  apply rel_ret. apply meta_list_app; assumption.
Qed.

(** The ticker loop catches everything: it always returns. *)
Lemma gather_news_ok srcs tickers days_back (s : list string) :
  exists l s1, gather_news srcs tickers days_back s = (Ok l, s1).
Proof.
  revert s. induction tickers as [|t ts IH]; intros s; simpl; [eexists; eexists; reflexivity|].
  unfold bind at 1, try_except.
  destruct (get_ticker_news srcs t days_back s) as [[a|] s1]; unfold ret at 1;
    unfold bind; destruct (IH s1) as [l [s2 E]]; rewrite E; eexists; eexists; reflexivity.
Qed.

(** ** Extraction failures leave empty content *)

Definition content_ok (env : news_env) (a : article) : Prop :=
  extractor env (a_url a) = None -> a_summary a = "" /\ a_full_text a = "".

Lemma parse_article_failed (env : news_env) (u : string) (s : list string) :
  extractor env u = None -> parse_article env u s = (Ok ("", ""), s ++ [u]).
Proof. intros H. unfold parse_article. rewrite H. reflexivity. Qed.

Lemma post_parse_article_content (env : news_env) (u : string) :
  post (parse_article env u) (fun p => extractor env u = None -> p = ("", "")).
Proof.
  intros s p s' H Hn. rewrite (parse_article_failed env u s Hn) in H. injection H as <- _. reflexivity.
Qed.

Ltac content_step :=
  match goal with
  | |- post (bind (parse_article _ _) _) _ =>
      eapply post_bind; [apply post_parse_article_content|];
      intros p Hp; apply post_ret; intros art Ha; injection Ha as <-;
      unfold content_ok; simpl; intros Hn; rewrite (Hp Hn); split; reflexivity
  | |- post (ret None) _ => apply post_ret; intros art Ha; discriminate
  | |- post raise _ => apply post_raise
  end.

Lemma news_sources_content (env : news_env) :
  forall f, In f (news_sources env) -> forall t d, post (f t d) (Forall (content_ok env)).
Proof.
  intros f Hf t d. simpl in Hf. destruct Hf as [<- | [<- | [<- | []]]].
  - unfold get_yahoo_news. destruct (yahoo_news_page env t); [|apply post_ret; constructor].
    apply items_loop_post. intros it. unfold yahoo_item. split_all; content_step.
  - unfold get_marketwatch_news. destruct (marketwatch_news_page env t); [|apply post_ret; constructor].
    apply items_loop_post. intros it. unfold marketwatch_item. split_all; content_step.
  - unfold get_google_news. destruct (google_news_feed env t); [|apply post_ret; constructor].
    apply items_loop_post. intros it. unfold google_item. cbv beta zeta. split_all; content_step.
Qed.

(** C6: a failed extraction yields empty text and summary and
    costs the article nothing else. [_parse_article] returns [("", "")]
    and logs the url; replacing the extractor changes no gathered
    article's ticker, title, url, date or source, nor the list of urls
    handed to it; a gathered article whose extraction failed carries
    empty content; and the final table keeps every gathered article that
    is the first with its url, whatever its extraction did. *)
Theorem news_failed_extraction_kept :
  (forall (env : news_env) (u : string) (s : list string),
     extractor env u = None -> parse_article env u s = (Ok ("", ""), s ++ [u])) /\
  (forall (env : news_env) e (tickers : list string) (days_back : Z) (s : list string),
     exists l1 l2 s1,
       gather_news (news_sources env) tickers days_back s = (Ok l1, s1) /\
       gather_news (news_sources (with_extractor env e)) tickers days_back s = (Ok l2, s1) /\
       map article_meta l1 = map article_meta l2) /\
  (forall (env : news_env) (tickers : list string) (days_back : Z) (s : list string) l s1,
     gather_news (news_sources env) tickers days_back s = (Ok l, s1) ->
     forall a, In a l -> extractor env (a_url a) = None ->
       a_summary a = "" /\ a_full_text a = "") /\
  (forall (env : news_env) (tickers : list string) (days_back : Z) (s : list string) R s',
     get_news_for_tickers env tickers days_back s = (Ok R, s') ->
     exists l s1,
       gather_news (news_sources env) tickers days_back s = (Ok l, s1) /\
       forall a, In a l -> find (fun x => String.eqb (a_url x) (a_url a)) l = Some a -> In a R).
Proof.
  split; [exact parse_article_failed|].
  split.
  { intros env e tickers days_back s.
    pose proof (gather_news_rel _ _ tickers days_back (news_sources_rel env e) s) as Hr.
    destruct (gather_news_ok (news_sources env) tickers days_back s) as [l1 [s1 E1]].
    destruct (gather_news_ok (news_sources (with_extractor env e)) tickers days_back s) as [l2 [s2 E2]].
    rewrite E1, E2 in Hr. destruct Hr as [Hm <-].
    exists l1, l2, s1. repeat split; assumption. }
  split.
  { intros env tickers days_back s l s1 H a Ha.
    pose proof (gather_news_post (news_sources env) (content_ok env) tickers days_back
                  (news_sources_content env) s l s1 H) as Hf.
    rewrite Forall_forall in Hf. exact (Hf a Ha). }
  intros env tickers days_back s R s' H.
  destruct (collect_news_spec _ _ _ _ _ _ H) as [l [s1 [G [_ [_ Hd]]]]].
  exists l, s1. split; [exact G|].
  intros a Ha Hf. destruct (Hd a Ha) as [r0 [Hf0 Hfl]].
  rewrite Hf in Hf0. injection Hf0 as <-.
  assert (Hin : In a (filter (fun x => String.eqb (a_url x) (a_url a)) R)) by (rewrite Hfl; left; reflexivity).
  apply filter_In in Hin. exact (proj1 Hin).
Qed.

(** ** Instances of the theorems on concrete inputs *)

Lemma get_news_for_tickers_dedup_sorted_witness :
  exists R s',
    get_news_for_tickers shared_url_env ["AAPL"; "MSFT"] 7 [] = (Ok R, s') /\
    exists all_articles s1,
      gather_news (news_sources shared_url_env) ["AAPL"; "MSFT"] 7 [] = (Ok all_articles, s1) /\
      Sorted (fun x y => news_date_ge x y = true) R /\
      (forall r, In r R -> In r all_articles) /\
      (forall r, In r all_articles ->
         exists r0, find (fun x => String.eqb (a_url x) (a_url r)) all_articles = Some r0 /\
                    filter (fun x => String.eqb (a_url x) (a_url r)) R = [r0]).
Proof.
  assert (E : exists R s', get_news_for_tickers shared_url_env ["AAPL"; "MSFT"] 7 [] = (Ok R, s'))
    by (eexists; eexists; vm_compute; reflexivity).
  destruct E as [R [s' E]]. exists R, s'. split; [exact E|].
  exact (get_news_for_tickers_dedup_sorted shared_url_env ["AAPL"; "MSFT"] 7 [] R s' E).
Defined.

Lemma parse_news_date_never_none_witness :
  parse_news_date feb5_noon "xyz" = Some (naive feb5_noon) /\
  exists R s',
    get_news_for_tickers shared_url_env ["AAPL"; "MSFT"] 7 [] = (Ok R, s') /\
    forall a, In a R -> a_date a <> None.
Proof.
  split.
  - apply (proj1 (proj2 (proj2 parse_news_date_never_none)) feb5_noon "xyz");
      vm_compute; reflexivity.
  - assert (E : exists R s', get_news_for_tickers shared_url_env ["AAPL"; "MSFT"] 7 [] = (Ok R, s'))
      by (eexists; eexists; vm_compute; reflexivity).
    destruct E as [R [s' E]]. exists R, s'. split; [exact E|].
    exact (proj2 (proj2 (proj2 parse_news_date_never_none)) shared_url_env ["AAPL"; "MSFT"] 7 [] R s' E).
Defined.

Lemma date_normalizers_unparsed_results_witness :
  parse_news_date feb5_noon "xyz" = Some (naive feb5_noon) /\
  parse_finviz_date feb5 "xyz" = feb5 /\
  parse_date feb5 "xyz" = None.
Proof.
  split; [apply (proj1 date_normalizers_unparsed_results feb5_noon "xyz"); vm_compute; reflexivity|].
  split; [apply (proj1 (proj2 date_normalizers_unparsed_results) feb5 "xyz"); vm_compute; reflexivity|].
  apply (proj2 (proj2 date_normalizers_unparsed_results) feb5 "xyz"); vm_compute; reflexivity.
Defined.

Lemma earnings_adapters_date_filters_witness :
  In (mk_earning "META" "Meta Platforms" (parse_finviz_date feb5 "Thursday, February 1st") "AMC" "Finviz")
     (scrape_finviz_earnings finviz_past_env 30) /\
  parse_finviz_date feb5 "Thursday, February 1st" < feb5.
Proof.
  split; [|vm_compute; reflexivity].
  apply (proj2 (proj1 (proj2 (proj2 (proj2 (proj2 (earnings_adapters_date_filters finviz_past_env 30)))))
     _ [] (mk_cell "Thursday, February 1st" None true) [] []
     (mk_cell "AMC" None false) (mk_cell "META" (Some (mk_link "META" "")) false)
     (mk_cell "Meta Platforms" None false) [] (mk_link "META" "")
     eq_refl eq_refl eq_refl eq_refl eq_refl eq_refl)).
  vm_compute. discriminate.
Defined.

Lemma get_earnings_calendar_tickers_nonempty_witness :
  In (mk_earning "aapl" "Apple Inc." feb5 "BMO" "Finviz") (get_earnings_calendar finviz_lower_env 30) /\
  e_ticker (mk_earning "aapl" "Apple Inc." feb5 "BMO" "Finviz") <> "" /\
  ticker_from_page finviz_lower_env (mk_earning "aapl" "Apple Inc." feb5 "BMO" "Finviz").
Proof.
  assert (H : In (mk_earning "aapl" "Apple Inc." feb5 "BMO" "Finviz") (get_earnings_calendar finviz_lower_env 30))
    by (vm_compute; left; reflexivity).
  split; [exact H | exact (get_earnings_calendar_tickers_nonempty finviz_lower_env 30 _ H)].
Defined.

Lemma get_google_news_age_bound_witness :
  exists l s',
    get_google_news google_old_env "AAPL" 7 [] = (Ok l, s') /\ l <> [] /\
    (forall a d, In a l -> a_date a = Some d ->
       dt_off d = None /\ now google_old_env - dt_wall d < (7 + 1) * secs_per_day) /\
    (forall items it title link pub d,
       google_news_feed google_old_env "AAPL" = Some items -> In it (firstn 3 items) ->
       f_title it = Some title -> f_link it = Some link -> f_pub it = Some pub ->
       parse_news_date (now google_old_env) pub = Some d -> dt_off d = None ->
       now google_old_env - dt_wall d < (7 + 1) * secs_per_day ->
       exists a, In a l /\ a_ticker a = "AAPL" /\ a_title a = title /\ a_url a = link /\
                 a_date a = Some d /\ a_source a = "Google News").
Proof.
  assert (E : exists l s', get_google_news google_old_env "AAPL" 7 [] = (Ok l, s') /\ l <> [])
    by (eexists; eexists; split; [vm_compute; reflexivity | discriminate]).
  destruct E as [l [s' [E Hl]]]. exists l, s'. split; [exact E|]. split; [exact Hl|].
  exact (get_google_news_age_bound google_old_env "AAPL" 7 [] l s' E).
Defined.

Lemma news_failed_extraction_kept_witness :
  parse_article shared_url_env "https://finance.yahoo.com/news/big-tech.html" []
    = (Ok ("", ""), ["https://finance.yahoo.com/news/big-tech.html"]) /\
  (exists l s1,
     gather_news (news_sources shared_url_env) ["AAPL"] 7 [] = (Ok l, s1) /\ l <> [] /\
     forall a, In a l -> a_summary a = "" /\ a_full_text a = "") /\
  (exists R s' l s1,
     get_news_for_tickers shared_url_env ["AAPL"] 7 [] = (Ok R, s') /\
     gather_news (news_sources shared_url_env) ["AAPL"] 7 [] = (Ok l, s1) /\
     forall a, In a l -> In a R).
Proof.
  split.
  { apply (proj1 news_failed_extraction_kept shared_url_env
             "https://finance.yahoo.com/news/big-tech.html" []). reflexivity. }
  assert (G : exists l s1, gather_news (news_sources shared_url_env) ["AAPL"] 7 [] = (Ok l, s1) /\ l <> [])
    by (eexists; eexists; split; [vm_compute; reflexivity | discriminate]).
  destruct G as [l [s1 [G Hl]]].
  split.
  { exists l, s1. split; [exact G|]. split; [exact Hl|]. intros a Ha.
    apply (proj1 (proj2 (proj2 news_failed_extraction_kept)) shared_url_env ["AAPL"] 7 [] l s1 G a Ha).
    reflexivity. }
  assert (E : exists R s', get_news_for_tickers shared_url_env ["AAPL"] 7 [] = (Ok R, s'))
    by (eexists; eexists; vm_compute; reflexivity).
  destruct E as [R [s' E]].
  destruct (proj2 (proj2 (proj2 news_failed_extraction_kept)) shared_url_env ["AAPL"] 7 [] R s' E)
    as [l' [s1' [G' H]]].
  rewrite G in G'. injection G' as <- <-.
  exists R, s', l, s1. split; [exact E|]. split; [exact G|].
  intros a Ha. apply H; [exact Ha|].
  vm_compute in G. injection G as <- _. destruct Ha as [<- | []]. vm_compute. reflexivity.
Defined.

(** * Further properties of the scrapers and the dashboard *)

(** ** Finite ranges and parsed times *)

Lemma in_zseq (a x : Z) (n : nat) : a <= x < a + Z.of_nat n -> In x (zseq a n).
Proof.
  intros H. unfold zseq. apply in_map_iff. exists (Z.to_nat (x - a)).
  split; [lia | apply in_seq; lia].
Qed.

Lemma tm_eqb_eq (t u : tm) : tm_eqb t u = true -> t = u.
Proof.
  destruct t as [y m d h mi se o], u as [y' m' d' h' mi' se' o']; unfold tm_eqb; simpl.
  rewrite !andb_true_iff, !Z.eqb_eq. intros [[[[[[-> ->] ->] ->] ->] ->] Ho].
  destruct o, o'; try discriminate. reflexivity.
Qed.

Lemma days_in_month_bounds (y m : Z) : 28 <= days_in_month y m <= 31.
Proof. unfold days_in_month. repeat match goal with |- context [if ?b then _ else _] => destruct b end; lia. Qed.

(** 1900 is not a leap year: its months are never longer than another year's. *)
Lemma days_in_month_1900_le (y m : Z) : days_in_month 1900 m <= days_in_month y m.
Proof. unfold days_in_month. destruct (m =? 2); [destruct (is_leap y); simpl; lia | lia]. Qed.

Lemma tm_valid_intro (y m d hh mi ss : Z) (off : option Z) :
  1 <= y <= 9999 -> 1 <= m <= 12 -> 1 <= d <= days_in_month y m ->
  hh <= 23 -> mi <= 59 -> ss <= 59 -> tm_valid (mk_tm y m d hh mi ss off) = true.
Proof.
  intros. unfold tm_valid; simpl. repeat (apply andb_true_intro; split); apply Z.leb_le; lia.
Qed.

Lemma finviz_try_none (cy : Z) (s : string) (fmts : list string) :
  (forall f, In f fmts -> strptime s f = None) -> finviz_try cy s fmts = None.
Proof.
  induction fmts as [|f fs IH]; intros H; [reflexivity|]. simpl.
  rewrite (H f (or_introl eq_refl)). apply IH. intros g Hg. apply H. right. exact Hg.
Qed.

(** ** Finviz date headers *)

Lemma finviz_headers_parse :
  forallb (fun w => forallb (fun m => forallb (fun d => (days_in_month 1900 m <? d) || finviz_header_parses w m d)
                                              (zseq 1 31)) (zseq 1 12)) weekday_names = true.
Proof. vm_compute. reflexivity. Qed.

Lemma finviz_header_strptime (w : string) (m d : Z) :
  In w weekday_names -> 1 <= m <= 12 -> 1 <= d <= days_in_month 1900 m ->
  strptime (strip_ordinals (strip (finviz_header w m d))) "%A, %B %d" = Some (mk_tm 1900 m d 0 0 0 None).
Proof.
  intros Hw Hm Hd. pose proof finviz_headers_parse as H.
  rewrite forallb_forall in H. specialize (H w Hw). rewrite forallb_forall in H.
  specialize (H m (in_zseq 1 m 12 ltac:(simpl; lia))). rewrite forallb_forall in H.
  pose proof (days_in_month_bounds 1900 m).
  specialize (H d (in_zseq 1 d 31 ltac:(simpl; lia))).
  apply orb_true_iff in H. destruct H as [H|H]; [apply Z.ltb_lt in H; lia|].
  unfold finviz_header_parses in H.
  destruct (strptime _ _) as [t|]; [apply tm_eqb_eq in H; subst; reflexivity | discriminate].
Qed.

(** X1: a Finviz header "<Weekday>, <Month> <day><suffix>" resolves to that
    month and day of the current year, whatever the weekday name says. *)
Theorem parse_finviz_date_header (today : Z) (w : string) (m d : Z) :
  In w weekday_names -> 1 <= m <= 12 -> 1 <= d <= days_in_month 1900 m ->
  1 <= year_of_days today <= 9999 ->
  parse_finviz_date today (finviz_header w m d) = days_from_civil (year_of_days today) m d.
Proof.
  intros Hw Hm Hd Hy. unfold parse_finviz_date, finviz_formats.
  cbn [finviz_try]. rewrite (finviz_header_strptime w m d Hw Hm Hd).
  cbn [tm_year]. rewrite Z.eqb_refl.
  pose proof (days_in_month_1900_le (year_of_days today) m).
  unfold set_year; cbn [tm_mon tm_day tm_hour tm_min tm_sec tm_off].
  rewrite tm_valid_intro by lia. reflexivity.
Qed.

(** X2: a Finviz header for February 29 falls back to today, in a leap year
    as in any other: [strptime] reads it in the default year 1900, which has
    no February 29. *)
Theorem parse_finviz_date_feb29 (today : Z) (w : string) :
  In w weekday_names ->
  parse_finviz_date today (finviz_header w 2 29) = today /\
  parse_finviz_date today "February 29th" = today.
Proof.
  intros Hw. unfold parse_finviz_date. split.
  - rewrite finviz_try_none; [reflexivity|].
    intros f Hf. simpl in Hw, Hf.
    destruct Hw as [<-|[<-|[<-|[<-|[<-|[<-|[<-|[]]]]]]]];
      destruct Hf as [<-|[<-|[<-|[<-|[]]]]]; vm_compute; reflexivity.
  - rewrite finviz_try_none; [reflexivity|].
    intros f Hf. simpl in Hf. destruct Hf as [<-|[<-|[<-|[<-|[]]]]]; vm_compute; reflexivity.
Qed.

(** ** Relative news timestamps *)

Lemma rel_texts_parse : forallb (fun n => forallb (rel_text_parses n) rel_units) (zseq 0 1000) = true.
Proof. vm_compute. reflexivity. Qed.

(** X3: "<n> hour(s) ago", "<n> day(s) ago" and "<n> minute(s) ago" are dated
    [n] units before now. *)
Theorem parse_news_date_relative (now n : Z) (unit : string) (secs : Z) :
  In (unit, secs) rel_units -> 0 <= n < 1000 -> min_wall <= now - n * secs ->
  parse_news_date now (rel_text n unit) = Some (naive (now - n * secs)).
Proof.
  intros Hu Hn Hw. pose proof rel_texts_parse as H. rewrite forallb_forall in H.
  specialize (H n (in_zseq 0 n 1000 ltac:(simpl; lia))). rewrite forallb_forall in H.
  specialize (H _ Hu). unfold rel_text_parses in H. cbn [fst snd] in H. cbv zeta in H.
  set (s := strip (rel_text n unit)) in *.
  rewrite !andb_true_iff in H. destruct H as [[[He Hf] Hc] Hd].
  unfold parse_news_date. apply negb_true_iff in He. rewrite He. fold s.
  destruct (try_formats s news_formats); [discriminate|].
  unfold relative_ago. destruct (search_digits s) as [k|]; [|discriminate].
  apply Z.eqb_eq in Hd. subst k.
  destruct (contains "hour" (lower s)); [|destruct (contains "day" (lower s)); [|destruct (contains "minute" (lower s))]];
    try discriminate; apply Z.eqb_eq in Hc; subst secs;
    match goal with |- context [?w <? min_wall] => destruct (Z.ltb_spec w min_wall); [lia | reflexivity] end.
Qed.

(** ** Texts without digits *)

Lemma first_some_in {A B} (f : A -> option B) (l : list A) (b : B) :
  first_some f l = Some b -> exists x, In x l /\ f x = Some b.
Proof.
  induction l as [|x r IH]; simpl; [discriminate|].
  destruct (f x) eqn:E.
  - intros H. injection H as <-. exists x. split; [left; reflexivity | exact E].
  - intros H. destruct (IH H) as [y [Hy Hf]]. exists y. split; [right; exact Hy | exact Hf].
Qed.

Lemma take_ci_suffix (p l r : list ascii) : take_ci p l = Some r -> exists q, l = q ++ r.
Proof.
  revert l. induction p as [|a p IH]; intros l H; simpl in H.
  - injection H as <-. exists []. reflexivity.
  - destruct l as [|b l]; [discriminate|].
    destruct (Ascii.eqb _ _); [|discriminate].
    destruct (IH l H) as [q ->]. exists (b :: q). reflexivity.
Qed.

Lemma name_cands_suffix (ns : list string) (i : Z) (l : list ascii) (v : Z) (r : list ascii) :
  In (v, r) (name_cands ns i l) -> exists q, l = q ++ r.
Proof.
  revert i. induction ns as [|n ns IH]; intros i H; simpl in H; [destruct H|].
  destruct (take_ci (list_ascii_of_string n) l) as [r'|] eqn:E.
  - destruct H as [H|H]; [injection H as _ <-; exact (take_ci_suffix _ _ _ E) | exact (IH _ H)].
  - exact (IH _ H).
Qed.

Lemma space_cands_suffix (l r : list ascii) : In r (space_cands l) -> exists q, l = q ++ r.
Proof.
  induction l as [|c l IH]; simpl; [intros []|].
  destruct (is_space c); [|intros []].
  intros H. apply in_app_or in H. destruct H as [H|[<-|[]]].
  - destruct (IH H) as [q ->]. exists (c :: q). reflexivity.
  - exists [c]. reflexivity.
Qed.

Lemma two_digits_shape (l : list ascii) (x y : Z) (r : list ascii) :
  two_digits l = Some (x, y, r) -> exists a b, l = a :: b :: r /\ is_digit a = true.
Proof.
  unfold two_digits. destruct l as [|a [|b r']]; try discriminate.
  destruct (digit_val a) eqn:Ea, (digit_val b); try discriminate.
  intros H. injection H as _ _ <-. exists a, b. split; [reflexivity|]. unfold is_digit. rewrite Ea. reflexivity.
Qed.

Lemma off_cands_suffix (l : list ascii) (v : Z) (r : list ascii) :
  In (v, r) (off_cands l) -> exists q, l = q ++ r.
Proof.
  unfold off_cands. destruct l as [|c l]; [intros []|].
  destruct (Ascii.eqb c "Z"%char) eqn:Ez.
  - apply Ascii.eqb_eq in Ez. subst c. intros [H|[]]. injection H as _ <-. exists ["Z"%char]. reflexivity.
  - assert (Hc : match c with "Z"%char => True | _ => False end -> False).
    { intros Hz. destruct c as [[] [] [] [] [] [] [] []]; try destruct Hz. discriminate. }
    assert (Hgen : forall s0, In (v, r) (match s0, two_digits l with
        | Some s, Some (h1, h2, r1) =>
            let r1' := match r1 with ":"%char :: r2 => r2 | _ => r1 end in
            match two_digits r1' with
            | Some (m1, m2, r3) =>
                if m1 <=? 5 then [(s * ((10 * h1 + h2) * 3600 + (10 * m1 + m2) * 60), r3)] else []
            | None => []
            end
        | _, _ => []
        end) -> exists q, c :: l = q ++ r).
    { intros s0 H. destruct s0 as [s0|]; [|destruct H].
      destruct (two_digits l) as [[[h1 h2] r1]|] eqn:E1; [|destruct H].
      destruct (two_digits_shape _ _ _ _ E1) as [a [b [-> _]]].
      cbv zeta in H.
      set (r1' := match r1 with ":"%char :: r2 => r2 | _ => r1 end) in H.
      assert (Hr1 : exists q, r1 = q ++ r1') by
        (unfold r1'; destruct r1 as [|d r2]; [exists []; reflexivity|];
         destruct (Ascii.eqb d ":"%char) eqn:Ed;
         [apply Ascii.eqb_eq in Ed; subst d; exists [":"%char]; reflexivity|];
         exists []; destruct d as [[] [] [] [] [] [] [] []]; try reflexivity; discriminate).
      destruct (two_digits r1') as [[[m1 m2] r3]|] eqn:E2; [|destruct H].
      destruct (m1 <=? 5); [|destruct H]. destruct H as [H|[]]. injection H as _ <-.
      destruct (two_digits_shape _ _ _ _ E2) as [d1 [d2 [E3 _]]].
      destruct Hr1 as [q Hq]. rewrite E3 in Hq. subst r1.
      exists (c :: a :: b :: q ++ [d1; d2]). simpl. rewrite <- app_assoc. reflexivity. }
    destruct c as [[] [] [] [] [] [] [] []]; try (apply Hgen); discriminate.
Qed.

Lemma map_pair_in {A B C} (g : A -> B) (c : list (A * C)) (b : B) (r : C) :
  In (b, r) (map (fun '(v, r0) => (g v, r0)) c) -> exists v, In (v, r) c.
Proof.
  intros H. apply in_map_iff in H. destruct H as [[v r0] [E Hv]]. injection E as _ <-.
  exists v. exact Hv.
Qed.

Lemma one_digit_shape (l : list ascii) (x : Z) (r : list ascii) :
  one_digit l = Some (x, r) -> exists a, l = a :: r /\ is_digit a = true.
Proof.
  unfold one_digit. destruct l as [|a r']; [discriminate|].
  destruct (digit_val a) eqn:Ea; [|discriminate].
  intros H. injection H as _ <-. exists a. split; [reflexivity|]. unfold is_digit. rewrite Ea. reflexivity.
Qed.

Lemma num_cands_shape (ok2 : Z -> Z -> bool) (lo : Z) (l : list ascii) (v : Z) (r : list ascii) :
  In (v, r) (num_cands ok2 lo l) -> exists a q, l = a :: q ++ r /\ is_digit a = true.
Proof.
  unfold num_cands. intros H. apply in_app_or in H. destruct H as [H|H].
  - destruct (two_digits l) as [[[x y] r1]|] eqn:E; [|destruct H].
    destruct (ok2 x y); [|destruct H]. destruct H as [H|[]]. injection H as _ <-.
    destruct (two_digits_shape _ _ _ _ E) as [a [b [-> Ha]]]. exists a, [b]. split; [reflexivity | exact Ha].
  - destruct (one_digit l) as [[x r1]|] eqn:E; [|destruct H].
    destruct (lo <=? x); [|destruct H]. destruct H as [H|[]]. injection H as _ <-.
    destruct (one_digit_shape _ _ _ E) as [a [-> Ha]]. exists a, []. split; [reflexivity | exact Ha].
Qed.

Lemma year4_cands_shape (l : list ascii) (v : Z) (r : list ascii) :
  In (v, r) (year4_cands l) -> exists a q, l = a :: q ++ r /\ is_digit a = true.
Proof.
  unfold year4_cands. destruct l as [|a [|b [|c [|d r']]]]; try (intros Hf; exact (False_ind _ Hf)).
  destruct (digit_val a) eqn:Ea, (digit_val b), (digit_val c), (digit_val d);
    try (intros Hf; exact (False_ind _ Hf)).
  intros [H|[]]. injection H as _ <-. exists a, [b; c; d]. split; [reflexivity|].
  unfold is_digit. rewrite Ea. reflexivity.
Qed.

(** What a directive consumes is a prefix of the input, holding a digit
    when the directive is numeric. *)
Lemma step_consumes (d : directive) (l : list ascii) (t t' : tm) (r : list ascii) :
  In (t', r) (step d l t) ->
  exists q, l = q ++ r /\ (numeric d = true -> exists c, In c q /\ is_digit c = true).
Proof.
  assert (Hnum : forall q, (exists a q', q = a :: q' /\ is_digit a = true) ->
                 exists c, In c q /\ is_digit c = true).
  { intros q [a [q' [-> Ha]]]. exists a. split; [left; reflexivity | exact Ha]. }
  destruct d; cbv zeta; cbn [step numeric]; intros H.
  - apply map_pair_in in H. destruct H as [v H].
    destruct (year4_cands_shape _ _ _ H) as [a [q [-> Ha]]].
    exists (a :: q). split; [reflexivity|]. intros _. apply Hnum. exists a, q. split; [reflexivity | exact Ha].
  - apply map_pair_in in H. destruct H as [v H]. apply in_map_iff in H.
    destruct H as [[v0 r0] [E H]]. injection E as _ <-.
    destruct (two_digits l) as [[[x y] r1]|] eqn:E2; [|destruct H].
    destruct H as [H|[]]. injection H as _ <-.
    destruct (two_digits_shape _ _ _ _ E2) as [a [b [-> Ha]]].
    exists [a; b]. split; [reflexivity|]. intros _. exists a. split; [left; reflexivity | exact Ha].
  - apply map_pair_in in H. destruct H as [v H].
    destruct (num_cands_shape _ _ _ _ _ H) as [a [q [-> Ha]]].
    exists (a :: q). split; [reflexivity|]. intros _. apply Hnum. exists a, q. split; [reflexivity | exact Ha].
  - apply map_pair_in in H. destruct H as [v H]. apply in_app_or in H. destruct H as [H|H].
    + destruct (num_cands_shape _ _ _ _ _ H) as [a [q [-> Ha]]].
      exists (a :: q). split; [reflexivity|]. intros _. apply Hnum. exists a, q. split; [reflexivity | exact Ha].
    + destruct l as [|c l]; [destruct H|].
      assert (Hsp : forall l0, In (v, r) (match one_digit l0 with
                                          | Some (x, r') => if 1 <=? x then [(x, r')] else []
                                          | None => [] end) ->
                    exists q, c :: l0 = q ++ r /\ (true = true -> exists c0, In c0 q /\ is_digit c0 = true)).
      { intros l0 H0. destruct (one_digit l0) as [[x r1]|] eqn:E1; [|destruct H0].
        destruct (1 <=? x); [|destruct H0]. destruct H0 as [H0|[]]. injection H0 as _ <-.
        destruct (one_digit_shape _ _ _ E1) as [a [-> Ha]].
        exists [c; a]. split; [reflexivity|]. intros _. exists a. split; [right; left; reflexivity | exact Ha]. }
      destruct c as [[] [] [] [] [] [] [] []]; try (apply Hsp; exact H); destruct H.
  - apply map_pair_in in H. destruct H as [v H]. destruct (name_cands_suffix _ _ _ _ _ H) as [q ->].
    exists q. split; [reflexivity | discriminate].
  - apply map_pair_in in H. destruct H as [v H]. destruct (name_cands_suffix _ _ _ _ _ H) as [q ->].
    exists q. split; [reflexivity | discriminate].
  - apply in_map_iff in H. destruct H as [[v r0] [E H]]. injection E as _ <-.
    destruct (name_cands_suffix _ _ _ _ _ H) as [q ->]. exists q. split; [reflexivity | discriminate].
  - apply in_map_iff in H. destruct H as [[v r0] [E H]]. injection E as _ <-.
    destruct (name_cands_suffix _ _ _ _ _ H) as [q ->]. exists q. split; [reflexivity | discriminate].
  - apply map_pair_in in H. destruct H as [v H].
    destruct (num_cands_shape _ _ _ _ _ H) as [a [q [-> Ha]]].
    exists (a :: q). split; [reflexivity|]. intros _. apply Hnum. exists a, q. split; [reflexivity | exact Ha].
  - apply map_pair_in in H. destruct H as [v H].
    destruct (num_cands_shape _ _ _ _ _ H) as [a [q [-> Ha]]].
    exists (a :: q). split; [reflexivity|]. intros _. apply Hnum. exists a, q. split; [reflexivity | exact Ha].
  - apply map_pair_in in H. destruct H as [v H].
    destruct (num_cands_shape _ _ _ _ _ H) as [a [q [-> Ha]]].
    exists (a :: q). split; [reflexivity|]. intros _. apply Hnum. exists a, q. split; [reflexivity | exact Ha].
  - apply in_map_iff in H. destruct H as [[v r0] [E H]]. injection E as _ <-.
    destruct (name_cands_suffix _ _ _ _ _ H) as [q ->]. exists q. split; [reflexivity | discriminate].
  - apply in_map_iff in H. destruct H as [[v r0] [E H]]. injection E as _ <-.
    destruct (off_cands_suffix _ _ _ H) as [q ->]. exists q. split; [reflexivity | discriminate].
  - apply in_map_iff in H. destruct H as [r0 [E H]]. injection E as _ <-.
    destruct (space_cands_suffix _ _ H) as [q ->]. exists q. split; [reflexivity | discriminate].
  - destruct l as [|c' l]; [destruct H|].
    destruct (Ascii.eqb _ _); [|destruct H]. destruct H as [H|[]]. injection H as _ <-.
    exists [c']. split; [reflexivity | discriminate].
Qed.

Lemma match_fmt_digit (ds : list directive) (l : list ascii) (t t' : tm) :
  match_fmt ds l t = Some t' -> existsb numeric ds = true -> exists c, In c l /\ is_digit c = true.
Proof.
  revert l t. induction ds as [|d ds IH]; intros l t H Hn; [discriminate|].
  cbn [match_fmt] in H. apply first_some_in in H. destruct H as [[t1 r] [Hin Hm]].
  destruct (step_consumes _ _ _ _ _ Hin) as [q [-> Hq]].
  simpl in Hn. destruct (numeric d) eqn:Ed.
  - destruct (Hq eq_refl) as [c [Hc Hd]]. exists c. split; [apply in_or_app; left; exact Hc | exact Hd].
  - destruct (IH r t1 Hm Hn) as [c [Hc Hd]]. exists c. split; [apply in_or_app; right; exact Hc | exact Hd].
Qed.

Lemma no_digit_spec (s : string) :
  no_digit s = true <-> (forall c, In c (list_ascii_of_string s) -> is_digit c = false).
Proof.
  unfold no_digit. rewrite forallb_forall. split; intros H c Hc; specialize (H c Hc).
  - apply negb_true_iff in H. exact H.
  - rewrite H. reflexivity.
Qed.

Lemma try_formats_no_digit (s : string) (fmts : list string) :
  (forall c, In c (list_ascii_of_string s) -> is_digit c = false) ->
  forallb (fun f => existsb numeric (compile_fmt f)) fmts = true ->
  try_formats s fmts = None.
Proof.
  intros Hs. induction fmts as [|f fs IH]; intros Hf; [reflexivity|].
  simpl in Hf. apply andb_true_iff in Hf. destruct Hf as [Hf Hfs]. simpl.
  unfold strptime at 1. destruct (match_fmt _ _ _) as [t|] eqn:E.
  - destruct (match_fmt_digit _ _ _ _ E Hf) as [c [Hc Hd]]. rewrite (Hs c Hc) in Hd. discriminate.
  - apply IH. exact Hfs.
Qed.

Lemma lstrip_l_suffix (l : list ascii) : exists q, l = q ++ lstrip_l l.
Proof.
  induction l as [|c r IH]; simpl; [exists []; reflexivity|].
  destruct (is_space c); [destruct IH as [q Hq]; exists (c :: q); simpl; rewrite <- Hq; reflexivity|].
  exists []. reflexivity.
Qed.

Lemma in_strip (c : ascii) (s : string) :
  In c (list_ascii_of_string (strip s)) -> In c (list_ascii_of_string s).
Proof.
  unfold strip. rewrite list_ascii_of_string_of_list_ascii. intros H.
  apply in_rev in H. set (l := lstrip_l (list_ascii_of_string s)) in *.
  destruct (lstrip_l_suffix (rev l)) as [q Hq]. assert (H1 : In c (rev l)) by (rewrite Hq; apply in_or_app; right; exact H).
  apply in_rev in H1. destruct (lstrip_l_suffix (list_ascii_of_string s)) as [q' Hq'].
  rewrite Hq'. apply in_or_app. right. exact H1.
Qed.

Lemma search_digits_none (l : list ascii) :
  (forall c, In c l -> is_digit c = false) -> search_digits_l l = None.
Proof.
  induction l as [|c r IH]; intros H; [reflexivity|]. simpl.
  pose proof (H c (or_introl eq_refl)) as Hc. unfold is_digit in Hc.
  destruct (digit_val c); [discriminate|]. apply IH. intros d Hd. apply H. right. exact Hd.
Qed.

Lemma news_formats_numeric : forallb (fun f => existsb numeric (compile_fmt f)) news_formats = true.
Proof. vm_compute. reflexivity. Qed.

Lemma earnings_formats_numeric : forallb (fun f => existsb numeric (compile_fmt f)) earnings_formats = true.
Proof. vm_compute. reflexivity. Qed.

(** X4: a news timestamp without any digit ("Yesterday", "Just now", "a day
    ago", ...) is dated now: every format needs a digit, and a relative
    phrase without a number makes [re.search] return [None]. *)
Theorem parse_news_date_no_digit (now : Z) (s : string) :
  no_digit s = true -> parse_news_date now s = Some (naive now).
Proof.
  intros Hs. pose proof (proj1 (no_digit_spec s) Hs) as Hs0. clear Hs. rename Hs0 into Hs. unfold parse_news_date.
  destruct (is_empty s); [reflexivity|]. cbv zeta.
  assert (Hst : forall c, In c (list_ascii_of_string (strip s)) -> is_digit c = false)
    by (intros c Hc; apply Hs, in_strip, Hc).
  rewrite (try_formats_no_digit _ _ Hst news_formats_numeric).
  unfold relative_ago, search_digits. rewrite (search_digits_none _ Hst).
  repeat match goal with |- context [if ?b then _ else _] => destruct b end; reflexivity.
Qed.

(** X5: an earnings date text without any digit is read only through the
    words "today", "tomorrow" and "yesterday", in that order and ignoring
    case; any other such text gives [None]. *)
Theorem parse_date_no_digit (today : Z) (s : string) :
  no_digit s = true ->
  parse_date today s =
    (if contains "today" (lower (strip s)) then Some today
     else if contains "tomorrow" (lower (strip s)) then Some (today + 1)
     else if contains "yesterday" (lower (strip s)) then Some (today - 1)
     else None).
Proof.
  intros Hs. pose proof (proj1 (no_digit_spec s) Hs) as Hs0. clear Hs. rename Hs0 into Hs. unfold parse_date. cbv zeta.
  assert (Hst : forall c, In c (list_ascii_of_string (strip s)) -> is_digit c = false)
    by (intros c Hc; apply Hs, in_strip, Hc).
  rewrite (try_formats_no_digit _ _ Hst earnings_formats_numeric). reflexivity.
Qed.

Lemma parse_news_date_no_digit_witness :
  no_digit "Yesterday" = true /\ parse_news_date 0 "Yesterday" = Some (naive 0).
Proof. split; [vm_compute; reflexivity | apply parse_news_date_no_digit; vm_compute; reflexivity]. Defined.

Lemma parse_date_no_digit_witness :
  no_digit " Tomorrow " = true /\
  parse_date 10 " Tomorrow " =
    (if contains "today" (lower (strip " Tomorrow ")) then Some 10
     else if contains "tomorrow" (lower (strip " Tomorrow ")) then Some (10 + 1)
     else if contains "yesterday" (lower (strip " Tomorrow ")) then Some (10 - 1)
     else None).
Proof. split; [vm_compute; reflexivity | apply parse_date_no_digit; vm_compute; reflexivity]. Defined.


Ltac enum_zseq H :=
  repeat (destruct H as [<-|H]; [eexists; reflexivity|]); destruct H.

Lemma digit_char_val (k : Z) : 0 <= k <= 9 -> digit_val (digit_char k) = Some k.
Proof.
  intros Hk. assert (H : In k (zseq 0 10)) by (apply in_zseq; simpl; lia).
  cbv [zseq map seq] in H. simpl in H.
  repeat (destruct H as [<-|H]; [reflexivity|]); destruct H.
Qed.

Lemma year4_pad4 (y : Z) (r : list ascii) :
  0 <= y <= 9999 -> year4_cands (pad4 y ++ r) = [(y, r)].
Proof.
  intros Hy. unfold pad4, year4_cands. cbn [app].
  rewrite !digit_char_val by (Z.div_mod_to_equations; lia).
  do 2 f_equal. f_equal. Z.div_mod_to_equations; lia.
Qed.

Lemma step_Dm (m : Z) (r : list ascii) (t : tm) :
  1 <= m <= 12 -> exists rest, step Dm (pad2 m ++ r) t = (set_mon t m, r) :: rest.
Proof.
  intros Hm. assert (H : In m (zseq 1 12)) by (apply in_zseq; simpl; lia).
  cbv [zseq map seq] in H. simpl in H. enum_zseq H.
Qed.

Lemma step_Dd (d : Z) (r : list ascii) (t : tm) :
  1 <= d <= 31 -> exists rest, step Dd (pad2 d ++ r) t = (set_day t d, r) :: rest.
Proof.
  intros Hd. assert (H : In d (zseq 1 31)) by (apply in_zseq; simpl; lia).
  cbv [zseq map seq] in H. simpl in H. enum_zseq H.
Qed.

Lemma step_DH (h : Z) (r : list ascii) (t : tm) :
  0 <= h <= 23 -> exists rest, step DH (pad2 h ++ r) t = (set_hour t h, r) :: rest.
Proof.
  intros Hh. assert (H : In h (zseq 0 24)) by (apply in_zseq; simpl; lia).
  cbv [zseq map seq] in H. simpl in H. enum_zseq H.
Qed.

Lemma step_DM (mi : Z) (r : list ascii) (t : tm) :
  0 <= mi <= 59 -> exists rest, step DM (pad2 mi ++ r) t = (set_min t mi, r) :: rest.
Proof.
  intros Hm. assert (H : In mi (zseq 0 60)) by (apply in_zseq; simpl; lia).
  cbv [zseq map seq] in H. simpl in H. enum_zseq H.
Qed.

Lemma step_DS (s : Z) (r : list ascii) (t : tm) :
  0 <= s <= 59 -> exists rest, step DS (pad2 s ++ r) t = (set_sec t s, r) :: rest.
Proof.
  intros Hs. assert (H : In s (zseq 0 60)) by (apply in_zseq; simpl; lia).
  cbv [zseq map seq] in H. simpl in H. enum_zseq H.
Qed.

Lemma step_DY (y : Z) (r : list ascii) (t : tm) :
  0 <= y <= 9999 -> step DY (pad4 y ++ r) t = [(set_year t y, r)].
Proof. intros Hy. unfold step. rewrite (year4_pad4 y r Hy). reflexivity. Qed.

Lemma step_lit (c : ascii) (r : list ascii) (t : tm) : step (DLit c) (c :: r) t = [(t, r)].
Proof. simpl. rewrite Ascii.eqb_refl. reflexivity. Qed.

Lemma step_space_digit (k : Z) (r : list ascii) (t : tm) :
  0 <= k <= 9 -> step DSpace (" "%char :: digit_char k :: r) t = [(t, digit_char k :: r)].
Proof.
  intros Hk. assert (H : In k (zseq 0 10)) by (apply in_zseq; simpl; lia).
  cbv [zseq map seq] in H. simpl in H.
  repeat (destruct H as [<-|H]; [reflexivity|]); destruct H.
Qed.

Lemma digit_char_space (k : Z) : 0 <= k <= 9 -> is_space (digit_char k) = false.
Proof.
  intros Hk. assert (H : In k (zseq 0 10)) by (apply in_zseq; simpl; lia).
  cbv [zseq map seq] in H. simpl in H.
  repeat (destruct H as [<-|H]; [reflexivity|]); destruct H.
Qed.

Lemma strip_ends (a z : ascii) (m l : list ascii) :
  l = a :: m -> rev l = z :: rev (removelast l) -> is_space a = false -> is_space z = false ->
  strip (string_of_list_ascii l) = string_of_list_ascii l.
Proof.
  intros Hl Hr Ha Hz. unfold strip. rewrite list_ascii_of_string_of_list_ascii.
  assert (E1 : lstrip_l l = l) by (rewrite Hl; simpl; rewrite Ha; reflexivity).
  rewrite E1, Hr. simpl. rewrite Hz. rewrite <- Hr, rev_involutive. reflexivity.
Qed.

Lemma strip_iso_date (y m d : Z) :
  0 <= y <= 9999 -> 0 <= m <= 99 -> 0 <= d <= 99 -> strip (iso_date y m d) = iso_date y m d.
Proof.
  intros Hy Hm Hd. unfold iso_date. eapply strip_ends; [reflexivity | reflexivity | |].
  - apply digit_char_space. Z.div_mod_to_equations; lia.
  - apply digit_char_space. Z.div_mod_to_equations; lia.
Qed.

Lemma strptime_iso_date (y m d : Z) :
  1 <= y <= 9999 -> 1 <= m <= 12 -> 1 <= d <= days_in_month y m ->
  strptime (iso_date y m d) "%Y-%m-%d" = Some (mk_tm y m d 0 0 0 None).
Proof.
  intros Hy Hm Hd. pose proof (days_in_month_bounds y m).
  unfold strptime, iso_date. rewrite list_ascii_of_string_of_list_ascii.
  change (compile_fmt "%Y-%m-%d") with [DY; DLit "-"%char; Dm; DLit "-"%char; Dd]. cbn [match_fmt].
  rewrite step_DY by lia. cbn [first_some]. rewrite step_lit. cbn [first_some].
  destruct (step_Dm m ("-"%char :: pad2 d) (set_year tm0 y)) as [r1 E1]; [lia|]. rewrite E1.
  cbn [first_some]. rewrite step_lit. cbn [first_some].
  destruct (step_Dd d [] (set_mon (set_year tm0 y) m)) as [r2 E2]; [lia|].
  rewrite <- (app_nil_r (pad2 d)). rewrite E2. cbn [first_some match_fmt].
  unfold set_day, set_mon, set_year, tm0; cbn [tm_year tm_mon tm_day tm_hour tm_min tm_sec tm_off]. rewrite tm_valid_intro by lia. reflexivity.
Qed.

Lemma step_space_pad2 (k : Z) (r : list ascii) (t : tm) :
  0 <= k <= 99 -> step DSpace (" "%char :: pad2 k ++ r) t = [(t, pad2 k ++ r)].
Proof. intros Hk. unfold pad2. cbn [app]. apply step_space_digit. Z.div_mod_to_equations; lia. Qed.

Lemma strptime_iso_datetime (y m d hh mi ss : Z) :
  1 <= y <= 9999 -> 1 <= m <= 12 -> 1 <= d <= days_in_month y m ->
  0 <= hh <= 23 -> 0 <= mi <= 59 -> 0 <= ss <= 59 ->
  strptime (iso_datetime y m d hh mi ss) "%Y-%m-%d %H:%M:%S" = Some (mk_tm y m d hh mi ss None).
Proof.
  intros Hy Hm Hd Hh Hmi Hs. pose proof (days_in_month_bounds y m).
  unfold strptime, iso_datetime. rewrite list_ascii_of_string_of_list_ascii.
  change (compile_fmt "%Y-%m-%d %H:%M:%S")
    with [DY; DLit "-"%char; Dm; DLit "-"%char; Dd; DSpace; DH; DLit ":"%char; DM; DLit ":"%char; DS].
  cbn [match_fmt].
  rewrite step_DY by lia. cbn [first_some]. rewrite step_lit. cbn [first_some].
  match goal with |- context [step Dm (pad2 m ++ ?r) ?t] =>
    destruct (step_Dm m r t) as [r1 E1]; [lia|]; rewrite E1 end.
  cbn [first_some]. rewrite step_lit. cbn [first_some].
  match goal with |- context [step Dd (pad2 d ++ ?r) ?t] =>
    destruct (step_Dd d r t) as [r2 E2]; [lia|]; rewrite E2 end.
  cbn [first_some]. rewrite step_space_pad2 by lia. cbn [first_some].
  match goal with |- context [step DH (pad2 hh ++ ?r) ?t] =>
    destruct (step_DH hh r t) as [r3 E3]; [lia|]; rewrite E3 end.
  cbn [first_some]. rewrite step_lit. cbn [first_some].
  match goal with |- context [step DM (pad2 mi ++ ?r) ?t] =>
    destruct (step_DM mi r t) as [r4 E4]; [lia|]; rewrite E4 end.
  cbn [first_some]. rewrite step_lit. cbn [first_some].
  rewrite <- (app_nil_r (pad2 ss)).
  match goal with |- context [step DS (pad2 ss ++ ?r) ?t] =>
    destruct (step_DS ss r t) as [r5 E5]; [lia|]; rewrite E5 end.
  cbn [first_some match_fmt].
  unfold set_sec, set_min, set_hour, set_day, set_mon, set_year, tm0;
    cbn [tm_year tm_mon tm_day tm_hour tm_min tm_sec tm_off].
  rewrite tm_valid_intro by lia. reflexivity.
Qed.

Lemma strip_iso_datetime (y m d hh mi ss : Z) :
  0 <= y <= 9999 -> 0 <= ss <= 99 -> strip (iso_datetime y m d hh mi ss) = iso_datetime y m d hh mi ss.
Proof.
  intros Hy Hs. unfold iso_datetime. eapply strip_ends; [reflexivity | reflexivity | |].
  - apply digit_char_space. Z.div_mod_to_equations; lia.
  - apply digit_char_space. Z.div_mod_to_equations; lia.
Qed.

(** X6: an ISO date text "YYYY-MM-DD" of a valid date is read by the
    first format of [_parse_date] as that date. *)
Theorem parse_date_iso (today y m d : Z) :
  1 <= y <= 9999 -> 1 <= m <= 12 -> 1 <= d <= days_in_month y m ->
  parse_date today (iso_date y m d) = Some (days_from_civil y m d).
Proof.
  intros Hy Hm Hd. pose proof (days_in_month_bounds y m). unfold parse_date.
  rewrite strip_iso_date by lia. unfold earnings_formats. cbn [try_formats].
  rewrite strptime_iso_date by lia. reflexivity.
Qed.

(** X7: the text "YYYY-MM-DD HH:MM:SS" of a valid naive timestamp is read
    by the first format of [_parse_news_date] as that timestamp. *)
Theorem parse_news_date_iso (now y m d hh mi ss : Z) :
  1 <= y <= 9999 -> 1 <= m <= 12 -> 1 <= d <= days_in_month y m ->
  0 <= hh <= 23 -> 0 <= mi <= 59 -> 0 <= ss <= 59 ->
  parse_news_date now (iso_datetime y m d hh mi ss) =
    Some (naive (days_from_civil y m d * secs_per_day + hh * 3600 + mi * 60 + ss)).
Proof.
  intros Hy Hm Hd Hh Hmi Hs. unfold parse_news_date.
  replace (is_empty (iso_datetime y m d hh mi ss)) with false by reflexivity. cbv zeta.
  rewrite strip_iso_datetime by lia. unfold news_formats. cbn [try_formats].
  rewrite strptime_iso_datetime by lia. reflexivity.
Qed.

Lemma parse_date_iso_witness :
  parse_date 0 (iso_date 2024 2 29) = Some (days_from_civil 2024 2 29).
Proof. apply parse_date_iso; vm_compute; try split; discriminate. Defined.

Lemma parse_news_date_iso_witness :
  parse_news_date 0 (iso_datetime 2024 2 29 23 59 58) =
    Some (naive (days_from_civil 2024 2 29 * secs_per_day + 23 * 3600 + 59 * 60 + 58)).
Proof. apply parse_news_date_iso; vm_compute; try split; discriminate. Defined.

Lemma parse_finviz_date_header_witness :
  parse_finviz_date feb5 (finviz_header "Monday" 2 5) = days_from_civil (year_of_days feb5) 2 5.
Proof. apply parse_finviz_date_header; [simpl; auto | lia | vm_compute; split; discriminate | vm_compute; split; discriminate]. Defined.

Lemma parse_finviz_date_feb29_witness :
  parse_finviz_date feb5 (finviz_header "Thursday" 2 29) = feb5 /\
  parse_finviz_date feb5 "February 29th" = feb5.
Proof. apply parse_finviz_date_feb29. simpl; auto. Defined.

Lemma parse_news_date_relative_witness :
  parse_news_date feb5_noon (rel_text 2 "hours") = Some (naive (feb5_noon - 2 * 3600)).
Proof. apply parse_news_date_relative; [simpl; auto | lia | vm_compute; discriminate]. Defined.




(** ** Investing.com titles *)


Lemma list_ascii_of_string_append (a b : string) :
  list_ascii_of_string (append a b) = list_ascii_of_string a ++ list_ascii_of_string b.
Proof. induction a as [|c a IH]; simpl; [reflexivity | rewrite IH; reflexivity]. Qed.

Lemma contains_char (c : ascii) (s : string) :
  contains (String c EmptyString) s = existsb (Ascii.eqb c) (list_ascii_of_string s).
Proof.
  induction s as [|a s IH]; [reflexivity|]. simpl contains. rewrite IH. simpl.
  destruct (ascii_dec c a) as [<-|Hne].
  - rewrite Ascii.eqb_refl. destruct s; reflexivity.
  - replace (Ascii.eqb c a) with false by (symmetry; apply Ascii.eqb_neq; exact Hne). reflexivity.
Qed.

Lemma after_last_paren_app (cur l1 l2 : list ascii) :
  after_last_paren_l cur (l1 ++ "("%char :: l2) = after_last_paren_l [] l2.
Proof.
  revert cur. induction l1 as [|c l1 IH]; intros cur; [reflexivity|].
  simpl. destruct (Ascii.eqb c "("%char); apply IH.
Qed.

Lemma after_last_paren_none (cur l : list ascii) :
  existsb (fun c => Ascii.eqb c "("%char) l = false -> after_last_paren_l cur l = cur ++ l.
Proof.
  revert cur. induction l as [|c l IH]; intros cur H; simpl; [rewrite app_nil_r; reflexivity|].
  simpl in H. apply orb_false_iff in H. destruct H as [H1 H2]. rewrite H1, IH by exact H2.
  rewrite <- app_assoc. reflexivity.
Qed.

Lemma filter_no_close (l : list ascii) :
  existsb (fun c => Ascii.eqb c ")"%char) l = false ->
  filter (fun c => negb (Ascii.eqb c ")"%char)) l = l.
Proof.
  induction l as [|c l IH]; simpl; intros H; [reflexivity|].
  apply orb_false_iff in H. destruct H as [H1 H2]. rewrite H1, IH by exact H2. reflexivity.
Qed.

Lemma existsb_eqb_sym (c : ascii) (l : list ascii) :
  existsb (Ascii.eqb c) l = existsb (fun x => Ascii.eqb x c) l.
Proof. induction l as [|x l IH]; simpl; [reflexivity | rewrite IH, Ascii.eqb_sym; reflexivity]. Qed.

Lemma ticker_of_title_paren (company t : string) :
  existsb (fun c => Ascii.eqb c "("%char || Ascii.eqb c ")"%char) (list_ascii_of_string t) = false ->
  ticker_of_title (append company (append "(" (append t ")"))) = t.
Proof.
  intros Ht. unfold ticker_of_title.
  rewrite contains_char, list_ascii_of_string_append. cbn [list_ascii_of_string append].
  rewrite existsb_app. simpl existsb at 2. rewrite orb_true_r.
  rewrite list_ascii_of_string_append, after_last_paren_app.
  assert (Ho : existsb (fun c => Ascii.eqb c "("%char) (list_ascii_of_string t) = false).
  { apply not_true_iff_false. intros E. apply existsb_exists in E. destruct E as [x [Hx Ex]].
    apply not_true_iff_false in Ht. apply Ht, existsb_exists. exists x. rewrite Ex. split; [exact Hx | reflexivity]. }
  assert (Hc : existsb (fun c => Ascii.eqb c ")"%char) (list_ascii_of_string t) = false).
  { apply not_true_iff_false. intros E. apply existsb_exists in E. destruct E as [x [Hx Ex]].
    apply not_true_iff_false in Ht. apply Ht, existsb_exists. exists x. rewrite Ex, orb_true_r. split; [exact Hx | reflexivity]. }
  rewrite after_last_paren_none; cbn [app].
  - rewrite filter_app. rewrite filter_no_close by exact Hc. simpl.
    rewrite app_nil_r. apply string_of_list_ascii_of_string.
  - rewrite existsb_app, Ho. reflexivity.
Qed.

Lemma ticker_of_title_no_paren (title : string) :
  existsb (fun c => Ascii.eqb c "("%char) (list_ascii_of_string title) = false ->
  ticker_of_title title = "".
Proof.
  intros H. unfold ticker_of_title. rewrite contains_char, existsb_eqb_sym, H. reflexivity.
Qed.

(** X8: an Investing.com row whose company link has the title
    "<anything>(<T>)", with [T] free of parentheses, is recorded under the
    ticker [T], whatever its first cell holds. *)
Theorem investing_row_title_ticker (today : Z) (c0 c1 c2 c3 : cell) (rest : row) (company p t : string) :
  cell_link c1 = Some (mk_link company (append p (append "(" (append t ")")))) ->
  existsb (fun c => Ascii.eqb c "("%char || Ascii.eqb c ")"%char) (list_ascii_of_string t) = false ->
  is_empty t = false -> is_empty company = false ->
  investing_row today (c0 :: c1 :: c2 :: c3 :: rest) =
    Some (mk_earning t company today (cell_text c2) "Investing.com").
Proof.
  intros Hl Ht Hte Hc. unfold investing_row. rewrite Hl. cbn [link_text link_title].
  rewrite ticker_of_title_paren by exact Ht.
  destruct t; [discriminate|]. destruct company; [discriminate|]. reflexivity.
Qed.

(** X9: when the title of the company link has no "(", an Investing.com row
    takes its ticker from its first cell if that text has 1 to 5
    characters, and is dropped otherwise. *)
Theorem investing_row_symbol_cell (today : Z) (c0 c1 c2 c3 : cell) (rest : row) (a : link) :
  cell_link c1 = Some a ->
  existsb (fun c => Ascii.eqb c "("%char) (list_ascii_of_string (link_title a)) = false ->
  investing_row today (c0 :: c1 :: c2 :: c3 :: rest) =
    if negb (is_empty (cell_text c0)) && (String.length (cell_text c0) <=? 5)%nat
       && negb (is_empty (link_text a))
    then Some (mk_earning (cell_text c0) (link_text a) today (cell_text c2) "Investing.com")
    else None.
Proof.
  intros Hl Ht. unfold investing_row. rewrite Hl. rewrite ticker_of_title_no_paren by exact Ht.
  cbn [is_empty]. destruct (negb (is_empty (cell_text c0)) && _)%bool eqn:E; simpl.
  - apply andb_true_iff in E. destruct E as [E _]. apply negb_true_iff in E. rewrite E. reflexivity.
  - reflexivity.
Qed.

Lemma investing_row_title_ticker_witness :
  investing_row feb5 [mk_cell "" None false;
                      mk_cell "Apple Inc." (Some (mk_link "Apple Inc." "Apple Inc. (AAPL)")) false;
                      mk_cell "AMC" None false; mk_cell "" None false] =
    Some (mk_earning "AAPL" "Apple Inc." feb5 "AMC" "Investing.com").
Proof.
  apply (investing_row_title_ticker feb5 (mk_cell "" None false)
           (mk_cell "Apple Inc." (Some (mk_link "Apple Inc." "Apple Inc. (AAPL)")) false)
           (mk_cell "AMC" None false) (mk_cell "" None false) [] "Apple Inc." "Apple Inc. " "AAPL");
    reflexivity.
Defined.

Lemma investing_row_symbol_cell_witness :
  investing_row feb5 [mk_cell "AAPL" None false;
                      mk_cell "Apple Inc." (Some (mk_link "Apple Inc." "Apple Inc.")) false;
                      mk_cell "AMC" None false; mk_cell "" None false] =
    Some (mk_earning "AAPL" "Apple Inc." feb5 "AMC" "Investing.com").
Proof.
  rewrite (investing_row_symbol_cell feb5 (mk_cell "AAPL" None false)
             (mk_cell "Apple Inc." (Some (mk_link "Apple Inc." "Apple Inc.")) false)
             (mk_cell "AMC" None false) (mk_cell "" None false) [] (mk_link "Apple Inc." "Apple Inc."))
    by reflexivity.
  reflexivity.
Defined.

(** ** Finviz rows *)

Lemma finviz_rows_origin (today days_ahead : Z) (cur : option Z) (rows : list row) (e : earning) :
  In e (finviz_rows today days_ahead cur rows) ->
  (exists d mid r post, cur = Some d /\ rows = mid ++ r :: post /\ no_header mid = true /\
     finviz_row today days_ahead d r = Some e) \/
  (exists pre c mid r post, rows = pre ++ [c] :: mid ++ r :: post /\ cell_colspan c = true /\
     no_header mid = true /\ finviz_row today days_ahead (parse_finviz_date today (cell_text c)) r = Some e).
Proof.
  revert cur. induction rows as [|cells rest IH]; intros cur H; [destruct H|].
  assert (Hskip : In e (finviz_rows today days_ahead cur rest) -> is_header cells = false ->
    (exists d mid r post, cur = Some d /\ cells :: rest = mid ++ r :: post /\ no_header mid = true /\
       finviz_row today days_ahead d r = Some e) \/
    (exists pre c mid r post, cells :: rest = pre ++ [c] :: mid ++ r :: post /\ cell_colspan c = true /\
       no_header mid = true /\ finviz_row today days_ahead (parse_finviz_date today (cell_text c)) r = Some e)).
  { intros Hin Hh. destruct (IH cur Hin) as [[d [mid [r [post [Hc [-> [Hm Hr]]]]]]] | [pre [c [mid [r [post [-> [Hc [Hm Hr]]]]]]]]].
    - left. exists d, (cells :: mid), r, post. simpl. unfold no_header in *. simpl. rewrite Hh, Hm. auto.
    - right. exists (cells :: pre), c, mid, r, post. auto. }
  destruct cells as [|c [|c' cs]].
  - simpl in H. destruct cur as [d|]; [|apply Hskip; auto].
    simpl in H. apply Hskip; auto.
  - simpl in H. destruct (cell_colspan c) eqn:Ec.
    + destruct (IH _ H) as [[d [mid [r [post [Hc [-> [Hm Hr]]]]]]] | [pre [c1 [mid [r [post [-> [Hc [Hm Hr]]]]]]]]].
      * injection Hc as <-. right. exists [], c, mid, r, post. auto.
      * right. exists ([c] :: pre), c1, mid, r, post. auto.
    + apply Hskip; [exact H | simpl; exact Ec].
  - cbn [finviz_rows] in H. destruct cur as [d|]; [|apply Hskip; auto].
    destruct (finviz_row today days_ahead d (c :: c' :: cs)) as [e'|] eqn:Er; [|apply Hskip; auto].
    destruct H as [<-|H]; [|apply Hskip; auto].
    left. exists d, [], (c :: c' :: cs), rest. auto.
Qed.

(** X10: a Finviz record comes from a data row below a date header, with no
    other header between them, and carries that header's date. *)
Theorem scrape_finviz_earnings_from_header (env : earn_env) (days_ahead : Z) (e : earning) :
  In e (scrape_finviz_earnings env days_ahead) ->
  exists rows pre c mid r post,
    finviz_page env = Some rows /\ rows = pre ++ [c] :: mid ++ r :: post /\
    cell_colspan c = true /\ no_header mid = true /\
    finviz_row (today env) days_ahead (parse_finviz_date (today env) (cell_text c)) r = Some e.
Proof.
  unfold scrape_finviz_earnings. destruct (finviz_page env) as [rows|]; [|intros []].
  intros H. destruct (finviz_rows_origin _ _ _ _ _ H) as [[d [_ [_ [_ [Hc _]]]]] | [pre [c [mid [r [post H']]]]]].
  - discriminate.
  - exists rows, pre, c, mid, r, post. auto.
Qed.

Lemma scrape_finviz_earnings_from_header_witness :
  In (mk_earning "META" "Meta Platforms" (days_from_civil 2024 2 1) "AMC" "Finviz")
     (scrape_finviz_earnings finviz_past_env 30) /\
  exists rows pre c mid r post,
    finviz_page finviz_past_env = Some rows /\ rows = pre ++ [c] :: mid ++ r :: post /\
    cell_colspan c = true /\ no_header mid = true /\
    finviz_row (today finviz_past_env) 30 (parse_finviz_date (today finviz_past_env) (cell_text c)) r =
      Some (mk_earning "META" "Meta Platforms" (days_from_civil 2024 2 1) "AMC" "Finviz").
Proof.
  assert (H : In (mk_earning "META" "Meta Platforms" (days_from_civil 2024 2 1) "AMC" "Finviz")
                 (scrape_finviz_earnings finviz_past_env 30)) by (vm_compute; left; reflexivity).
  split; [exact H | exact (scrape_finviz_earnings_from_header finviz_past_env 30 _ H)].
Defined.

(** ** News adapters: downloads and article shapes *)

Ltac logs_step :=
  first [ left; reflexivity | right; left; reflexivity
        | right; right; unfold bind, parse_article, ret;
          match goal with |- exists _, (Ok (Some ?x), _) = _ => exists x; reflexivity end ].

Lemma items_loop_logs {I} (f : I -> M (option article)) (items : list I) :
  item_logs f -> logs_exact (items_loop f items).
Proof.
  intros Hf. induction items as [|it r IH]; intros s; simpl.
  - exists []. rewrite app_nil_r. reflexivity.
  - unfold bind at 1, try_except.
    destruct (Hf it s) as [E|[E|[a E]]]; rewrite E; unfold ret at 1; unfold bind;
      [destruct (IH s) as [l El] | destruct (IH s) as [l El] | destruct (IH (s ++ [a_url a])) as [l El]];
      rewrite El.
    + exists l. reflexivity.
    + exists l. reflexivity.
    + exists (a :: l). rewrite <- app_assoc. reflexivity.
Qed.

Lemma yahoo_item_logs env ticker : item_logs (yahoo_item env ticker).
Proof. intros it s. unfold yahoo_item. cbv zeta. split_all; logs_step. Qed.

Lemma marketwatch_item_logs env ticker : item_logs (marketwatch_item env ticker).
Proof. intros it s. unfold marketwatch_item. cbv zeta. split_all; logs_step. Qed.

Lemma google_item_logs env ticker days_back : item_logs (google_item env ticker days_back).
Proof. intros it s. unfold google_item. cbv zeta. split_all; logs_step. Qed.

Lemma news_sources_logs (env : news_env) :
  forall f, In f (news_sources env) -> forall t d, logs_exact (f t d).
Proof.
  intros f Hf t d. simpl in Hf. destruct Hf as [<- | [<- | [<- | []]]].
  - unfold get_yahoo_news. destruct (yahoo_news_page env t);
      [apply items_loop_logs, yahoo_item_logs | intros s; exists []; rewrite app_nil_r; reflexivity].
  - unfold get_marketwatch_news. destruct (marketwatch_news_page env t);
      [apply items_loop_logs, marketwatch_item_logs | intros s; exists []; rewrite app_nil_r; reflexivity].
  - unfold get_google_news. destruct (google_news_feed env t);
      [apply items_loop_logs, google_item_logs | intros s; exists []; rewrite app_nil_r; reflexivity].
Qed.

Lemma get_ticker_news_logs (sources : list (string -> Z -> M (list article))) (ticker : string) (days_back : Z) :
  (forall f, In f sources -> forall t d, logs_exact (f t d)) ->
  logs_exact (get_ticker_news sources ticker days_back).
Proof.
  intros Hs. induction sources as [|f fs IH]; intros s; simpl.
  - exists []. rewrite app_nil_r. reflexivity.
  - destruct (Hs f (or_introl eq_refl) ticker days_back s) as [l1 E1].
    unfold bind at 1, try_except. rewrite E1.
    destruct (IH (fun g Hg => Hs g (or_intror Hg)) (s ++ map a_url l1)) as [l2 E2].
    unfold bind. rewrite E2. exists (l1 ++ l2). rewrite map_app, app_assoc. reflexivity.
Qed.

Lemma gather_news_logs (sources : list (string -> Z -> M (list article))) (tickers : list string) (days_back : Z) :
  (forall f, In f sources -> forall t d, logs_exact (f t d)) ->
  logs_exact (gather_news sources tickers days_back).
Proof.
  intros Hs. induction tickers as [|t ts IH]; intros s; simpl.
  - exists []. rewrite app_nil_r. reflexivity.
  - destruct (get_ticker_news_logs sources t days_back Hs s) as [l1 E1].
    unfold bind at 1, try_except. rewrite E1.
    destruct (IH (s ++ map a_url l1)) as [l2 E2].
    unfold bind. rewrite E2. exists (l1 ++ l2). rewrite map_app, app_assoc. reflexivity.
Qed.

Lemma news_finalize_log (l : list article) (s : list string) : snd (news_finalize l s) = s.
Proof. unfold news_finalize. split_all; reflexivity. Qed.

(** X11: [_get_ticker_news] returns for every ticker, so the ticker loop
    never reaches its [except] branch; and [get_news_for_tickers] hands the
    extractor the url of every gathered article, once per gathered article
    (an article gathered twice is downloaded twice), and nothing else. *)
Theorem get_news_for_tickers_downloads (env : news_env) (tickers : list string) (days_back : Z) (s : list string) :
  (forall ticker s0, exists l, get_ticker_news (news_sources env) ticker days_back s0 = (Ok l, s0 ++ map a_url l)) /\
  exists all_articles,
    gather_news (news_sources env) tickers days_back s = (Ok all_articles, s ++ map a_url all_articles) /\
    snd (get_news_for_tickers env tickers days_back s) = s ++ map a_url all_articles.
Proof.
  split; [intros ticker s0; exact (get_ticker_news_logs _ ticker days_back (news_sources_logs env) s0)|].
  destruct (gather_news_logs _ tickers days_back (news_sources_logs env) s) as [l E].
  exists l. split; [exact E|]. unfold get_news_for_tickers, collect_news, bind. rewrite E.
  apply news_finalize_log.
Qed.

Lemma yahoo_item_shape env ticker :
  item_post (yahoo_item env ticker) (fun a => a_ticker a = ticker /\ article_shape a).
Proof.
  intros it. unfold yahoo_item. cbv zeta.
  destruct (it_anchor it) as [a|]; [|apply post_ret; discriminate].
  destruct (anc_href a) as [h|]; [|apply post_ret; discriminate].
  destruct (prefix "/" h) eqn:Ep;
    cbv iota beta;
    (destruct (negb (is_empty (it_title it)) && negb (is_empty _)) eqn:Ec; [|apply post_ret; discriminate]);
    (eapply post_bind; [apply post_parse_article | intros p _]); apply post_ret;
    intros a0 Ha0; injection Ha0 as <-; (split; [reflexivity|]); left; cbn [a_source a_title a_url];
    apply andb_true_iff in Ec; destruct Ec as [E1 E2]; apply negb_true_iff in E1, E2;
    (split; [reflexivity|]); (split; [exact E1|]); (split; [exact E2|]); [reflexivity | exact Ep].
Qed.

Lemma marketwatch_item_shape env ticker :
  item_post (marketwatch_item env ticker) (fun a => a_ticker a = ticker /\ article_shape a).
Proof.
  intros it. unfold marketwatch_item. cbv zeta.
  destruct (it_anchor it) as [a|]; [|apply post_ret; discriminate].
  destruct (anc_href a) as [h|]; [|apply post_ret; discriminate].
  destruct (negb (is_empty h) && negb (prefix "http" h)) eqn:Eh;
    cbv iota beta;
    (destruct (negb (is_empty (anc_text a)) && negb (is_empty _)) eqn:Ec; [|apply post_ret; discriminate]);
    (eapply post_bind; [apply post_parse_article | intros p _]); apply post_ret;
    intros a0 Ha0; injection Ha0 as <-; (split; [reflexivity|]); right; left; cbn [a_source a_title a_url];
    apply andb_true_iff in Ec; destruct Ec as [E1 E2]; apply negb_true_iff in E1, E2;
    (split; [reflexivity|]); (split; [exact E1|]).
  - reflexivity.
  - apply andb_false_iff in Eh. rewrite E2 in Eh. destruct Eh as [Eh|Eh]; [discriminate|].
    apply negb_false_iff in Eh. exact Eh.
Qed.

Lemma google_item_shape env ticker days_back :
  item_post (google_item env ticker days_back) (fun a => a_ticker a = ticker /\ article_shape a).
Proof.
  intros it. unfold google_item. cbv zeta. split_all; repeat m_step;
    try (intros ? ?; discriminate);
    intros ? Ha0; injection Ha0 as <-; (split; [reflexivity | right; right; reflexivity]).
Qed.

Lemma news_sources_shape (env : news_env) :
  forall f, In f (news_sources env) -> forall t d,
    post (f t d) (Forall (fun a => a_ticker a = t /\ article_shape a)).
Proof.
  intros f Hf t d. simpl in Hf. destruct Hf as [<- | [<- | [<- | []]]].
  - unfold get_yahoo_news. destruct (yahoo_news_page env t);
      [apply items_loop_post, yahoo_item_shape | apply post_ret; constructor].
  - unfold get_marketwatch_news. destruct (marketwatch_news_page env t);
      [apply items_loop_post, marketwatch_item_shape | apply post_ret; constructor].
  - unfold get_google_news. destruct (google_news_feed env t);
      [apply items_loop_post, google_item_shape | apply post_ret; constructor].
Qed.

Lemma get_ticker_news_post_at (sources : list (string -> Z -> M (list article))) (P : article -> Prop)
    (ticker : string) (days_back : Z) :
  (forall f, In f sources -> post (f ticker days_back) (Forall P)) ->
  post (get_ticker_news sources ticker days_back) (Forall P).
Proof.
  intros Hs. induction sources as [|f fs IH]; simpl; [apply post_ret; constructor|].
  apply post_bind with (P := Forall P).
  - apply post_try; [apply Hs; left; reflexivity | apply post_ret; constructor].
  - intros a Ha. apply post_bind with (P := Forall P).
    + apply IH. intros g Hg. apply Hs. right. exact Hg.
    + intros rest Hr. apply post_ret. apply Forall_app. split; assumption.
Qed.

Lemma gather_news_post_ticker (sources : list (string -> Z -> M (list article))) (Q : article -> Prop)
    (tickers : list string) (days_back : Z) :
  (forall f, In f sources -> forall t d, post (f t d) (Forall (fun a => a_ticker a = t /\ Q a))) ->
  post (gather_news sources tickers days_back) (Forall (fun a => In (a_ticker a) tickers /\ Q a)).
Proof.
  intros Hs. induction tickers as [|t ts IH]; simpl; [apply post_ret; constructor|].
  apply post_bind with (P := Forall (fun a => a_ticker a = t /\ Q a)).
  - apply post_try; [|apply post_ret; constructor].
    apply get_ticker_news_post_at. intros f Hf. apply Hs, Hf.
  - intros a Ha. apply post_bind with (1 := IH). intros rest Hr.
    apply post_ret. apply Forall_app. split.
    + eapply Forall_impl; [|exact Ha]. intros x [Hx Hq]. split; [left; symmetry; exact Hx | exact Hq].
    + eapply Forall_impl; [|exact Hr]. intros x [Hx Hq]. split; [right; exact Hx | exact Hq].
Qed.

Lemma news_table_articles (env : news_env) (tickers : list string) (days_back : Z)
    (s : list string) (R : list article) (s' : list string) :
  get_news_for_tickers env tickers days_back s = (Ok R, s') ->
  Forall (fun a => In (a_ticker a) tickers /\ article_shape a) R.
Proof.
  intros H. destruct (collect_news_spec _ _ _ _ _ _ H) as [all [s1 [G [_ [Hsub _]]]]].
  pose proof (gather_news_post_ticker _ article_shape tickers days_back (news_sources_shape env) _ _ _ G) as Hall.
  rewrite Forall_forall in Hall |- *. intros r Hr. apply Hall, Hsub, Hr.
Qed.

(** X12: every article of the news table belongs to one of the requested
    tickers, and is a Yahoo Finance article with a title and an absolute or
    non-root-relative url, a MarketWatch article with a title and an "http"
    url, or a Google News article. *)
Theorem get_news_for_tickers_articles (env : news_env) (tickers : list string) (days_back : Z)
    (s : list string) (R : list article) (s' : list string) :
  get_news_for_tickers env tickers days_back s = (Ok R, s') ->
  Forall (fun a => In (a_ticker a) tickers /\ article_shape a) R.
Proof. apply news_table_articles. Qed.

Lemma get_news_for_tickers_articles_witness :
  exists R s',
    get_news_for_tickers shared_url_env ["AAPL"; "MSFT"] 7 [] = (Ok R, s') /\
    Forall (fun a => In (a_ticker a) ["AAPL"; "MSFT"] /\ article_shape a) R.
Proof.
  assert (E : exists R s', get_news_for_tickers shared_url_env ["AAPL"; "MSFT"] 7 [] = (Ok R, s'))
    by (eexists; eexists; vm_compute; reflexivity).
  destruct E as [R [s' E]]. exists R, s'. split; [exact E|].
  exact (get_news_for_tickers_articles shared_url_env ["AAPL"; "MSFT"] 7 [] R s' E).
Defined.

Lemma load_news_data_calls (env : news_env) (tickers : list string) :
  calls_le (load_news_data env tickers) (length tickers * 15).
Proof.
  unfold load_news_data.
  eapply calls_weaken; [apply calls_try with (k1 := (length tickers * 15)%nat) (k2 := 0%nat); [|apply calls_ret] | lia].
  unfold get_news_for_tickers, collect_news. eapply calls_weaken.
  - apply calls_bind; [apply gather_news_calls, news_sources_calls | intros; apply news_finalize_calls].
  - simpl. lia.
Qed.

(** X13: the News tab never fails: it shows nothing without a selected
    ticker, and otherwise a table (empty when the scraper raised) of
    articles of the first five selected tickers only, after at most 75
    downloads. *)
Theorem news_tab_safe (env : news_env) (selected_tickers : list string) (s : list string) :
  exists o, fst (news_tab env selected_tickers s) = Ok o /\
    (selected_tickers = [] -> o = None) /\
    (forall l, o = Some l -> Forall (fun a => In (a_ticker a) (firstn 5 selected_tickers) /\ article_shape a) l) /\
    (exists c, snd (news_tab env selected_tickers s) = s ++ c /\ (length c <= 75)%nat).
Proof.
  destruct selected_tickers as [|t ts].
  - exists None. split; [reflexivity|]. split; [reflexivity|]. split; [discriminate|].
    exists []. rewrite app_nil_r. split; [reflexivity | simpl; lia].
  - set (tk := firstn 5 (t :: ts)).
    assert (Hc : calls_le (load_news_data env tk) 75).
    { eapply calls_weaken; [apply load_news_data_calls|]. pose proof (firstn_len_le 5 (t :: ts)). unfold tk. lia. }
    unfold news_tab. fold tk. unfold bind.
    destruct (load_news_data env tk s) as [[df|] s1] eqn:E.
    + exists (Some df). split; [reflexivity|]. split; [discriminate|]. split.
      * intros l Hl. injection Hl as <-. unfold load_news_data, try_except in E.
        destruct (get_news_for_tickers env tk 7 s) as [[R|] s2] eqn:G; injection E as <- _.
        -- exact (news_table_articles _ _ _ _ _ _ G).
        -- constructor.
      * destruct (Hc s) as [c [Hc1 Hc2]]. rewrite E in Hc1. exists c. split; [exact Hc1 | exact Hc2].
    + exfalso. unfold load_news_data, try_except in E.
      destruct (get_news_for_tickers env tk 7 s) as [[R|] s2]; discriminate.
Qed.

(** ** The dashboard *)


Lemma StronglySorted_filter {A} (R : A -> A -> Prop) (p : A -> bool) (l : list A) :
  StronglySorted R l -> StronglySorted R (filter p l).
Proof.
  induction 1 as [|a l Hs IH Hf]; simpl; [constructor|].
  destruct (p a); [|exact IH]. constructor; [exact IH|].
  rewrite Forall_forall in Hf |- *. intros x Hx. apply filter_In in Hx. apply Hf, Hx.
Qed.

Lemma Sorted_date_filter (p : earning -> bool) (l : list earning) :
  Sorted (fun x y => e_date x <= e_date y) l -> Sorted (fun x y => e_date x <= e_date y) (filter p l).
Proof.
  intros H. apply StronglySorted_Sorted, StronglySorted_filter.
  apply Sorted_StronglySorted; [|exact H]. intros x y z; lia.
Qed.

Lemma filter_earnings_in (date_range : list Z) (selected_tickers : list string) (df : list earning) (r : earning) :
  In r (filter_earnings date_range selected_tickers df) <->
  In r df /\ (forall d0 d1, date_range = [d0; d1] -> d0 <= e_date r <= d1) /\
  (selected_tickers <> [] -> In (e_ticker r) selected_tickers).
Proof.
  assert (Hdr : In r (match date_range with
                      | [d0; d1] => filter (fun e => (d0 <=? e_date e) && (e_date e <=? d1)) df
                      | _ => df end) <->
                In r df /\ (forall d0 d1, date_range = [d0; d1] -> d0 <= e_date r <= d1)).
  { destruct date_range as [|d0 [|d1 [|d2 l]]];
      try (split; [intros H; split; [exact H | intros ? ? E; discriminate] | intros [H _]; exact H]).
    rewrite filter_In, andb_true_iff, !Z.leb_le. split.
    - intros [H1 H2]. split; [exact H1|]. intros a b E. injection E as <- <-. lia.
    - intros [H1 H2]. split; [exact H1|]. specialize (H2 d0 d1 eq_refl). lia. }
  unfold filter_earnings. cbv zeta. destruct selected_tickers as [|t ts].
  - split.
    + intros H. apply Hdr in H as [H1 H2]. split; [exact H1|]. split; [exact H2|]. intros E. contradiction.
    + intros [H1 [H2 _]]. apply Hdr. auto.
  - split.
    + intros H. apply filter_In in H as [H Hx]. apply Hdr in H as [H1 H2].
      apply existsb_exists in Hx as [x [Hx Ex]]. apply String.eqb_eq in Ex. subst x. auto.
    + intros [H1 [H2 H3]]. apply filter_In. split; [apply Hdr; auto|].
      apply existsb_exists. exists (e_ticker r). split; [apply H3; discriminate | apply String.eqb_refl].
Qed.

(** X14: the Calendar tab's table: sorted by date, at most one row per
    (ticker, date), every row taken from the loaded calendar, within the
    date range when both of its ends are set, and of a selected ticker when
    any is selected; every calendar row meeting these conditions is shown. *)
Theorem filter_earnings_calendar (env : earn_env) (date_range : list Z) (selected_tickers : list string) :
  let F := filter_earnings date_range selected_tickers (load_earnings_data env) in
  Sorted (fun x y => e_date x <= e_date y) F /\
  (forall r r', In r F -> In r' F -> earn_key r = earn_key r' -> r = r') /\
  (forall r, In r F <->
     In r (load_earnings_data env) /\ (forall d0 d1, date_range = [d0; d1] -> d0 <= e_date r <= d1) /\
     (selected_tickers <> [] -> In (e_ticker r) selected_tickers)).
Proof.
  cbv zeta. unfold load_earnings_data, get_earnings_calendar.
  destruct (collect_earnings_spec (earnings_sources env) 30) as [Hs [Hsub Hone]]. cbv zeta in Hs, Hsub, Hone.
  split; [|split].
  - unfold filter_earnings. cbv zeta. destruct selected_tickers; [|apply Sorted_date_filter];
      destruct date_range as [|d0 [|d1 [|d2 l]]]; first [exact Hs | apply Sorted_date_filter; exact Hs].
  - intros r r' Hr Hr' Ek. apply filter_earnings_in in Hr as [Hr _], Hr' as [Hr' _].
    destruct (Hone r (Hsub r Hr)) as [r0 [_ Hf]].
    assert (A1 : In r [r0]) by (rewrite <- Hf; apply filter_In; split; [exact Hr | apply earn_key_eqb_spec; reflexivity]).
    assert (A2 : In r' [r0]) by (rewrite <- Hf; apply filter_In; split; [exact Hr' | apply earn_key_eqb_spec; symmetry; exact Ek]).
    destruct A1 as [<-|[]], A2 as [<-|[]]. reflexivity.
  - intros r. apply filter_earnings_in.
Qed.

(** X15: the default of the "Multiple Tickers" multiselect, taken from the
    searched tickers: at most five available tickers, at least one when some
    ticker is available, and only tickers containing the search text
    (ignoring case) when some ticker does. *)
Theorem multi_default_search (search : string) (available_tickers : list string) :
  let sel := multi_default (search_tickers search available_tickers) in
  (forall t, In t sel -> In t available_tickers) /\
  (length sel <= 5)%nat /\
  (available_tickers <> [] -> sel <> []) /\
  (is_empty search = false ->
   (exists t, In t available_tickers /\ contains (upper search) (upper t) = true) ->
   forall t, In t sel -> contains (upper search) (upper t) = true).
Proof.
  cbv zeta.
  assert (Hd : forall l t, In t (multi_default l) -> In t l)
    by (intros l t H; unfold multi_default in H; destruct (5 <=? length l)%nat;
        match type of H with In _ (firstn ?n _) =>
          rewrite <- (firstn_skipn n l); apply in_or_app; left; exact H end).
  assert (Hn : forall l : list string, l <> [] -> multi_default l <> [])
    by (intros [|x l] H; [contradiction|]; unfold multi_default; destruct (5 <=? length (x :: l))%nat; discriminate).
  assert (Hl : forall l : list string, (length (multi_default l) <= 5)%nat)
    by (intros l; unfold multi_default; destruct (5 <=? length l)%nat; rewrite length_firstn; lia).
  unfold search_tickers. destruct (is_empty search) eqn:Es.
  - split; [exact (Hd _)|]. split; [apply Hl|]. split; [exact (Hn _)|]. discriminate.
  - destruct (filter (fun t => contains (upper search) (upper t)) available_tickers) as [|x xs] eqn:F.
    + split; [exact (Hd _)|]. split; [apply Hl|]. split; [exact (Hn _)|]. intros _ [t [Ht Hc]].
      assert (In t []) as []. rewrite <- F. apply filter_In. auto.
    + split; [|split; [apply Hl|split]].
      * intros t Ht. apply Hd in Ht. rewrite <- F in Ht. apply filter_In in Ht. apply Ht.
      * intros _. apply Hn. discriminate.
      * intros _ _ t Ht. apply Hd in Ht. rewrite <- F in Ht. apply filter_In in Ht. apply Ht.
Qed.


(** X16: the ticker search keeps only available tickers, never leaves the
    choice empty when some ticker is available, and, when some ticker
    contains the search text (ignoring case), offers only such tickers. *)
Theorem search_tickers_spec (search : string) (available_tickers : list string) :
  (forall t, In t (search_tickers search available_tickers) -> In t available_tickers) /\
  (available_tickers <> [] -> search_tickers search available_tickers <> []) /\
  (is_empty search = false ->
   (exists t, In t available_tickers /\ contains (upper search) (upper t) = true) ->
   forall t, In t (search_tickers search available_tickers) -> contains (upper search) (upper t) = true).
Proof.
  unfold search_tickers. destruct (is_empty search) eqn:Es.
  - split; [auto|]. split; [auto|]. discriminate.
  - destruct (filter (fun t => contains (upper search) (upper t)) available_tickers) as [|x xs] eqn:F.
    + split; [auto|]. split; [auto|]. intros _ [t [Ht Hc]].
      assert (In t []) as []. rewrite <- F. apply filter_In. auto.
    + split; [|split].
      * intros t Ht. rewrite <- F in Ht. apply filter_In in Ht. apply Ht.
      * discriminate.
      * intros _ _ t Ht. rewrite <- F in Ht. apply filter_In in Ht. apply Ht.
Qed.

(** X17: the "Popular Tickers" selection holds available tickers only, at
    most ten, and is not empty when some ticker is available. *)
Theorem popular_selection_spec (available_tickers : list string) :
  (forall t, In t (popular_selection available_tickers) -> In t available_tickers) /\
  (length (popular_selection available_tickers) <= 10)%nat /\
  (available_tickers <> [] -> popular_selection available_tickers <> []).
Proof.
  unfold popular_selection.
  destruct (filter (fun t => existsb (String.eqb t) available_tickers) popular_tickers) as [|x xs] eqn:F.
  - split; [|split].
    + intros t Ht. rewrite <- (firstn_skipn 10 available_tickers). apply in_or_app. left. exact Ht.
    + rewrite length_firstn. lia.
    + destruct available_tickers; [contradiction | discriminate].
  - split; [|split].
    + intros t Ht. rewrite <- F in Ht. apply filter_In in Ht as [_ Ht].
      apply existsb_exists in Ht as [u [Hu Eu]]. apply String.eqb_eq in Eu. subst. exact Hu.
    + rewrite <- F. etransitivity; [apply filter_length_le | reflexivity].
    + discriminate.
Qed.

(** X18: the earnings calendar is empty exactly when each of the four
    sources yields no row. *)
Theorem get_earnings_calendar_empty_iff (env : earn_env) (days_ahead : Z) :
  get_earnings_calendar env days_ahead = [] <->
  scrape_finviz_earnings env days_ahead = [] /\ scrape_investing_earnings env days_ahead = [] /\
  scrape_yahoo_finance_api env days_ahead = [] /\ scrape_marketwatch_earnings env days_ahead = [].
Proof.
  unfold get_earnings_calendar.
  destruct (collect_earnings_spec (earnings_sources env) days_ahead) as [_ [Hsub Hone]]. cbv zeta in Hsub, Hone.
  assert (G : gather_earnings (earnings_sources env) days_ahead =
              scrape_finviz_earnings env days_ahead ++ scrape_investing_earnings env days_ahead ++
              scrape_yahoo_finance_api env days_ahead ++ scrape_marketwatch_earnings env days_ahead)
    by (simpl; rewrite !app_nil_r; reflexivity).
  rewrite G in Hsub, Hone. split.
  - intros E. rewrite E in Hone.
    destruct (scrape_finviz_earnings env days_ahead ++ scrape_investing_earnings env days_ahead ++
              scrape_yahoo_finance_api env days_ahead ++ scrape_marketwatch_earnings env days_ahead)
      as [|r rs] eqn:A.
    + apply app_eq_nil in A as [A1 A]. apply app_eq_nil in A as [A2 A]. apply app_eq_nil in A as [A3 A4]. auto.
    + destruct (Hone r (or_introl eq_refl)) as [r0 [_ Hf]]. discriminate.
  - intros [E1 [E2 [E3 E4]]]. rewrite E1, E2, E3, E4 in Hsub.
    destruct (collect_earnings (earnings_sources env) days_ahead) as [|r rs]; [reflexivity|].
    destruct (Hsub r (or_introl eq_refl)).
Qed.

(** ** Ticker helpers *)



Lemma list_upper (s : string) : list_ascii_of_string (upper s) = map upper_char (list_ascii_of_string s).
Proof. unfold upper. rewrite list_ascii_of_string_of_list_ascii. reflexivity. Qed.

Lemma upper_char_not_lower (c : ascii) : is_lower (upper_char c) = false.
Proof.
  unfold upper_char, is_lower. destruct ((97 <=? nat_of_ascii c) && (nat_of_ascii c <=? 122))%nat eqn:E.
  - apply andb_true_iff in E. destruct E as [E1 E2]. apply Nat.leb_le in E1, E2.
    rewrite Ascii.nat_ascii_embedding by lia.
    apply andb_false_iff. left. apply Nat.leb_gt. lia.
  - exact E.
Qed.

Lemma in_firstn_l {A} (n : nat) (l : list A) (x : A) : In x (firstn n l) -> In x l.
Proof. intros H. rewrite <- (firstn_skipn n l). apply in_or_app. left. exact H. Qed.

Lemma fold_suffixes_in (sufs : list string) (t : string) (c : ascii) :
  In c (list_ascii_of_string
          (fold_left (fun t suffix => if ends_with suffix t then drop_end (String.length suffix) t else t) sufs t)) ->
  In c (list_ascii_of_string t).
Proof.
  revert t. induction sufs as [|x xs IH]; intros t H; [exact H|]. simpl in H. apply IH in H.
  destruct (ends_with x t); [|exact H]. unfold drop_end in H.
  rewrite list_ascii_of_string_of_list_ascii in H. eapply in_firstn_l. exact H.
Qed.

Lemma clean_ticker_chars (ticker : string) (c : ascii) :
  In c (list_ascii_of_string (clean_ticker ticker)) ->
  In c (list_ascii_of_string (upper ticker)) /\ c <> "."%char.
Proof.
  unfold clean_ticker. destruct (is_empty ticker); [intros []|]. cbv zeta.
  rewrite list_ascii_of_string_of_list_ascii. intros H. apply filter_In in H as [H Hd].
  split.
  - apply in_strip. eapply fold_suffixes_in. exact H.
  - intros ->. rewrite Ascii.eqb_refl in Hd. exact (Bool.diff_false_true Hd).
Qed.

(** X19: [clean_ticker] never returns a "." or a lower-case letter. *)
Theorem clean_ticker_no_dot_lower (ticker : string) (c : ascii) :
  In c (list_ascii_of_string (clean_ticker ticker)) -> c <> "."%char /\ is_lower c = false.
Proof.
  intros H. apply clean_ticker_chars in H as [H Hd]. split; [exact Hd|].
  rewrite list_upper in H. apply in_map_iff in H as [c0 [<- _]]. apply upper_char_not_lower.
Qed.

(** X20: a ticker [validate_ticker] accepts cleans to 1 to 5 upper-case
    letters A to Z. *)
Theorem validate_ticker_spec (ticker : string) :
  validate_ticker ticker = true ->
  (1 <= String.length (clean_ticker ticker) <= 5)%nat /\
  forall c, In c (list_ascii_of_string (clean_ticker ticker)) -> (65 <= nat_of_ascii c <= 90)%nat.
Proof.
  unfold validate_ticker. destruct (is_empty ticker); [discriminate|]. cbv zeta.
  destruct ((String.length (clean_ticker ticker) <? 1)%nat || (5 <? String.length (clean_ticker ticker))%nat)
    eqn:E; [discriminate|].
  intros H. apply andb_true_iff in H as [_ H]. rewrite forallb_forall in H.
  apply orb_false_iff in E as [E1 E2]. apply Nat.ltb_ge in E1, E2. split; [lia|].
  intros c Hc. pose proof (H c Hc) as Ha. apply clean_ticker_no_dot_lower in Hc as [_ Hl].
  unfold is_alpha in Ha. unfold is_lower in Hl. rewrite Hl, orb_false_r in Ha.
  apply andb_true_iff in Ha as [A1 A2]. apply Nat.leb_le in A1, A2. lia.
Qed.

Lemma validate_ticker_spec_witness :
  validate_ticker "aapl.to" = true /\
  (1 <= String.length (clean_ticker "aapl.to") <= 5)%nat /\
  forall c, In c (list_ascii_of_string (clean_ticker "aapl.to")) -> (65 <= nat_of_ascii c <= 90)%nat.
Proof.
  assert (H : validate_ticker "aapl.to" = true) by (vm_compute; reflexivity).
  split; [exact H | exact (validate_ticker_spec "aapl.to" H)].
Defined.


Lemma length_list_ascii (s : string) : String.length s = length (list_ascii_of_string s).
Proof. induction s as [|c s IH]; simpl; [reflexivity | rewrite IH; reflexivity]. Qed.

Lemma ends_with_spec (x s : string) :
  ends_with x s = true -> exists p, list_ascii_of_string s = p ++ list_ascii_of_string x.
Proof.
  unfold ends_with. cbv zeta. intros H. apply andb_true_iff in H as [_ H]. apply String.eqb_eq in H.
  set (l := list_ascii_of_string s) in *. set (k := (length l - String.length x)%nat) in *.
  exists (firstn k l). rewrite <- H, list_ascii_of_string_of_list_ascii. symmetry. apply firstn_skipn.
Qed.

Lemma ends_with_app (u l : list ascii) :
  ends_with (string_of_list_ascii l) (string_of_list_ascii (u ++ l)) = true.
Proof.
  unfold ends_with. cbv zeta. rewrite length_list_ascii, !list_ascii_of_string_of_list_ascii, length_app.
  replace (length u + length l - length l)%nat with (length u) by lia.
  rewrite skipn_app, skipn_all, Nat.sub_diag. simpl. rewrite String.eqb_refl, andb_true_r.
  apply Nat.leb_le. lia.
Qed.

Lemma drop_end_app (u l : list ascii) :
  drop_end (length l) (string_of_list_ascii (u ++ l)) = string_of_list_ascii u.
Proof.
  unfold drop_end. cbv zeta. rewrite list_ascii_of_string_of_list_ascii, length_app.
  replace (length u + length l - length l)%nat with (length u) by lia.
  rewrite firstn_app, firstn_all, Nat.sub_diag. simpl. rewrite app_nil_r. reflexivity.
Qed.

Lemma ends_with_letters (x : string) (u : list ascii) (c : ascii) :
  (forall d, In d u -> is_upper_letter d) -> In c (list_ascii_of_string x) -> ~ is_upper_letter c ->
  ends_with x (string_of_list_ascii u) = false.
Proof.
  intros Hu Hc Hn. destruct (ends_with x (string_of_list_ascii u)) eqn:E; [|reflexivity].
  apply ends_with_spec in E as [p Ep]. rewrite list_ascii_of_string_of_list_ascii in Ep.
  exfalso. apply Hn, Hu. rewrite Ep. apply in_or_app. right. exact Hc.
Qed.

Lemma ends_with_mismatch (x : string) (u l : list ascii) :
  (forall p, rev l ++ rev u <> rev (list_ascii_of_string x) ++ rev p) ->
  ends_with x (string_of_list_ascii (u ++ l)) = false.
Proof.
  intros H. destruct (ends_with x (string_of_list_ascii (u ++ l))) eqn:E; [|reflexivity].
  apply ends_with_spec in E as [p Ep]. rewrite list_ascii_of_string_of_list_ascii in Ep.
  exfalso. apply (H p). rewrite <- !rev_app_distr, Ep. reflexivity.
Qed.

Lemma strip_no_space (l : list ascii) :
  (forall c, In c l -> is_space c = false) -> strip (string_of_list_ascii l) = string_of_list_ascii l.
Proof.
  intros H. unfold strip. rewrite list_ascii_of_string_of_list_ascii.
  assert (E : forall m, (forall c, In c m -> is_space c = false) -> lstrip_l m = m).
  { intros [|c m] Hm; [reflexivity|]. simpl. rewrite (Hm c (or_introl eq_refl)). reflexivity. }
  rewrite (E l H), E, rev_involutive; [reflexivity|].
  intros c Hc. apply H, in_rev, Hc.
Qed.

Lemma upper_letter (c : ascii) : is_alpha c = true -> is_upper_letter (upper_char c).
Proof.
  unfold is_alpha, upper_char, is_upper_letter. intros H.
  destruct ((97 <=? nat_of_ascii c) && (nat_of_ascii c <=? 122))%nat eqn:E.
  - apply andb_true_iff in E as [E1 E2]. apply Nat.leb_le in E1, E2.
    rewrite Ascii.nat_ascii_embedding by lia. lia.
  - rewrite orb_false_r in H. apply andb_true_iff in H as [E1 E2]. apply Nat.leb_le in E1, E2. lia.
Qed.

Lemma upper_letter_not_space (c : ascii) : is_upper_letter c -> is_space c = false.
Proof.
  unfold is_upper_letter, is_space. intros H. apply orb_false_iff. split; apply andb_false_iff.
  all: right; apply Nat.leb_gt; lia.
Qed.

Lemma filter_upper_letters (u : list ascii) :
  (forall d, In d u -> is_upper_letter d) -> filter (fun c => negb (Ascii.eqb c "."%char)) u = u.
Proof.
  induction u as [|c r IH]; intros Hu; [reflexivity|]. simpl.
  assert (Hc : Ascii.eqb c "."%char = false).
  { destruct (Ascii.eqb_spec c "."%char) as [->|]; [|reflexivity].
    specialize (Hu "."%char (or_introl eq_refl)). unfold is_upper_letter in Hu. change (nat_of_ascii "."%char) with 46%nat in Hu. lia. }
  rewrite Hc. simpl. rewrite IH; [reflexivity|]. intros d Hd. apply Hu. right. exact Hd.
Qed.

(** X21: an exchange suffix ("-USD", "-US", ".US", ".TO" or ".L") after a
    ticker made of letters is removed, and the letters are upper-cased. *)
Theorem clean_ticker_exchange_suffix (t suffix : string) :
  In suffix exchange_suffixes -> forallb is_alpha (list_ascii_of_string t) = true ->
  clean_ticker (append t suffix) = upper t.
Proof.
  intros Hs Ht. rewrite forallb_forall in Ht.
  set (u := map upper_char (list_ascii_of_string t)).
  assert (Hu : forall d, In d u -> is_upper_letter d).
  { intros d Hd. apply in_map_iff in Hd as [c [<- Hc]]. apply upper_letter, Ht, Hc. }
  assert (Hup : upper t = string_of_list_ascii u).
  { unfold upper. reflexivity. }
  assert (Hne : is_empty (append t suffix) = false)
    by (destruct t; [simpl in Hs; destruct Hs as [<-|[<-|[<-|[<-|[<-|[]]]]]] |]; reflexivity).
  assert (Hsuf : map upper_char (list_ascii_of_string suffix) = list_ascii_of_string suffix /\
                 forall c, In c (list_ascii_of_string suffix) -> is_space c = false)
    by (simpl in Hs; destruct Hs as [<-|[<-|[<-|[<-|[<-|[]]]]]]; (split; [reflexivity | simpl; intuition (subst; reflexivity)])).
  destruct Hsuf as [Hsu Hsp].
  assert (Hstrip : strip (upper (append t suffix)) = string_of_list_ascii (u ++ list_ascii_of_string suffix)).
  { replace (upper (append t suffix)) with (string_of_list_ascii (u ++ list_ascii_of_string suffix)).
    2:{ rewrite <- Hsu. unfold u. rewrite <- map_app, <- list_ascii_of_string_append. reflexivity. }
    apply strip_no_space. intros c Hc. apply in_app_or in Hc as [Hc|Hc].
    - apply upper_letter_not_space, Hu, Hc.
    - apply Hsp, Hc. }
  assert (Hfilter := filter_upper_letters u Hu).
  unfold clean_ticker. rewrite Hne. cbv zeta. rewrite Hstrip.
  assert (Hrest : forall x, In x exchange_suffixes -> ends_with x (string_of_list_ascii u) = false).
  { intros x Hx. simpl in Hx.
    destruct Hx as [<-|[<-|[<-|[<-|[<-|[]]]]]];
      (eapply ends_with_letters; [exact Hu | simpl; left; reflexivity | let H := fresh in intros H; unfold is_upper_letter in H; vm_compute in H; lia]). }
  assert (Hdrop : drop_end (String.length suffix) (string_of_list_ascii (u ++ list_ascii_of_string suffix)) = string_of_list_ascii u)
    by (rewrite length_list_ascii; apply drop_end_app).
  assert (Hend : ends_with suffix (string_of_list_ascii (u ++ list_ascii_of_string suffix)) = true).
  { rewrite <- (string_of_list_ascii_of_string suffix) at 1. apply ends_with_app. }
  clearbody u. unfold exchange_suffixes. cbn [fold_left].
  simpl in Hs; destruct Hs as [<-|[<-|[<-|[<-|[<-|[]]]]]];
    repeat match goal with
    | |- context [ends_with ?x (string_of_list_ascii (u ++ ?l))] =>
        first [rewrite Hend | rewrite (ends_with_mismatch x u l) by (intros p; simpl; discriminate)]; cbv iota
    | |- context [drop_end _ _] => rewrite Hdrop
    | |- context [ends_with ?x (string_of_list_ascii u)] => rewrite (Hrest x) by (simpl; tauto); cbv iota
    end;
    rewrite list_ascii_of_string_of_list_ascii, Hfilter, Hup; reflexivity.
Qed.

Lemma clean_ticker_exchange_suffix_witness :
  (In ".TO" exchange_suffixes /\ forallb is_alpha (list_ascii_of_string "brk") = true) /\
  clean_ticker (append "brk" ".TO") = upper "brk".
Proof.
  split; [split; [simpl; tauto | reflexivity] |].
  apply clean_ticker_exchange_suffix; [simpl; tauto | reflexivity].
Defined.

Lemma clean_ticker_no_dot_lower_witness :
  In "B"%char (list_ascii_of_string (clean_ticker "b.tsx")) /\ "B"%char <> "."%char /\ is_lower "B"%char = false.
Proof.
  assert (H : In "B"%char (list_ascii_of_string (clean_ticker "b.tsx"))) by (vm_compute; left; reflexivity).
  split; [exact H | exact (clean_ticker_no_dot_lower "b.tsx" "B"%char H)].
Defined.
